(** * Halley XBL plugin: a model of [xbl_manager.cpp]

    The plugin binds the engine's platform interface to the console
    vendor's identity, achievement and connected-storage services.  The
    manager object ([XBLManager]) holds the session handles, the
    connection status, the achievement cache and the registry of save
    containers; each save container ([XBLSaveData]) holds a lazily
    created container handle and a flag that is raised while a write is
    in flight.

    The vendor services and the engine's [String] class are not part of
    the file under study; they enter the model through the [Platform]
    interface below, and every statement holds for every implementation
    of it. *)

From Stdlib Require Import ZArith QArith Qround Qpower.
From stdpp Require Import gmap strings list.

Local Open Scope Z_scope.

(** ** Enumerations *)

Inductive XBLStatus := Disconnected | Connecting | Connected.

Inductive XBLAchievementsStatus := Uninitialized | Retrieving | Ready.

#[global] Instance XBLStatus_eq_dec : EqDecision XBLStatus.
Proof. solve_decision. Defined.

#[global] Instance XBLAchievementsStatus_eq_dec : EqDecision XBLAchievementsStatus.
Proof. solve_decision. Defined.

(** [Windows::Gaming::XboxLive::Storage::GameSaveErrorStatus]; the code
    only ever compares a status with [Ok] and prints it. *)
Inductive GameSaveErrorStatus :=
| Ok | Abort | InvalidContainerName | NoAccess | OutOfLocalStorage
| UserCanceled | UpdateTooBig | QuotaExceeded | ProvidedBufferTooSmall
| BlobNotFound | NoXboxLiveInfo | ContainerNotInSync | ContainerSyncFailed
| UserHasNoXboxLiveInfo | ObjectExpired.

#[global] Instance GameSaveErrorStatus_eq_dec : EqDecision GameSaveErrorStatus.
Proof. solve_decision. Defined.

(** ** Strings and bytes *)

(** A wide string ([std::wstring], [winrt::hstring], [string_t]) is its
    sequence of 16-bit code units. *)
Definition wstring := list Z.

Definition Bytes := list Byte.byte.

(** ** The platform interface *)

Class Platform := {
  (** [String::getUTF16], [String(const wchar_t* )], [String::split] and
      [String::toInteger] of the engine's string class. *)
  getUTF16 : string → wstring;
  fromUTF16 : wstring → string;
  split : string → Ascii.ascii → list string;
  toInteger : string → Z;
  (** Connected-storage handles.  Both are reference types of the vendor
      runtime; the plugin keeps them inside a [Maybe]. *)
  GameSaveProvider : Type;
  GameSaveContainer : Type;
  CreateContainer : GameSaveProvider → wstring → GameSaveContainer;
  (** The state of the remote blob store and the three requests the
      plugin sends to it, each already awaited ([.get()]). *)
  Cloud : Type;
  GetAsync :
    Cloud → GameSaveContainer → list wstring →
    GameSaveErrorStatus * gmap wstring Bytes;
  SubmitUpdatesAsync :
    Cloud → GameSaveContainer → list (wstring * Bytes) → list wstring →
    GameSaveErrorStatus * Cloud;
  GetBlobInfoAsync :
    Cloud → GameSaveContainer → wstring → GameSaveErrorStatus * list wstring
}.

(** ** Outcomes *)

Inductive HalleyExceptions := PlatformPlugin.

Record Exception := mkException { what : string; errorCode : HalleyExceptions }.

(** A call returns, throws, or has no defined behaviour (it went through
    an empty [Maybe] or a null [shared_ptr]). *)
Inductive Res (A : Type) :=
| Returns (a : A)
| Throws (e : Exception)
| Undefined.

Arguments Returns {A} a.
Arguments Throws {A} e.
Arguments Undefined {A}.

Definition bindRes {A B} (r : Res A) (k : A → Res B) : Res B :=
  match r with
  | Returns a => k a
  | Throws e => Throws e
  | Undefined => Undefined
  end.

Notation "'let*' x := r 'in' k" := (bindRes r (fun x => k))
  (at level 10, x name, r at level 100, k at level 200).

(** ** The logger *)

Inductive LogPart :=
| Str (s : string)
| WStr (w : wstring)
| Int (n : Z)
| Status (s : GameSaveErrorStatus).

Inductive LogEntry :=
| logInfo (msg : list LogPart)
| logWarning (msg : list LogPart)
| logError (msg : list LogPart).

(** ** Single-precision arithmetic

    [setAchievementProgress] computes its percentage in [float].  A
    finite [float] is a rational with a 24-bit significand; the values
    that arise from two [int]s stay far inside the exponent range, so
    rounding to 24 significant bits (to nearest, ties to even) is all
    there is to model. *)

Definition roundEven (q : Q) : Z :=
  let f := Qfloor q in
  match Qcompare (q - inject_Z f) (1 # 2) with
  | Lt => f
  | Gt => f + 1
  | Eq => if Z.even f then f else f + 1
  end.

(** [ilog2 q] is the integer part of the binary logarithm of [q > 0]. *)
Definition ilog2 (q : Q) : Z :=
  let e := Z.log2 (Qnum q) - Z.log2 (Zpos (Qden q)) in
  if Qle_bool (Qpower 2 e) q then e else e - 1.

Definition roundPos (q : Q) : Q :=
  let ulp := Qpower 2 (ilog2 q - 23) in
  Qred (inject_Z (roundEven (q / ulp)) * ulp).

Definition round32 (q : Q) : Q :=
  match Qcompare q 0 with
  | Eq => 0%Q
  | Gt => roundPos q
  | Lt => Qopp (roundPos (Qopp q))
  end.

(** [(float)n] *)
Definition float_of_int (n : Z) : Q := round32 (inject_Z n).

(** [(int)floor(((float)currentProgress / (float)maximumValue) * 100.f)].
    A zero divisor gives an infinity or a NaN, and a quotient beyond the
    range of [int] cannot be converted: the conversion then has no
    defined result. *)
Definition progressPercent (currentProgress maximumValue : Z) : option Z :=
  let c := float_of_int currentProgress in
  let m := float_of_int maximumValue in
  if Qeq_bool m 0 then None
  else
    let p := Qfloor (round32 (round32 (c / m) * 100)) in
    if decide (- 2 ^ 31 ≤ p < 2 ^ 31) then Some p else None.

(** The percentage in exact arithmetic. *)
Definition exactPercent (currentProgress maximumValue : Z) : Z :=
  (100 * currentProgress) `div` maximumValue.

(** ** Wide copies of narrow strings

    [string_t id(s.cppStr().begin(), s.cppStr().end())] converts each
    [char] to a [wchar_t]; [char] is signed and [wchar_t] has 16 bits on
    the target. *)
Definition widen (c : Ascii.ascii) : Z :=
  let n := Z.of_N (Ascii.N_of_ascii c) in
  if decide (n < 128) then n else n + 65280.

Definition to_string_t (s : string) : wstring :=
  widen <$> String.list_ascii_of_string s.

Section Model.

Context `{plat : Platform}.

(** ** Session handles *)

Record xbox_live_user := {
  gamertag : wstring;
  xbox_user_id : wstring
}.

Record xbox_live_context := {
  user : xbox_live_user;
  scid : wstring;
  title_id : Z
}.

(** ** The manager *)

Definition string_t := wstring.

Record XBLManager := mkManager {
  xboxUser : option xbox_live_user;
  xboxLiveContext : option xbox_live_context;
  gameSaveProvider : option GameSaveProvider;
  status : XBLStatus;
  achievementsStatus : XBLAchievementsStatus;
  achievementStatus : gmap string_t bool;
  (** [std::map<String, std::shared_ptr<ISaveData>>]: a name is mapped
      to the address of the shared object. *)
  saveStorage : gmap string nat
}.

Definition getProvider (m : XBLManager) : option GameSaveProvider :=
  gameSaveProvider m.

Definition getStatus (m : XBLManager) : XBLStatus := status m.

(** ** Save containers *)

Record XBLSaveData := mkSaveData {
  containerName : string;
  gameSaveContainer : option GameSaveContainer;
  isSaving : bool
}.

Definition setContainer (s : XBLSaveData) (c : option GameSaveContainer) :=
  {| containerName := containerName s;
     gameSaveContainer := c;
     isSaving := isSaving s |}.

Definition setSaving (s : XBLSaveData) (b : bool) :=
  {| containerName := containerName s;
     gameSaveContainer := gameSaveContainer s;
     isSaving := b |}.

(** [manager.getProvider()->CreateContainer(containerName.getUTF16().c_str())] *)
Definition createFromProvider (m : XBLManager) (s : XBLSaveData)
  : Res GameSaveContainer :=
  match getProvider m with
  | Some p => Returns (CreateContainer p (getUTF16 (containerName s)))
  | None => Undefined
  end.

Definition updateContainer (m : XBLManager) (s : XBLSaveData) : Res XBLSaveData :=
  if decide (getStatus m = Connected) then
    match gameSaveContainer s with
    | Some _ => Returns s
    | None => let* c := createFromProvider m s in Returns (setContainer s (Some c))
    end
  else Returns (setContainer s None).

Definition recreate (m : XBLManager) (s : XBLSaveData) : Res XBLSaveData :=
  let* c := createFromProvider m (setContainer s None) in
  Returns (setContainer s (Some c)).

(** The constructor. *)
Definition normalizeName (name : string) : string :=
  if decide (name = ""%string) then "save"%string else name.

Definition newSaveData (m : XBLManager) (name : string) : Res XBLSaveData :=
  updateContainer m
    {| containerName := normalizeName name;
       gameSaveContainer := None;
       isSaving := false |}.

(** [isReady] is [const] but refreshes the (mutable) handle. *)
Definition isReady (m : XBLManager) (s : XBLSaveData) : Res (bool * XBLSaveData) :=
  let* s' := updateContainer m s in
  Returns (bool_decide (is_Some (gameSaveContainer s')), s').

Definition notReady : Exception :=
  mkException "Container is not ready yet!" PlatformPlugin.

(** What the four operations hand to [Concurrent::execute].  The closure
    holds [this] and the arguments; the container handle is read when
    the job runs. *)
Inductive Job :=
| GetDataJob (path : string)
| EnumerateJob (root : string)
| SetDataJob (path : string) (data : Bytes)
| RemoveDataJob (path : string).

Definition whenReady (m : XBLManager) (s : XBLSaveData)
    (k : XBLSaveData → XBLSaveData * Job) : Res (XBLSaveData * Job) :=
  let* r := isReady m s in
  if fst r then Returns (k (snd r)) else Throws notReady.

(** [getData], [enumerate] and [removeData] wait for their job; [setData]
    raises [isSaving], queues the job and returns. *)
Definition getData (m : XBLManager) (s : XBLSaveData) (path : string) :=
  whenReady m s (fun s' => (s', GetDataJob path)).

Definition enumerate (m : XBLManager) (s : XBLSaveData) (root : string) :=
  whenReady m s (fun s' => (s', EnumerateJob root)).

Definition setData (m : XBLManager) (s : XBLSaveData)
    (path : string) (data : Bytes) (commit : bool) :=
  whenReady m s (fun s' => (setSaving s' true, SetDataJob path data)).

Definition removeData (m : XBLManager) (s : XBLSaveData) (path : string) :=
  whenReady m s (fun s' => (s', RemoveDataJob path)).

(** ** The queued jobs *)

(** The body of the [getData] job after its wait: one [GetAsync] for the
    key, then the blob if the store has it, and no bytes otherwise. *)
Definition readBlob (s : XBLSaveData) (path : string) (cl : Cloud)
  : Res (Bytes * list LogEntry) :=
  match gameSaveContainer s with
  | None => Undefined
  | Some c =>
      let key := getUTF16 path in
      let gameBlob := GetAsync cl c [key] in
      if decide (fst gameBlob = Ok) then
        match snd gameBlob !! key with
        | Some buffer => Returns (buffer, [])
        | None => Returns ([], [])
        end
      else
        Returns ([], [logError [Str "Error getting Blob '"; Str path;
                                Str "': "; Status (fst gameBlob)]])
  end.

Definition listBlobs (s : XBLSaveData) (root : string) (cl : Cloud)
  : Res (list string) :=
  match gameSaveContainer s with
  | None => Undefined
  | Some c =>
      let info := GetBlobInfoAsync cl c (getUTF16 root) in
      if decide (fst info = Ok) then Returns (fromUTF16 <$> snd info)
      else Returns []
  end.

(** The body of the [setData] job up to, and without, the final
    [isSaving = false]. *)
Definition submitBlob (s : XBLSaveData) (path : string) (data : Bytes) (cl : Cloud)
  : Res (Cloud * list LogEntry) :=
  match gameSaveContainer s with
  | None => Undefined
  | Some c =>
      let result := SubmitUpdatesAsync cl c [(getUTF16 path, data)] [] in
      Returns (snd result,
               if decide (fst result = Ok) then []
               else [logError [Str "Error saving Blob '"; Str path;
                               Str "': "; Status (fst result)]])
  end.

Definition deleteBlob (s : XBLSaveData) (path : string) (cl : Cloud)
  : Res (Cloud * list LogEntry) :=
  match gameSaveContainer s with
  | None => Undefined
  | Some c =>
      let result := SubmitUpdatesAsync cl c [] [getUTF16 path] in
      Returns (snd result,
               if decide (fst result = Ok) then []
               else [logError [Str "Error deleting Blob '"; Str path;
                               Str "': "; Status (fst result)]])
  end.

(** ** A write job and a read job on one container

    [setData] has raised [isSaving] and queued its job; [getData] has
    queued its own.  The two jobs run on pool threads and share the
    object, the store, the tick counter and the logger.  Each step below
    is one access to shared state by one of the threads, or the passing
    of time; a schedule is a list of such steps. *)

Inductive WriterPc :=
| WSubmit          (* about to call SubmitUpdatesAsync *)
| WClear           (* about to execute isSaving = false *)
| WDone.

Inductive ReaderPc :=
| RTest            (* if (isSaving) *)
| RDeadline        (* timeout = GetTickCount64() + 3000 *)
| RSpinFlag        (* while (isSaving ... *)
| RSpinClock       (*        ... && GetTickCount64() < timeout) *)
| RRecheck         (* if (isSaving) logWarning *)
| RFetch           (* GetAsync and the rest *)
| RDone (result : Bytes).

Record Config := mkConfig {
  obj : XBLSaveData;
  cloud : Cloud;
  now : Z;                       (* GetTickCount64 *)
  logged : list LogEntry;
  writer : WriterPc;
  reader : ReaderPc;
  timeout : Z                    (* the reader's local variable *)
}.

Definition tooLong : LogEntry :=
  logWarning [Str "Saving data to connected storage is taking too long!"].

Definition wrap64 (z : Z) : Z := z mod 2 ^ 64.

Inductive Action :=
| Tick (ms : Z)
| WriterStep
| ReaderStep.

Definition tick (ms : Z) (c : Config) : option Config :=
  if decide (0 < ms ∧ now c + ms < 2 ^ 64) then
    Some (mkConfig (obj c) (cloud c) (now c + ms) (logged c)
                   (writer c) (reader c) (timeout c))
  else None.

Definition writerStep (wpath : string) (wdata : Bytes) (c : Config) : option Config :=
  match writer c with
  | WSubmit =>
      match submitBlob (obj c) wpath wdata (cloud c) with
      | Returns (cl, lg) =>
          Some (mkConfig (obj c) cl (now c) (logged c ++ lg)
                         WClear (reader c) (timeout c))
      | _ => None
      end
  | WClear =>
      Some (mkConfig (setSaving (obj c) false) (cloud c) (now c) (logged c)
                     WDone (reader c) (timeout c))
  | WDone => None
  end.

Definition readerAt (c : Config) (pc : ReaderPc) : Config :=
  mkConfig (obj c) (cloud c) (now c) (logged c) (writer c) pc (timeout c).

Definition readerStep (rpath : string) (c : Config) : option Config :=
  match reader c with
  | RTest =>
      Some (readerAt c (if isSaving (obj c) then RDeadline else RFetch))
  | RDeadline =>
      Some (mkConfig (obj c) (cloud c) (now c) (logged c) (writer c)
                     RSpinFlag (wrap64 (now c + 3000)))
  | RSpinFlag =>
      Some (readerAt c (if isSaving (obj c) then RSpinClock else RRecheck))
  | RSpinClock =>
      Some (readerAt c (if decide (now c < timeout c) then RSpinFlag else RRecheck))
  | RRecheck =>
      Some (mkConfig (obj c) (cloud c) (now c)
                     (if isSaving (obj c) then logged c ++ [tooLong] else logged c)
                     (writer c) RFetch (timeout c))
  | RFetch =>
      match readBlob (obj c) rpath (cloud c) with
      | Returns (bytes, lg) =>
          Some (mkConfig (obj c) (cloud c) (now c) (logged c ++ lg)
                         (writer c) (RDone bytes) (timeout c))
      | _ => None
      end
  | RDone _ => None
  end.

Section Schedule.

Variables (wpath : string) (wdata : Bytes) (rpath : string).

Definition act (a : Action) (c : Config) : option Config :=
  match a with
  | Tick ms => tick ms c
  | WriterStep => writerStep wpath wdata c
  | ReaderStep => readerStep rpath c
  end.

Fixpoint run (sched : list Action) (c : Config) : option Config :=
  match sched with
  | [] => Some c
  | a :: sched' =>
      match act a c with
      | Some c' => run sched' c'
      | None => None
      end
  end.

(** The situation the jobs start from when one write is in flight and
    no other is queued: [setData] passed its readiness test, raised the
    flag and queued the write; [getData] passed its own test and queued
    the read.  Any number of writes is the subject of [Pool] below, of
    which this is the case of a single job. *)
Definition inFlight (s : XBLSaveData) (cl : Cloud) (t : Z) : Config :=
  mkConfig (setSaving s true) cl t [] WSubmit RTest 0.

End Schedule.

(** ** Any number of write jobs and a read job on one container

    [setData] does not wait for its job, so a caller can queue a second
    write while the first is in flight, and every job ends by dropping
    the one [isSaving] flag of the object.  A pool holds the jobs queued
    so far, each with its own path, data and program point; a move is a
    step of one of the jobs or of the reader, the passing of time, or a
    further call of [setData].  The manager, and with it the connection
    status that [setData] tests, stays as it is during a run. *)

Record WriteJob := mkJob {
  jobPath : string;
  jobData : Bytes;
  jobPc : WriterPc
}.

Record Pool := mkPool {
  shared : XBLSaveData;          (* the object: its handle and isSaving *)
  store : Cloud;
  clock : Z;                     (* GetTickCount64 *)
  journal : list LogEntry;
  jobs : list WriteJob;          (* in the order of the calls *)
  reading : ReaderPc;
  limit : Z                      (* the reader's local variable timeout *)
}.

Inductive Move :=
| Elapse (ms : Z)
| JobStep (i : nat)
| ReadStep
| CallSetData (path : string) (data : Bytes) (commit : bool).

Definition elapse (ms : Z) (p : Pool) : option Pool :=
  if decide (0 < ms ∧ clock p + ms < 2 ^ 64) then
    Some (mkPool (shared p) (store p) (clock p + ms) (journal p)
                 (jobs p) (reading p) (limit p))
  else None.

Definition atPc (j : WriteJob) (pc : WriterPc) : WriteJob :=
  mkJob (jobPath j) (jobData j) pc.

(** A step of the [i]-th write job. *)
Definition jobStep (i : nat) (p : Pool) : option Pool :=
  match jobs p !! i with
  | None => None
  | Some j =>
      match jobPc j with
      | WSubmit =>
          match submitBlob (shared p) (jobPath j) (jobData j) (store p) with
          | Returns (cl, lg) =>
              Some (mkPool (shared p) cl (clock p) (journal p ++ lg)
                           (<[i := atPc j WClear]> (jobs p)) (reading p) (limit p))
          | _ => None
          end
      | WClear =>
          Some (mkPool (setSaving (shared p) false) (store p) (clock p) (journal p)
                       (<[i := atPc j WDone]> (jobs p)) (reading p) (limit p))
      | WDone => None
      end
  end.

Definition readingAt (p : Pool) (pc : ReaderPc) : Pool :=
  mkPool (shared p) (store p) (clock p) (journal p) (jobs p) pc (limit p).

(** A step of the read job, program point by program point as in
    [readerStep]. *)
Definition readStep (rpath : string) (p : Pool) : option Pool :=
  match reading p with
  | RTest =>
      Some (readingAt p (if isSaving (shared p) then RDeadline else RFetch))
  | RDeadline =>
      Some (mkPool (shared p) (store p) (clock p) (journal p) (jobs p)
                   RSpinFlag (wrap64 (clock p + 3000)))
  | RSpinFlag =>
      Some (readingAt p (if isSaving (shared p) then RSpinClock else RRecheck))
  | RSpinClock =>
      Some (readingAt p (if decide (clock p < limit p) then RSpinFlag else RRecheck))
  | RRecheck =>
      Some (mkPool (shared p) (store p) (clock p)
                   (if isSaving (shared p) then journal p ++ [tooLong] else journal p)
                   (jobs p) RFetch (limit p))
  | RFetch =>
      match readBlob (shared p) rpath (store p) with
      | Returns (bytes, lg) =>
          Some (mkPool (shared p) (store p) (clock p) (journal p ++ lg)
                       (jobs p) (RDone bytes) (limit p))
      | _ => None
      end
  | RDone _ => None
  end.

(** A further call of [setData] on the caller's thread: the readiness
    test, the flag, and one more job at the end of the queue.  A call
    that throws ends the run: what becomes of jobs whose container lost
    its handle under them is not followed here. *)
Definition callSetData (m : XBLManager) (path : string) (data : Bytes) (commit : bool)
    (p : Pool) : option Pool :=
  match setData m (shared p) path data commit with
  | Returns (s', SetDataJob path' data') =>
      Some (mkPool s' (store p) (clock p) (journal p)
                   (jobs p ++ [mkJob path' data' WSubmit]) (reading p) (limit p))
  | _ => None
  end.

Section Moves.

Variables (m : XBLManager) (rpath : string).

Definition move (a : Move) (p : Pool) : option Pool :=
  match a with
  | Elapse ms => elapse ms p
  | JobStep i => jobStep i p
  | ReadStep => readStep rpath p
  | CallSetData path data commit => callSetData m path data commit p
  end.

Fixpoint play (moves : list Move) (p : Pool) : option Pool :=
  match moves with
  | [] => Some p
  | a :: rest =>
      match move a p with
      | Some p' => play rest p'
      | None => None
      end
  end.

End Moves.

(** The pool when [getData] queues its read while the write of [data]
    under [path] is in flight. *)
Definition writeInFlight (s : XBLSaveData) (cl : Cloud) (t : Z)
    (path : string) (data : Bytes) : Pool :=
  mkPool (setSaving s true) cl t [] [mkJob path data WSubmit] RTest 0.

(** The machine of one write job and the read job, inside the pool: its
    configurations are the pools of one job, its actions the moves that
    do not call [setData]. *)
Definition asPool (wpath : string) (wdata : Bytes) (c : Config) : Pool :=
  mkPool (obj c) (cloud c) (now c) (logged c)
         [mkJob wpath wdata (writer c)] (reader c) (timeout c).

Definition asMove (a : Action) : Move :=
  match a with
  | Tick ms => Elapse ms
  | WriterStep => JobStep 0
  | ReaderStep => ReadStep
  end.

(** ** The manager's operations *)

Definition withStatus (m : XBLManager) (st : XBLStatus) : XBLManager :=
  mkManager (xboxUser m) (xboxLiveContext m) (gameSaveProvider m) st
            (achievementsStatus m) (achievementStatus m) (saveStorage m).

Definition withProvider (m : XBLManager) (p : option GameSaveProvider) : XBLManager :=
  mkManager (xboxUser m) (xboxLiveContext m) p (status m)
            (achievementsStatus m) (achievementStatus m) (saveStorage m).

Definition withAchievementsStatus (m : XBLManager) (st : XBLAchievementsStatus)
  : XBLManager :=
  mkManager (xboxUser m) (xboxLiveContext m) (gameSaveProvider m) (status m)
            st (achievementStatus m) (saveStorage m).

Definition withAchievementStatus (m : XBLManager) (cache : gmap string_t bool)
  : XBLManager :=
  mkManager (xboxUser m) (xboxLiveContext m) (gameSaveProvider m) (status m)
            (achievementsStatus m) cache (saveStorage m).

Definition withSaveStorage (m : XBLManager) (reg : gmap string nat) : XBLManager :=
  mkManager (xboxUser m) (xboxLiveContext m) (gameSaveProvider m) (status m)
            (achievementsStatus m) (achievementStatus m) reg.

Definition deInit (m : XBLManager) : XBLManager :=
  withAchievementStatus (withAchievementsStatus m Uninitialized) ∅.

(** The handler that [onLoggedIn] registers with
    [add_sign_out_completed_handler]. *)
Definition signOutCompleted (m : XBLManager) : XBLManager :=
  mkManager None None None Disconnected Uninitialized ∅ (saveStorage m).

(** *** The registry

    The save-data objects are shared between the registry and the
    callers of [getSaveContainer]; they live in a heap and are named by
    their address. *)

Record World := mkWorld {
  manager : XBLManager;
  heap : list XBLSaveData
}.

Definition getSaveContainer (name : string) (w : World) : Res (nat * World) :=
  match saveStorage (manager w) !! name with
  | None =>
      let* save := newSaveData (manager w) name in
      let a := length (heap w) in
      Returns (a, mkWorld (withSaveStorage (manager w)
                             (<[name := a]> (saveStorage (manager w))))
                          (heap w ++ [save]))
  | Some a => Returns (a, w)
  end.

(** *** Connected storage *)

Record GameSaveProviderGetResult := {
  getStatusOf : GameSaveErrorStatus;     (* result.Status() *)
  getValueOf : GameSaveProvider          (* result.Value()  *)
}.

(** [getConnectedStorage], given what [GetForUserAsync] answers. *)
Definition getConnectedStorage (result : GameSaveProviderGetResult) (m : XBLManager)
  : Res XBLManager :=
  match xboxLiveContext m with
  | None => Undefined
  | Some _ =>
      if decide (getStatusOf result = Ok) then
        Returns (withStatus (withProvider m (Some (getValueOf result))) Connected)
      else
        Returns (withStatus m Disconnected)
  end.

(** The loop over the registry.  Each iteration touches the one object
    its entry points to. *)
Fixpoint recreateEach (m : XBLManager) (addrs : list nat) (h : list XBLSaveData)
  : Res (list XBLSaveData) :=
  match addrs with
  | [] => Returns h
  | a :: rest =>
      match h !! a with
      | None => Undefined
      | Some s =>
          let* s' := recreate m s in
          recreateEach m rest (<[a := s']> h)
      end
  end.

Definition recreateCloudSaveContainer (result : GameSaveProviderGetResult) (w : World)
  : Res World :=
  if decide (status (manager w) = Connected) then
    let m1 := withStatus (withProvider (manager w) None) Disconnected in
    let* m2 := getConnectedStorage result m1 in
    let* h := recreateEach m2 (map_to_list (saveStorage m2)).*2 (heap w) in
    Returns (mkWorld m2 h)
  else Returns w.

(** *** Authorisation tokens *)

Record AuthTokenParameters := {
  method : string;
  url : string;
  headers : string
}.

Record OnlineCapabilities := mkCapabilities {
  onlinePlay : bool;
  ugc : bool
}.

(** [XboxLiveAuthorisationToken] is its [data] map. *)
Definition XboxLiveAuthorisationToken (gamerTag userId token : string)
  : gmap string string :=
  <["token"%string := token]>
    (<["userId"%string := userId]>
       (<["gamertag"%string := gamerTag]> ∅)).

Inductive AuthTokenResult :=
| AuthTokenError
| AuthToken (data : gmap string string) (capabilities : OnlineCapabilities).

Inductive xbox_live_result (A : Type) :=
| result_ok (payload : A)
| result_err (value : Z) (err_message : string).

#[global] Arguments result_ok {A} payload.
#[global] Arguments result_err {A} value err_message.

Record token_and_signature_result := {
  tk_privileges : wstring;
  tk_gamertag : wstring;
  tk_xbox_user_id : wstring;
  tk_token : wstring
}.

Record TokenRequest := {
  rq_user : xbox_live_user;
  rq_method : wstring;
  rq_url : wstring;
  rq_headers : wstring
}.

Inductive TokenFuture :=
| Resolved (r : AuthTokenResult)
| Awaiting (rq : TokenRequest).

Definition grantPrivilege (capabilities : OnlineCapabilities) (priv : string)
  : OnlineCapabilities :=
  let privNumber := toInteger priv in
  if decide (privNumber = 254) then mkCapabilities true (ugc capabilities)
  else if decide (privNumber = 247) then mkCapabilities (onlinePlay capabilities) true
  else capabilities.

(** The continuation of [get_token_and_signature]: what the promise is
    set to, and what is logged. *)
Definition tokenReceived (result : xbox_live_result token_and_signature_result)
  : AuthTokenResult * list LogEntry :=
  match result with
  | result_err _ msg => (AuthTokenError, [logError [Str msg]])
  | result_ok payload =>
      let privileges := fromUTF16 (tk_privileges payload) in
      let gamerTag := fromUTF16 (tk_gamertag payload) in
      let userId := fromUTF16 (tk_xbox_user_id payload) in
      let token := fromUTF16 (tk_token payload) in
      let capabilities :=
        foldl grantPrivilege (mkCapabilities false false) (split privileges Ascii.Space) in
      (AuthToken (XboxLiveAuthorisationToken gamerTag userId token) capabilities, [])
  end.

Definition getAuthToken (parameters : AuthTokenParameters) (m : XBLManager)
  : Res TokenFuture :=
  if decide (status m = Connected) then
    match xboxLiveContext m with
    | None => Undefined
    | Some ctx =>
        Returns (Awaiting {| rq_user := user ctx;
                             rq_method := getUTF16 (method parameters);
                             rq_url := getUTF16 (url parameters);
                             rq_headers := getUTF16 (headers parameters) |})
    end
  else Returns (Resolved AuthTokenError).

(** The value of the future once the vendor has answered. *)
Definition settle (f : TokenFuture)
    (answer : xbox_live_result token_and_signature_result) : AuthTokenResult :=
  match f with
  | Resolved r => r
  | Awaiting _ => fst (tokenReceived answer)
  end.

(** *** Achievements *)

Record UpdateRequest := {
  up_user : wstring;
  up_id : string_t;
  up_progress : Z
}.

(** The synchronous part of [setAchievementProgress]: the request sent
    to the achievement service, if any. *)
Definition setAchievementProgress (achievementId : string)
    (currentProgress maximumValue : Z) (m : XBLManager)
  : Res (option UpdateRequest) :=
  match xboxUser m, xboxLiveContext m with
  | Some u, Some _ =>
      match progressPercent currentProgress maximumValue with
      | Some progress =>
          Returns (Some {| up_user := xbox_user_id u;
                           up_id := to_string_t achievementId;
                           up_progress := progress |})
      | None => Undefined
      end
  | _, _ => Returns None
  end.

(** Its continuation, run when the service has answered. *)
Definition achievementUpdated (achievementId : string) (progress : Z)
    (result : xbox_live_result unit) (m : XBLManager)
  : XBLManager * list LogEntry :=
  match result with
  | result_err value msg =>
      (m, [logError [Str "Error unlocking achievement '"; Str achievementId;
                     Str "': "; Int value; Str " "; Str msg]])
  | result_ok _ =>
      if decide (progress = 100) then
        (withAchievementStatus m
           (<[to_string_t achievementId := true]> (achievementStatus m)), [])
      else (m, [])
  end.

(** What a call observes of the manager and of the tick counter while
    other threads run: the call starts at instant [0], and every turn of
    its busy-wait looks at the next instant. *)
Record Instant := {
  seen : XBLManager;
  ticks : Z
}.

Definition Timeline := nat → Instant.

(** [while (achievementsStatus == Retrieving && GetTickCount64() < timeout) {}]
    from instant [k] on; the answer is the instant at which the
    condition was found false. *)
Fixpoint spin (fuel : nat) (world : Timeline) (k : nat) (deadline : Z) : option nat :=
  match fuel with
  | O => None
  | S fuel' =>
      if decide (achievementsStatus (seen (world k)) = Retrieving
                 ∧ ticks (world k) < deadline)
      then spin fuel' world (S k) deadline
      else Some k
  end.

Definition cached (m : XBLManager) (achievementId : string) (defaultValue : bool)
  : bool :=
  match achievementStatus m !! to_string_t achievementId with
  | Some unlocked => unlocked
  | None => defaultValue
  end.

Definition tooEarly : LogEntry :=
  logWarning [Str "Trying to get the achievement status before starting the retrieve task!"].

Definition tooSlow : LogEntry :=
  logWarning [Str "Achievements are taking too long to load!"].

Definition isAchievementUnlocked (world : Timeline) (fuel : nat)
    (achievementId : string) (defaultValue : bool) : option (bool * list LogEntry) :=
  let m := seen (world 0%nat) in
  if decide (achievementsStatus m = Uninitialized) then Some (false, [tooEarly])
  else if decide (achievementsStatus m = Retrieving) then
    let deadline := wrap64 (ticks (world 0%nat) + 5000) in
    match spin fuel world 1 deadline with
    | None => None
    | Some k =>
        let m' := seen (world (S k)) in
        if decide (achievementsStatus m' = Retrieving) then Some (false, [tooSlow])
        else Some (cached m' achievementId defaultValue, [])
    end
  else Some (cached m achievementId defaultValue, []).

(** The pages of achievements, as the service hands them out. *)
Inductive achievement_progress_state := unknown | achieved | not_started | in_progress.

#[global] Instance achievement_progress_state_eq_dec :
  EqDecision achievement_progress_state.
Proof. solve_decision. Defined.

Record achievement := {
  ach_id : string_t;
  ach_name : wstring;
  ach_progress_state : achievement_progress_state
}.

Inductive achievements_result :=
| ResultErr (value : Z) (err_message : string)
    (* result.err() *)
| LastPage (items : list achievement)
    (* !has_next() *)
| NextPage (items : list achievement) (next : achievements_result)
    (* has_next(), and get_next(32).get() returns *)
| NextThrows (items : list achievement).
    (* has_next(), and get_next(32).get() throws *)

Record AchievementsRequest := {
  ar_user : wstring;
  ar_title : Z;
  ar_skip : Z;
  ar_max : Z
}.

(** The synchronous part of [retrieveUserAchievementsState]. *)
Definition retrieveUserAchievementsState (m : XBLManager)
  : Res (XBLManager * AchievementsRequest) :=
  let m1 := withAchievementStatus (withAchievementsStatus m Retrieving) ∅ in
  match xboxLiveContext m1, xboxUser m1 with
  | Some ctx, Some u =>
      Returns (m1, {| ar_user := xbox_user_id u; ar_title := title_id ctx;
                      ar_skip := 0; ar_max := 0 |})
  | _, _ => Undefined
  end.

Definition isAchieved (a : achievement) : bool :=
  bool_decide (ach_progress_state a = achieved).

Definition recordAchievement (cache : gmap string_t bool) (a : achievement)
  : gmap string_t bool :=
  <[ach_id a := isAchieved a]> cache.

Definition achievementInfo (a : achievement) : LogEntry :=
  logInfo [Str "Achievement '"; WStr (ach_name a); Str "' (ID '"; WStr (ach_id a);
           Str "'): "; Str (if isAchieved a then "Achieved" else "Locked")].

(** The [for] loop over one page. *)
Definition recordPage (items : list achievement) (m : XBLManager) : XBLManager :=
  withAchievementStatus m (foldl recordAchievement (achievementStatus m) items).

(** The continuation: the [do ... while] over the pages inside the
    [try] block, and the [catch]. *)
Fixpoint achievementsRetrieved (result : achievements_result) (m : XBLManager)
  : Res (XBLManager * list LogEntry) :=
  match result with
  | ResultErr value msg =>
      match xboxUser m with
      | None => Undefined
      | Some u =>
          Returns (withAchievementsStatus m Uninitialized,
                   [logError [Str "Error retrieving achievements for user '";
                              WStr (gamertag u); Str "': "; Int value; Str " ";
                              Str msg]])
      end
  | LastPage items =>
      Returns (withAchievementsStatus (recordPage items m) Ready,
               achievementInfo <$> items)
  | NextPage items next =>
      let* r := achievementsRetrieved next (recordPage items m) in
      Returns (fst r, (achievementInfo <$> items) ++ snd r)
  | NextThrows items =>
      let m1 := withAchievementsStatus (recordPage items m) Uninitialized in
      match xboxUser m1 with
      | None => Undefined
      | Some u =>
          Returns (m1, (achievementInfo <$> items)
                       ++ [logError [Str "Error retrieving achievements for user '";
                                     WStr (gamertag u); Str "'"]])
      end
  end.

(** *** Signing in

    [signIn] is a chain of continuations.  What the vendor answers at
    each point is given by a [SignInAnswers]; the user object is shared
    with the vendor library, which fills it in when a sign-in succeeds,
    so the manager sees [blank] before and [account] after.  The
    continuations are taken to run while the objects they captured are
    alive. *)

Inductive sign_in_status := success | user_interaction_required | user_cancel.

Record SignInAnswers := {
  blank : xbox_live_user;
  account : xbox_live_user;
  appScid : wstring;
  appTitle : Z;
  silently : xbox_live_result sign_in_status;
  interactively : xbox_live_result sign_in_status;
  storage : GameSaveProviderGetResult
}.

(** What a continuation leaves behind besides the manager's state. *)
Inductive Effect :=
| Logged (entry : LogEntry)
| SignOutHandlerAdded
| AchievementsRequested (rq : AchievementsRequest).

Definition withUser (m : XBLManager) (u : option xbox_live_user) : XBLManager :=
  mkManager u (xboxLiveContext m) (gameSaveProvider m) (status m)
            (achievementsStatus m) (achievementStatus m) (saveStorage m).

Definition withContext (m : XBLManager) (c : option xbox_live_context) : XBLManager :=
  mkManager (xboxUser m) c (gameSaveProvider m) (status m)
            (achievementsStatus m) (achievementStatus m) (saveStorage m).

Definition getPlayerName (m : XBLManager) : string :=
  match xboxUser m with
  | Some u => fromUTF16 (gamertag u)
  | None => ""%string
  end.

(** The lambda [onLoggedIn]. *)
Definition onLoggedIn (a : SignInAnswers) (m : XBLManager)
  : Res (XBLManager * list Effect) :=
  let m1 := withContext (withUser m (Some (account a)))
              (Some {| user := account a; scid := appScid a; title_id := appTitle a |}) in
  let* r := retrieveUserAchievementsState m1 in
  let* m2 := getConnectedStorage (storage a) (fst r) in
  Returns (m2, [SignOutHandlerAdded; AchievementsRequested (snd r)]).

(** The continuation of [signin], the interactive sign-in. *)
Definition signedInInteractively (a : SignInAnswers) (m : XBLManager)
  : Res (XBLManager * list Effect) :=
  match interactively a with
  | result_err _ msg =>
      Returns (m, [Logged (logError [Str "Error signing in to Xbox live: "; Str msg])])
  | result_ok success => onLoggedIn a m
  | result_ok _ => Returns (withStatus m Disconnected, [])
  end.

(** The continuation of [signin_silently]. *)
Definition signedInSilently (a : SignInAnswers) (m : XBLManager)
  : Res (XBLManager * list Effect) :=
  match silently a with
  | result_err _ msg =>
      Returns (withStatus m Disconnected,
               [Logged (logError [Str "Error signing in to Xbox Live: "; Str msg])])
  | result_ok success => onLoggedIn a m
  | result_ok user_interaction_required =>
      match xboxUser m with
      | None => Undefined
      | Some _ => signedInInteractively a m
      end
  | result_ok _ => Returns (withStatus m Disconnected, [])
  end.

Definition signIn (a : SignInAnswers) (m : XBLManager)
  : Res (XBLManager * list Effect) :=
  signedInSilently a (withUser (withStatus m Connecting) (Some (blank a))).

(** *** The life of a manager

    The calls and continuations that change a manager and its save
    containers, as events on a world.  [Touch] is the readiness test
    that opens every save operation, made on a registered object. *)

Inductive Event :=
| SignIn (a : SignInAnswers)
| SignOut
| Reconnect (result : GameSaveProviderGetResult)
| GetContainer (name : string)
| Touch (name : string)
| AchievementsArrive (result : achievements_result)
| ProgressAnswered (achievementId : string) (progress : Z) (result : xbox_live_result unit)
| DeInit.

Definition touch (name : string) (w : World) : Res World :=
  match saveStorage (manager w) !! name with
  | None => Returns w
  | Some a =>
      match heap w !! a with
      | None => Undefined
      | Some s =>
          let* r := isReady (manager w) s in
          Returns (mkWorld (manager w) (<[a := snd r]> (heap w)))
      end
  end.

Definition perform (e : Event) (w : World) : Res World :=
  match e with
  | SignIn a =>
      let* r := signIn a (manager w) in Returns (mkWorld (fst r) (heap w))
  | SignOut => Returns (mkWorld (signOutCompleted (manager w)) (heap w))
  | Reconnect result => recreateCloudSaveContainer result w
  | GetContainer name =>
      let* r := getSaveContainer name w in Returns (snd r)
  | Touch name => touch name w
  | AchievementsArrive result =>
      let* r := achievementsRetrieved result (manager w) in
      Returns (mkWorld (fst r) (heap w))
  | ProgressAnswered achievementId progress result =>
      Returns (mkWorld (fst (achievementUpdated achievementId progress result (manager w)))
                       (heap w))
  | DeInit => Returns (mkWorld (deInit (manager w)) (heap w))
  end.

Fixpoint performAll (events : list Event) (w : World) : Res World :=
  match events with
  | [] => Returns w
  | e :: rest => let* w' := perform e w in performAll rest w'
  end.

End Model.

(** ** Vocabulary of the statements *)

Section Vocabulary.

Context `{plat : Platform}.

(** The manager never reports [Connected] without a provider:
    [getConnectedStorage] stores the provider before it raises the
    status, and everything that drops the provider lowers the status. *)
Definition providerReady (m : XBLManager) : Prop :=
  status m = Connected → is_Some (gameSaveProvider m).

(** The handle [isReady] leaves behind when the manager is connected:
    the one already there, or a new one from the current provider. *)
Definition established (m : XBLManager) (s : XBLSaveData) : option GameSaveContainer :=
  match gameSaveContainer s with
  | Some c => Some c
  | None => (λ p, CreateContainer p (getUTF16 (containerName s))) <$> gameSaveProvider m
  end.

(** The registry is sound when every entry points into the heap and no
    two names share an object. *)
Definition registrySound (w : World) : Prop :=
  (∀ name a, saveStorage (manager w) !! name = Some a → (a < length (heap w))%nat)
  ∧ (∀ n1 n2 a, saveStorage (manager w) !! n1 = Some a →
                saveStorage (manager w) !! n2 = Some a → n1 = n2).

(** A world as the manager's constructor leaves it: no entries, no
    objects. *)
Definition emptyWorld (m : XBLManager) : World :=
  mkWorld (withSaveStorage m ∅) [].

(** A run of calls to [getSaveContainer], one per name, each on the
    world the previous one left. *)
Fixpoint getSaveContainers (names : list string) (w : World) : Res (list nat * World) :=
  match names with
  | [] => Returns ([], w)
  | name :: rest =>
      let* r := getSaveContainer name w in
      let* rs := getSaveContainers rest (snd r) in
      Returns (fst r :: fst rs, snd rs)
  end.

(** The object [s] with a new handle made by provider [p]. *)
Definition recreatedFrom (p : GameSaveProvider) (s : XBLSaveData) : XBLSaveData :=
  setContainer s (Some (CreateContainer p (getUTF16 (containerName s)))).

(** What recreating the containers means for a world [w] and its
    successor [w']: there is a provider, and every registered object
    has a new handle made by it. *)
Definition allRecreated (w w' : World) : Prop :=
  ∃ p, gameSaveProvider (manager w') = Some p
       ∧ ∀ name a, saveStorage (manager w) !! name = Some a →
                   ∃ s, heap w !! a = Some s
                        ∧ heap w' !! a = Some (recreatedFrom p s).

(** The achievements of the pages that the continuation gets to see,
    in the order it sees them, and whether it sees all pages: it does
    unless a result reports an error or fetching a page throws. *)
Fixpoint received (result : achievements_result) : list achievement :=
  match result with
  | ResultErr _ _ => []
  | LastPage items => items
  | NextPage items next => items ++ received next
  | NextThrows items => items
  end.

Fixpoint complete (result : achievements_result) : bool :=
  match result with
  | ResultErr _ _ => false
  | LastPage _ => true
  | NextPage _ next => complete next
  | NextThrows _ => false
  end.

(** The busy-wait of [isAchievementUnlocked] goes on at instant [k]. *)
Definition waiting (world : Timeline) (deadline : Z) (k : nat) : Prop :=
  achievementsStatus (seen (world k)) = Retrieving ∧ ticks (world k) < deadline.

(** The store as the write of [setData] leaves it. *)
Definition afterSubmit (s : XBLSaveData) (wpath : string) (wdata : Bytes) (cl : Cloud)
  : Cloud :=
  match gameSaveContainer s with
  | Some c => snd (SubmitUpdatesAsync cl c [(getUTF16 wpath, wdata)] [])
  | None => cl
  end.

(** What holds of every configuration that the write job and the read
    job can reach from [inFlight s cl t], where [k] is the handle of
    [s]. *)
Record Inv (s : XBLSaveData) (k : GameSaveContainer) (cl : Cloud) (t : Z)
    (wpath : string) (wdata : Bytes) (rpath : string) (c : Config) : Prop := {
  inv_handle : gameSaveContainer (obj c) = Some k;
  inv_flag : isSaving (obj c) = match writer c with WDone => false | _ => true end;
  inv_cloud :
    cloud c = match writer c with
              | WSubmit => cl
              | _ => afterSubmit s wpath wdata cl
              end;
  inv_clock : t ≤ now c;
  inv_warned :
    tooLong ∈ logged c →
    ∃ t0, t ≤ t0 ∧ timeout c = wrap64 (t0 + 3000) ∧ timeout c ≤ now c;
  inv_reader :
    match reader c with
    | RTest | RDeadline => tooLong ∉ logged c
    | RSpinFlag | RSpinClock =>
        (tooLong ∉ logged c) ∧ (∃ t0, t ≤ t0 ∧ timeout c = wrap64 (t0 + 3000))
    | RRecheck =>
        (tooLong ∉ logged c)
        ∧ (∃ t0, t ≤ t0 ∧ timeout c = wrap64 (t0 + 3000))
        ∧ (isSaving (obj c) = true → timeout c ≤ now c)
    | RFetch => tooLong ∉ logged c → writer c = WDone
    | RDone bytes =>
        tooLong ∉ logged c →
        writer c = WDone
        ∧ ∃ lg, readBlob s rpath (afterSubmit s wpath wdata cl) = Returns (bytes, lg)
    end
}.

(** Some write job of the pool has run to its end. *)
Definition finished (p : Pool) : Prop :=
  ∃ j, j ∈ jobs p ∧ jobPc j = WDone.

(** The reader fixed its deadline when the tick counter stood at some
    [t0] between [t] and the present. *)
Definition deadlineSet (t : Z) (p : Pool) : Prop :=
  ∃ t0, t ≤ t0 ≤ clock p ∧ limit p = wrap64 (t0 + 3000).

(** The reader alone, from [p], ends its read within [n] steps of its
    own, having read the store as it stands in [p] and added [extra] and
    the log of the read to the journal. *)
Definition endsWithin (m : XBLManager) (rpath : string)
    (n : nat) (extra : list LogEntry) (p : Pool) : Prop :=
  ∃ n' p' bytes lg,
    (n' ≤ n)%nat
    ∧ play m rpath (replicate n' ReadStep) p = Some p'
    ∧ reading p' = RDone bytes
    ∧ readBlob (shared p) rpath (store p) = Returns (bytes, lg)
    ∧ journal p' = journal p ++ extra ++ lg.

(** What holds of every pool that the jobs, the reader and further calls
    of [setData] can reach from [writeInFlight s cl t path data], where
    [k] is the handle of [s]. *)
Record PoolInv (s : XBLSaveData) (k : GameSaveContainer) (cl : Cloud) (t : Z)
    (path : string) (data : Bytes) (rpath : string) (p : Pool) : Prop := {
  pool_handle : gameSaveContainer (shared p) = Some k;
  pool_queued : jobs p ≠ [];
  pool_flag : isSaving (shared p) = false → finished p;
  pool_alone :
    ∀ j, jobs p = [j] →
      jobPath j = path ∧ jobData j = data
      ∧ isSaving (shared p) = match jobPc j with WDone => false | _ => true end
      ∧ store p = match jobPc j with
                  | WSubmit => cl
                  | _ => afterSubmit s path data cl
                  end;
  pool_clock : t ≤ clock p;
  pool_warned :
    tooLong ∈ journal p →
    deadlineSet t p ∧ (limit p ≤ clock p ∨ (2 ≤ length (jobs p))%nat);
  pool_reader :
    match reading p with
    | RTest | RDeadline => tooLong ∉ journal p
    | RSpinFlag | RSpinClock => (tooLong ∉ journal p) ∧ deadlineSet t p
    | RRecheck =>
        (tooLong ∉ journal p) ∧ deadlineSet t p
        ∧ (isSaving (shared p) = true →
           limit p ≤ clock p ∨ (2 ≤ length (jobs p))%nat)
    | RFetch => tooLong ∉ journal p → finished p
    | RDone bytes =>
        tooLong ∉ journal p →
        finished p
        ∧ ∀ j, jobs p = [j] →
            ∃ lg, readBlob s rpath (afterSubmit s path data cl) = Returns (bytes, lg)
    end
}.

(** Two things a store may be relied on for: a blob that was accepted
    is there to be read, and a blob whose deletion was accepted is
    gone. *)
Definition keepsUpdates : Prop :=
  ∀ cl c key data,
    let r := SubmitUpdatesAsync cl c [(key, data)] [] in
    fst r = Ok →
    fst (GetAsync (snd r) c [key]) = Ok
    ∧ snd (GetAsync (snd r) c [key]) !! key = Some data.

Definition forgetsDeleted : Prop :=
  ∀ cl c key,
    let r := SubmitUpdatesAsync cl c [] [key] in
    fst r = Ok →
    fst (GetAsync (snd r) c [key]) = Ok
    ∧ snd (GetAsync (snd r) c [key]) !! key = None.

(** A sign-in that ends in [onLoggedIn]. *)
Definition loggedIn (a : SignInAnswers) : Prop :=
  silently a = result_ok success
  ∨ (silently a = result_ok user_interaction_required
     ∧ interactively a = result_ok success).

(** While the manager is connected it has a user and a context. *)
Definition sessionReady (m : XBLManager) : Prop :=
  status m = Connected → is_Some (xboxUser m) ∧ is_Some (xboxLiveContext m).

(** Every handle was made for the container name of the object that
    holds it, and no object has an empty container name. *)
Definition handlesOwn (w : World) : Prop :=
  ∀ a s, heap w !! a = Some s →
    containerName s ≠ ""%string
    ∧ ∀ c, gameSaveContainer s = Some c →
           ∃ p, c = CreateContainer p (getUTF16 (containerName s)).

Definition wellFormed (w : World) : Prop :=
  registrySound w ∧ providerReady (manager w) ∧ sessionReady (manager w)
  ∧ handlesOwn w.

(** Two managers that differ at most in their achievement fields. *)
Definition sameConnection (m m' : XBLManager) : Prop :=
  xboxUser m' = xboxUser m
  ∧ xboxLiveContext m' = xboxLiveContext m
  ∧ gameSaveProvider m' = gameSaveProvider m
  ∧ status m' = status m
  ∧ saveStorage m' = saveStorage m.

End Vocabulary.

(** ** A simulated platform

    A small stand-in for the vendor services, used to run the model on
    concrete inputs: strings are narrow, handles are numbers, and the
    store is a map from container and blob name to bytes that accepts
    every request. *)

Module Sim.

Definition narrowToWide (s : string) : wstring :=
  (λ c, Z.of_N (Ascii.N_of_ascii c)) <$> String.list_ascii_of_string s.

Definition wideToNarrow (w : wstring) : string :=
  String.string_of_list_ascii ((λ z, Ascii.ascii_of_N (Z.to_N z)) <$> w).

Fixpoint splitAt (sep : Ascii.ascii) (s : string) (word : string) : list string :=
  match s with
  | EmptyString => [String.rev word]
  | String c s' =>
      if Ascii.eqb c sep then String.rev word :: splitAt sep s' EmptyString
      else splitAt sep s' (String c word)
  end.

Definition splitOn (s : string) (sep : Ascii.ascii) : list string :=
  splitAt sep s EmptyString.

Definition digit (c : Ascii.ascii) : Z := Z.of_N (Ascii.N_of_ascii c) - 48.

Definition decimal (s : string) : Z :=
  foldl (λ n c, 10 * n + digit c) 0 (String.list_ascii_of_string s).

Definition Store := gmap (wstring * wstring) Bytes.

Definition fetch (cl : Store) (c : nat * wstring) (keys : list wstring)
  : GameSaveErrorStatus * gmap wstring Bytes :=
  (Ok, foldl (λ view k, match cl !! (c.2, k) with
                        | Some b => <[k := b]> view
                        | None => view
                        end) ∅ keys).

Definition submit (cl : Store) (c : nat * wstring)
    (updates : list (wstring * Bytes)) (deletes : list wstring)
  : GameSaveErrorStatus * Store :=
  (Ok, foldl (λ st k, delete (c.2, k) st)
             (foldl (λ st u, <[(c.2, u.1) := u.2]> st) cl updates) deletes).

Definition blobInfo (cl : Store) (c : nat * wstring) (prefix : wstring)
  : GameSaveErrorStatus * list wstring :=
  (Ok, (λ e, e.1.2) <$>
         filter (λ e, e.1.1 = c.2 ∧ prefix `prefix_of` e.1.2) (map_to_list cl)).

#[local] Instance platform : Platform :=
  {| getUTF16 := narrowToWide;
     fromUTF16 := wideToNarrow;
     split := splitOn;
     toInteger := decimal;
     GameSaveProvider := nat;
     GameSaveContainer := nat * wstring;
     CreateContainer := λ p name, (p, name);
     Cloud := Store;
     GetAsync := fetch;
     SubmitUpdatesAsync := submit;
     GetBlobInfoAsync := blobInfo |}.

Definition player : xbox_live_user :=
  {| gamertag := getUTF16 "Ada"; xbox_user_id := getUTF16 "2533274" |}.

Definition context : xbox_live_context :=
  {| user := player; scid := getUTF16 "scid-0"; title_id := 7 |}.

(** Signed in and connected, nothing cached, nothing registered. *)
Definition online : XBLManager :=
  mkManager (Some player) (Some context) (Some 1%nat) Connected Ready ∅ ∅.

(** Signed out. *)
Definition offline : XBLManager :=
  mkManager None None None Disconnected Uninitialized ∅ ∅.

Definition handle (p : nat) (name : string) : GameSaveContainer :=
  (p, narrowToWide name).

Definition slot : XBLSaveData :=
  mkSaveData "save" (Some (handle 1 "save")) false.

Definition unopened (name : string) : XBLSaveData :=
  mkSaveData name None false.

(** One container registered under "slot", the manager connected. *)
Definition saved : World :=
  mkWorld (withSaveStorage online {[ "slot"%string := 0%nat ]}) [slot].

(** An answer of [GetForUserAsync] that grants a provider, and one that
    refuses. *)
Definition granted : GameSaveProviderGetResult :=
  {| getStatusOf := Ok; getValueOf := 2%nat |}.

Definition refused : GameSaveProviderGetResult :=
  {| getStatusOf := NoAccess; getValueOf := 0%nat |}.

(** Two pages of achievements, and a first page whose successor cannot
    be fetched. *)
Definition medal (id : string) (state : achievement_progress_state) : achievement :=
  {| ach_id := narrowToWide id; ach_name := narrowToWide id;
     ach_progress_state := state |}.

Definition twoPages : achievements_result :=
  NextPage [medal "1" achieved; medal "2" in_progress] (LastPage [medal "3" not_started]).

Definition brokenPages : achievements_result :=
  NextThrows [medal "1" achieved].

(** A second passes between instants.  In [stalled] the retrieval
    never finishes; in [served] it finishes before the third instant and
    has found achievement "1" unlocked. *)
Definition retrieving : XBLManager :=
  mkManager (Some player) (Some context) (Some 1%nat) Connected Retrieving ∅ ∅.

Definition retrieved : XBLManager :=
  mkManager (Some player) (Some context) (Some 1%nat) Connected Ready
            {[ to_string_t "1" := true ]} ∅.

Definition stalled : Timeline :=
  λ k, {| seen := retrieving; ticks := 1000 * Z.of_nat k |}.

Definition served : Timeline :=
  λ k, {| seen := if decide (k < 3)%nat then retrieving else retrieved;
          ticks := 1000 * Z.of_nat k |}.

(** Two payloads, and four schedules of the pool: the reader gives up
    waiting before the write job has run; the write job finishes first;
    a second write is queued and the first one to finish releases the
    reader; the flag is raised again between the reader's loop and the
    test that follows it. *)
Definition payload : Bytes := [Byte.x01; Byte.x02].

Definition later : Bytes := [Byte.x03].

Definition impatient : list Move :=
  [ReadStep; ReadStep; Elapse 3000; ReadStep; ReadStep; ReadStep; ReadStep].

Definition patient : list Move :=
  [ReadStep; ReadStep; Elapse 20; ReadStep; ReadStep; JobStep 0; Elapse 20;
   ReadStep; JobStep 0; ReadStep; ReadStep; ReadStep; ReadStep].

Definition overtaken : list Move :=
  [ReadStep; ReadStep; CallSetData "blob" later false; JobStep 0; JobStep 0;
   ReadStep; ReadStep; ReadStep].

Definition raisedAgain : list Move :=
  [ReadStep; ReadStep; JobStep 0; JobStep 0; ReadStep;
   CallSetData "blob" later false; ReadStep; ReadStep].

Definition empty : Store := ∅.

Definition kept : Store :=
  <[(narrowToWide "save", narrowToWide "blob") := payload]> empty.

(** Where those schedules end. *)
Definition gaveUp : Pool :=
  mkPool (setSaving slot true) empty 4000 [tooLong]
         [mkJob "blob" payload WSubmit] (RDone []) 4000.

Definition waited : Pool :=
  mkPool slot kept 1040 [] [mkJob "blob" payload WDone] (RDone payload) 4000.

Definition released : Pool :=
  mkPool slot kept 1000 []
         [mkJob "blob" payload WDone; mkJob "blob" later WSubmit]
         (RDone payload) 4000.

Definition warnedEarly : Pool :=
  mkPool (setSaving slot true) kept 1000 [tooLong]
         [mkJob "blob" payload WDone; mkJob "blob" later WSubmit]
         (RDone payload) 4000.

(** Answers to a sign-in: one that succeeds silently and is granted
    storage, and one that asks for interaction and then fails. *)
Definition nobody : xbox_live_user :=
  {| gamertag := []; xbox_user_id := [] |}.

Definition welcome : SignInAnswers :=
  {| blank := nobody; account := player;
     appScid := narrowToWide "scid-0"; appTitle := 7;
     silently := result_ok success;
     interactively := result_ok user_cancel;
     storage := granted |}.

Definition turnedAway : SignInAnswers :=
  {| blank := nobody; account := player;
     appScid := narrowToWide "scid-0"; appTitle := 7;
     silently := result_ok user_interaction_required;
     interactively := result_err 5 "no network";
     storage := granted |}.

(** A session on a manager that starts out signed out: sign in, look a
    container up, test it, sign out; and the world that is left. *)
Definition session : list Event :=
  [SignIn welcome; GetContainer "slot"; Touch "slot"; SignOut].

Definition afterSession : World :=
  mkWorld (mkManager None None None Disconnected Uninitialized ∅
                     {[ "slot"%string := 0%nat ]})
          [mkSaveData "slot" (Some (handle 2 "slot")) false].

End Sim.

(** * Properties *)

Section SaveData.

Context `{plat : Platform}.

Lemma updateContainer_offline m s :
  status m ≠ Connected → updateContainer m s = Returns (setContainer s None).
Proof.
  intros Hst. unfold updateContainer, getStatus.
  destruct (decide (status m = Connected)); [contradiction | reflexivity].
Qed.

Lemma updateContainer_keeps m s c :
  status m = Connected → gameSaveContainer s = Some c →
  updateContainer m s = Returns s.
Proof.
  intros Hst Hc. unfold updateContainer, getStatus.
  destruct (decide (status m = Connected)); [| contradiction].
  now rewrite Hc.
Qed.

Lemma updateContainer_creates m s p :
  status m = Connected → gameSaveContainer s = None →
  gameSaveProvider m = Some p →
  updateContainer m s =
    Returns (setContainer s (Some (CreateContainer p (getUTF16 (containerName s))))).
Proof.
  intros Hst Hc Hp. unfold updateContainer, getStatus, createFromProvider, getProvider.
  destruct (decide (status m = Connected)); [| contradiction].
  now rewrite Hc, Hp.
Qed.

Lemma updateContainer_name m s s' :
  updateContainer m s = Returns s' → containerName s' = containerName s.
Proof.
  unfold updateContainer, createFromProvider.
  destruct (decide _); [| now intros [= <-]].
  destruct (gameSaveContainer s); [now intros [= <-] |].
  destruct (getProvider m); simpl; [now intros [= <-] | discriminate].
Qed.

Lemma isReady_offline m s :
  status m ≠ Connected → isReady m s = Returns (false, setContainer s None).
Proof.
  intros Hst. unfold isReady. now rewrite updateContainer_offline.
Qed.

Lemma isReady_online m s c :
  status m = Connected → established m s = Some c →
  isReady m s = Returns (true, setContainer s (Some c)).
Proof.
  intros Hst He. unfold isReady, established in *.
  destruct (gameSaveContainer s) as [c'|] eqn:Hc.
  - injection He as <-. rewrite (updateContainer_keeps m s c' Hst Hc). simpl.
    rewrite Hc. destruct s; simpl in *; now subst.
  - destruct (gameSaveProvider m) as [p|] eqn:Hp; [| discriminate].
    injection He as <-. now rewrite (updateContainer_creates m s p Hst Hc Hp).
Qed.

Lemma newSaveData_returns (m : XBLManager) (name : string) :
  providerReady m →
  ∃ s, newSaveData m name = Returns s
       ∧ (name = ""%string → containerName s = "save"%string)
       ∧ (name ≠ ""%string → containerName s = name).
Proof.
  intros Hready. unfold newSaveData.
  set (s0 := {| containerName := normalizeName name;
                gameSaveContainer := None; isSaving := false |}).
  assert (Hname : (name = ""%string → normalizeName name = "save"%string)
                  ∧ (name ≠ ""%string → normalizeName name = name)).
  { unfold normalizeName. destruct (decide (name = ""%string)); split; congruence. }
  destruct (decide (status m = Connected)) as [Hc | Hc].
  - destruct (Hready Hc) as [p Hp].
    rewrite (updateContainer_creates m s0 p Hc eq_refl Hp).
    eexists; split; [reflexivity | exact Hname].
  - rewrite (updateContainer_offline m s0 Hc).
    eexists; split; [reflexivity | exact Hname].
Qed.

(** C9.  Constructing a save-data object with the empty name stores the
    container name "save"; constructing it with any other name stores
    that name unchanged.  (The constructor returns whenever the manager
    has a provider while connected.) *)
Theorem C9_container_name_defaults_to_save (m : XBLManager) (name : string) :
  providerReady m →
  ∃ s, newSaveData m name = Returns s
       ∧ (name = ""%string → containerName s = "save"%string)
       ∧ (name ≠ ""%string → containerName s = name).
Proof. apply newSaveData_returns. Qed.

(** C1.  While the manager is not connected, [getData], [setData],
    [removeData] and [enumerate] all throw "Container is not ready yet!"
    (the handle is dropped and [isReady] answers false); while it is
    connected and a handle is there or can be made from the provider,
    none of them throws: each queues its job with the handle in place. *)
Theorem C1_save_operations_follow_connection
    (m : XBLManager) (s : XBLSaveData)
    (path root : string) (data : Bytes) (commit : bool) :
  (status m ≠ Connected →
     isReady m s = Returns (false, setContainer s None)
     ∧ getData m s path = Throws notReady
     ∧ setData m s path data commit = Throws notReady
     ∧ removeData m s path = Throws notReady
     ∧ enumerate m s root = Throws notReady)
  ∧ (∀ c, status m = Connected → established m s = Some c →
     let s' := setContainer s (Some c) in
     isReady m s = Returns (true, s')
     ∧ getData m s path = Returns (s', GetDataJob path)
     ∧ setData m s path data commit = Returns (setSaving s' true, SetDataJob path data)
     ∧ removeData m s path = Returns (s', RemoveDataJob path)
     ∧ enumerate m s root = Returns (s', EnumerateJob root)).
Proof.
  split.
  - intros Hst. pose proof (isReady_offline m s Hst) as Hr.
    unfold getData, setData, removeData, enumerate, whenReady.
    rewrite Hr. simpl. repeat split; reflexivity.
  - intros c Hst He s'. pose proof (isReady_online m s c Hst He) as Hr.
    unfold getData, setData, removeData, enumerate, whenReady.
    rewrite Hr. simpl. repeat split; reflexivity.
Qed.

End SaveData.

Lemma C9_witness :
  providerReady Sim.online
  ∧ ∃ s, newSaveData Sim.online "" = Returns s
         ∧ (""%string = ""%string → containerName s = "save"%string)
         ∧ (""%string ≠ ""%string → containerName s = ""%string).
Proof.
  assert (Hr : providerReady Sim.online) by (intros _; eexists; reflexivity).
  split; [exact Hr | exact (C9_container_name_defaults_to_save Sim.online "" Hr)].
Defined.

Lemma C1_witness :
  (status Sim.offline ≠ Connected
   ∧ getData Sim.offline Sim.slot "a" = Throws notReady)
  ∧ (status Sim.online = Connected
     ∧ established Sim.online (Sim.unopened "x")
       = Some (Sim.handle 1 "x")
     ∧ getData Sim.online (Sim.unopened "x") "a"
       = Returns (mkSaveData "x" (Some (Sim.handle 1 "x")) false,
                  GetDataJob "a")).
Proof.
  split.
  - assert (Hoff : status Sim.offline ≠ Connected) by discriminate.
    split; [exact Hoff |].
    exact (proj1 (proj2 (proj1
      (C1_save_operations_follow_connection Sim.offline Sim.slot "a" "" [] false)
      Hoff))).
  - assert (Hon : status Sim.online = Connected) by reflexivity.
    assert (He : established Sim.online (Sim.unopened "x")
                 = Some (Sim.handle 1 "x")) by reflexivity.
    split; [exact Hon |]. split; [exact He |].
    exact (proj1 (proj2 (proj2
      (C1_save_operations_follow_connection
         Sim.online (Sim.unopened "x") "a" "" [] false)
      _ Hon He))).
Defined.


Section Session.

Context `{plat : Platform}.

(** C8.  When the sign-out-completed handler runs, the user handle, the
    live-services context and the storage provider are reset, the
    connection status becomes Disconnected, the achievements status
    becomes Uninitialized and the achievement cache is emptied; the
    registry of save containers is left as it is. *)
Theorem C8_sign_out_resets_session (m : XBLManager) :
  xboxUser (signOutCompleted m) = None
  ∧ xboxLiveContext (signOutCompleted m) = None
  ∧ gameSaveProvider (signOutCompleted m) = None
  ∧ status (signOutCompleted m) = Disconnected
  ∧ achievementsStatus (signOutCompleted m) = Uninitialized
  ∧ achievementStatus (signOutCompleted m) = ∅
  ∧ saveStorage (signOutCompleted m) = saveStorage m.
Proof. repeat split. Qed.

(** After the handler every manager satisfies [providerReady], and the
    gated operations are closed. *)
Lemma signOutCompleted_ready m : providerReady (signOutCompleted m).
Proof. intros Hc. discriminate Hc. Qed.

Lemma signOutCompleted_closes m s path :
  getData (signOutCompleted m) s path = Throws notReady
  ∧ getAuthToken {| method := ""; url := ""; headers := "" |} (signOutCompleted m)
    = Returns (Resolved AuthTokenError).
Proof. split; reflexivity. Qed.

Lemma grantPrivilege_onlinePlay caps privs :
  onlinePlay (foldl grantPrivilege caps privs)
  = onlinePlay caps || bool_decide (254 ∈ toInteger <$> privs).
Proof.
  revert caps. induction privs as [| p privs IH]; intros caps; cbn [foldl].
  - rewrite fmap_nil, bool_decide_eq_false_2; [now rewrite orb_false_r | apply not_elem_of_nil].
  - rewrite fmap_cons, IH. unfold grantPrivilege.
    destruct (decide (toInteger p = 254)) as [E | E]; simpl.
    + rewrite (bool_decide_eq_true_2 (254 ∈ toInteger p :: _));
        [now rewrite orb_true_r | rewrite E; apply list_elem_of_here].
    + assert (Hiff : bool_decide (254 ∈ toInteger p :: (toInteger <$> privs))
                     = bool_decide (254 ∈ toInteger <$> privs)).
      { apply bool_decide_ext. rewrite elem_of_cons. intuition congruence. }
      rewrite Hiff. now destruct (decide (toInteger p = 247)).
Qed.

Lemma grantPrivilege_ugc caps privs :
  ugc (foldl grantPrivilege caps privs)
  = ugc caps || bool_decide (247 ∈ toInteger <$> privs).
Proof.
  revert caps. induction privs as [| p privs IH]; intros caps; cbn [foldl].
  - rewrite fmap_nil, bool_decide_eq_false_2; [now rewrite orb_false_r | apply not_elem_of_nil].
  - rewrite fmap_cons, IH. unfold grantPrivilege.
    destruct (decide (toInteger p = 254)) as [E | E]; simpl.
    + assert (Hiff : bool_decide (247 ∈ toInteger p :: (toInteger <$> privs))
                     = bool_decide (247 ∈ toInteger <$> privs)).
      { apply bool_decide_ext. rewrite elem_of_cons. intuition congruence. }
      now rewrite Hiff.
    + destruct (decide (toInteger p = 247)) as [E' | E']; simpl.
      * rewrite (bool_decide_eq_true_2 (247 ∈ toInteger p :: _));
          [now rewrite orb_true_r | rewrite E'; apply list_elem_of_here].
      * assert (Hiff : bool_decide (247 ∈ toInteger p :: (toInteger <$> privs))
                       = bool_decide (247 ∈ toInteger <$> privs)).
        { apply bool_decide_ext. rewrite elem_of_cons. intuition congruence. }
        now rewrite Hiff.
Qed.

(** C5.  [getAuthToken] answers with a future already resolved to Error
    whenever the status is not Connected, and sends no request then;
    when the status is Connected it sends the token request for the
    given parameters, and the future resolves to Error if the vendor
    reports an error and to a token with its capabilities otherwise. *)
Theorem C5_token_follows_connection
    (parameters : AuthTokenParameters) (m : XBLManager) :
  (status m ≠ Connected →
     getAuthToken parameters m = Returns (Resolved AuthTokenError))
  ∧ (∀ ctx, status m = Connected → xboxLiveContext m = Some ctx →
     let rq := {| rq_user := user ctx;
                  rq_method := getUTF16 (method parameters);
                  rq_url := getUTF16 (url parameters);
                  rq_headers := getUTF16 (headers parameters) |} in
     getAuthToken parameters m = Returns (Awaiting rq)
     ∧ (∀ value msg, settle (Awaiting rq) (result_err value msg) = AuthTokenError)
     ∧ (∀ payload, ∃ capabilities,
          settle (Awaiting rq) (result_ok payload)
          = AuthToken (XboxLiveAuthorisationToken
                         (fromUTF16 (tk_gamertag payload))
                         (fromUTF16 (tk_xbox_user_id payload))
                         (fromUTF16 (tk_token payload)))
                      capabilities
          ∧ let privs := split (fromUTF16 (tk_privileges payload)) Ascii.Space in
            onlinePlay capabilities = bool_decide (254 ∈ toInteger <$> privs)
            ∧ ugc capabilities = bool_decide (247 ∈ toInteger <$> privs))).
Proof.
  split.
  - intros Hst. unfold getAuthToken.
    destruct (decide (status m = Connected)); [contradiction | reflexivity].
  - intros ctx Hst Hctx rq. unfold getAuthToken.
    destruct (decide (status m = Connected)); [| contradiction].
    rewrite Hctx. split; [reflexivity |]. split; [reflexivity |].
    intros payload. eexists. split; [reflexivity |].
    simpl. now rewrite grantPrivilege_onlinePlay, grantPrivilege_ugc.
Qed.

End Session.

Lemma C5_witness :
  (status Sim.offline ≠ Connected
   ∧ getAuthToken {| method := "GET"; url := "https://x"; headers := "" |} Sim.offline
     = Returns (Resolved AuthTokenError))
  ∧ (status Sim.online = Connected
     ∧ xboxLiveContext Sim.online = Some Sim.context
     ∧ getAuthToken {| method := "GET"; url := "https://x"; headers := "" |} Sim.online
       = Returns (Awaiting {| rq_user := Sim.player;
                              rq_method := Sim.narrowToWide "GET";
                              rq_url := Sim.narrowToWide "https://x";
                              rq_headers := Sim.narrowToWide "" |})).
Proof.
  pose (parameters := {| method := "GET"; url := "https://x"; headers := "" |}).
  split.
  - assert (Hoff : status Sim.offline ≠ Connected) by discriminate.
    split; [exact Hoff |].
    exact (proj1 (C5_token_follows_connection parameters Sim.offline) Hoff).
  - assert (Hon : status Sim.online = Connected) by reflexivity.
    assert (Hctx : xboxLiveContext Sim.online = Some Sim.context) by reflexivity.
    split; [exact Hon |]. split; [exact Hctx |].
    exact (proj1 (proj2 (C5_token_follows_connection parameters Sim.online)
                    Sim.context Hon Hctx)).
Defined.

Section Registry.

Context `{plat : Platform}.

Lemma emptyWorld_sound m : registrySound (emptyWorld m).
Proof.
  split; simpl.
  - intros name a Hl. now rewrite lookup_empty in Hl.
  - intros n1 n2 a Hl. now rewrite lookup_empty in Hl.
Qed.

Lemma getSaveContainer_known name a w :
  saveStorage (manager w) !! name = Some a →
  getSaveContainer name w = Returns (a, w).
Proof. intros Hl. unfold getSaveContainer. now rewrite Hl. Qed.

Lemma getSaveContainer_fresh name w :
  providerReady (manager w) →
  saveStorage (manager w) !! name = None →
  ∃ s, newSaveData (manager w) name = Returns s
       ∧ getSaveContainer name w
         = Returns (length (heap w),
                    mkWorld (withSaveStorage (manager w)
                               (<[name := length (heap w)]> (saveStorage (manager w))))
                            (heap w ++ [s])).
Proof.
  intros Hready Hl.
  destruct (newSaveData_returns (manager w) name Hready) as (s & Hs & _).
  exists s. split; [exact Hs |].
  unfold getSaveContainer. now rewrite Hl, Hs.
Qed.

Lemma getSaveContainer_returns name w :
  providerReady (manager w) →
  ∃ a w', getSaveContainer name w = Returns (a, w')
          ∧ saveStorage (manager w') !! name = Some a
          ∧ providerReady (manager w').
Proof.
  intros Hready.
  destruct (saveStorage (manager w) !! name) as [a |] eqn:Hl.
  - exists a, w. now rewrite (getSaveContainer_known name a w Hl).
  - destruct (getSaveContainer_fresh name w Hready Hl) as (s & _ & Hg).
    eexists _, _. split; [exact Hg |]. split; [| exact Hready].
    simpl. apply lookup_insert_eq.
Qed.

(** A call keeps the registry sound, keeps every earlier entry, and
    keeps every earlier object where it was. *)
Lemma getSaveContainer_sound name w a w' :
  registrySound w →
  getSaveContainer name w = Returns (a, w') →
  registrySound w'
  ∧ (∀ n b, saveStorage (manager w) !! n = Some b →
            saveStorage (manager w') !! n = Some b)
  ∧ (∀ b s, heap w !! b = Some s → heap w' !! b = Some s).
Proof.
  intros [Hbound Hinj]. unfold getSaveContainer.
  destruct (saveStorage (manager w) !! name) as [a0 |] eqn:Hl.
  - intros [= <- <-]. repeat split; auto.
  - destruct (newSaveData (manager w) name) as [s | |]; simpl; try discriminate.
    intros [= <- <-]. repeat split; simpl.
    + intros n b. rewrite length_app. simpl. rewrite lookup_insert.
      destruct (decide (name = n)); [intros [= <-]; lia |].
      intros Hn. specialize (Hbound n b Hn). lia.
    + intros n1 n2 b. rewrite !lookup_insert.
      destruct (decide (name = n1)), (decide (name = n2)); try congruence.
      * intros [= <-] Hn. specialize (Hbound n2 _ Hn). lia.
      * intros Hn [= <-]. specialize (Hbound n1 _ Hn). lia.
      * apply Hinj.
    + intros n b Hn. rewrite lookup_insert_ne; [exact Hn | congruence].
    + intros b s0 Hb. now apply lookup_app_l_Some.
Qed.

(** C4.  The registry memoizes by name.  A call to [getSaveContainer]
    returns an object stored under the name.  If the name was not
    registered, the object is new: it is constructed for that name,
    placed at a fresh address, and entered in the registry.  If the
    name was registered, the stored object is returned and nothing
    changes.  Calling again with the same name, at once or after a call
    with another name, returns the same object without creating one;
    a call with another name returns another object. *)
Theorem C4_registry_memoizes_by_name (w : World) (name : string) :
  registrySound w →
  providerReady (manager w) →
  ∃ a w1,
    getSaveContainer name w = Returns (a, w1)
    ∧ saveStorage (manager w1) !! name = Some a
    ∧ is_Some (heap w1 !! a)
    ∧ (saveStorage (manager w) !! name = None →
       ∃ s, newSaveData (manager w) name = Returns s
            ∧ a = length (heap w)
            ∧ heap w1 = heap w ++ [s]
            ∧ saveStorage (manager w1) = <[name := a]> (saveStorage (manager w)))
    ∧ (∀ a0, saveStorage (manager w) !! name = Some a0 → a = a0 ∧ w1 = w)
    ∧ getSaveContainer name w1 = Returns (a, w1)
    ∧ (∀ other, other ≠ name →
       ∃ b w2, getSaveContainer other w1 = Returns (b, w2)
               ∧ b ≠ a
               ∧ heap w2 !! a = heap w1 !! a
               ∧ getSaveContainer name w2 = Returns (a, w2)).
Proof.
  intros Hsound Hready.
  destruct (getSaveContainer_returns name w Hready) as (a & w1 & Hg & Hl1 & Hready1).
  destruct (getSaveContainer_sound name w a w1 Hsound Hg) as (Hsound1 & Hkeep & Hheap).
  assert (Hin : is_Some (heap w1 !! a)).
  { apply lookup_lt_is_Some. exact (proj1 Hsound1 name a Hl1). }
  exists a, w1. split; [exact Hg |]. split; [exact Hl1 |]. split; [exact Hin |].
  split; [| split; [| split]].
  - intros Hnone.
    destruct (getSaveContainer_fresh name w Hready Hnone) as (s & Hs & Hg').
    rewrite Hg in Hg'. injection Hg' as -> ->. exists s. simpl. auto.
  - intros a0 Hsome. rewrite (getSaveContainer_known name a0 w Hsome) in Hg.
    now injection Hg as -> ->.
  - now apply getSaveContainer_known.
  - intros other Hne.
    destruct (getSaveContainer_returns other w1 Hready1) as (b & w2 & Hg2 & Hl2 & _).
    destruct (getSaveContainer_sound other w1 b w2 Hsound1 Hg2)
      as (Hsound2 & Hkeep2 & Hheap2).
    exists b, w2. split; [exact Hg2 |]. split; [| split].
    + intros ->. apply Hne. exact (proj2 Hsound2 other name a Hl2 (Hkeep2 _ _ Hl1)).
    + destruct Hin as [s Hs]. now rewrite Hs, (Hheap2 a s Hs).
    + apply getSaveContainer_known. now apply Hkeep2.
Qed.

(** Over any run of calls, two calls return the same object exactly
    when they were given the same name. *)
Lemma getSaveContainers_registered names : ∀ w,
  registrySound w → providerReady (manager w) →
  ∃ addrs w',
    getSaveContainers names w = Returns (addrs, w')
    ∧ registrySound w'
    ∧ (∀ n b, saveStorage (manager w) !! n = Some b →
              saveStorage (manager w') !! n = Some b)
    ∧ (∀ i n a, names !! i = Some n → addrs !! i = Some a →
                saveStorage (manager w') !! n = Some a).
Proof.
  induction names as [| name rest IH]; intros w Hsound Hready.
  - exists [], w. repeat split; auto; try apply Hsound. intros i n a Hn. discriminate Hn.
  - destruct (getSaveContainer_returns name w Hready) as (a & w1 & Hg & Hl1 & Hready1).
    destruct (getSaveContainer_sound name w a w1 Hsound Hg) as (Hsound1 & Hkeep1 & _).
    destruct (IH w1 Hsound1 Hready1) as (addrs & w' & Hrun & Hsound' & Hkeep & Hreg).
    exists (a :: addrs), w'. cbn [getSaveContainers]. rewrite Hg. simpl. rewrite Hrun. simpl.
    split; [reflexivity |]. split; [exact Hsound' |]. split; [auto |].
    intros [| i] n b; simpl.
    + intros [= <-] [= <-]. auto.
    + apply Hreg.
Qed.

Lemma getSaveContainers_memo names w :
  registrySound w → providerReady (manager w) →
  ∃ addrs w',
    getSaveContainers names w = Returns (addrs, w')
    ∧ ∀ i j ni nj ai aj,
        names !! i = Some ni → names !! j = Some nj →
        addrs !! i = Some ai → addrs !! j = Some aj →
        (ni = nj ↔ ai = aj).
Proof.
  intros Hsound Hready.
  destruct (getSaveContainers_registered names w Hsound Hready)
    as (addrs & w' & Hrun & [_ Hinj] & _ & Hreg).
  exists addrs, w'. split; [exact Hrun |].
  intros i j ni nj ai aj Hni Hnj Hai Haj.
  pose proof (Hreg i ni ai Hni Hai) as Hi. pose proof (Hreg j nj aj Hnj Haj) as Hj.
  split.
  - intros <-. congruence.
  - intros <-. exact (Hinj ni nj ai Hi Hj).
Qed.

End Registry.

Lemma C4_witness :
  registrySound (emptyWorld Sim.online)
  ∧ providerReady (manager (emptyWorld Sim.online))
  ∧ ∃ a w1,
      getSaveContainer "slot" (emptyWorld Sim.online) = Returns (a, w1)
      ∧ saveStorage (manager w1) !! "slot"%string = Some a
      ∧ getSaveContainer "slot" w1 = Returns (a, w1).
Proof.
  assert (Hs : registrySound (emptyWorld Sim.online)) by apply emptyWorld_sound.
  assert (Hr : providerReady (manager (emptyWorld Sim.online)))
    by (intros _; eexists; reflexivity).
  split; [exact Hs |]. split; [exact Hr |].
  destruct (C4_registry_memoizes_by_name (emptyWorld Sim.online) "slot" Hs Hr)
    as (a & w1 & Hg & Hl & _ & _ & _ & Hagain & _).
  exists a, w1. auto.
Defined.

Section Reconnect.

Context `{plat : Platform}.

Lemma recreate_with_provider m p s :
  gameSaveProvider m = Some p → recreate m s = Returns (recreatedFrom p s).
Proof.
  intros Hp. unfold recreate, createFromProvider, getProvider. now rewrite Hp.
Qed.

Lemma recreate_without_provider m s :
  gameSaveProvider m = None → recreate m s = Undefined.
Proof.
  intros Hp. unfold recreate, createFromProvider, getProvider. now rewrite Hp.
Qed.

Lemma recreatedFrom_idem p s :
  recreatedFrom p (recreatedFrom p s) = recreatedFrom p s.
Proof. reflexivity. Qed.

(** The loop, entry by entry. *)
Lemma recreateEach_spec m p addrs :
  gameSaveProvider m = Some p →
  ∀ h, (∀ a, a ∈ addrs → (a < length h)%nat) →
  ∃ h', recreateEach m addrs h = Returns h'
        ∧ length h' = length h
        ∧ ∀ b, h' !! b = if decide (b ∈ addrs) then recreatedFrom p <$> h !! b
                         else h !! b.
Proof.
  intros Hp. induction addrs as [| a rest IH]; intros h Hbound.
  - exists h. split; [reflexivity |]. split; [reflexivity |]. intros b.
    destruct (decide (b ∈ [])) as [Hin | _]; [| reflexivity].
    now apply not_elem_of_nil in Hin.
  - assert (Ha : (a < length h)%nat) by (apply Hbound; apply list_elem_of_here).
    destruct (lookup_lt_is_Some_2 h a Ha) as [s Hs].
    cbn [recreateEach]. rewrite Hs, (recreate_with_provider m p s Hp). simpl.
    destruct (IH (<[a := recreatedFrom p s]> h)) as (h' & Hrun & Hlen & Hget).
    { intros b Hb. rewrite length_insert. apply Hbound. now apply list_elem_of_further. }
    exists h'. split; [exact Hrun |]. split; [now rewrite Hlen, length_insert |].
    intros b. rewrite Hget.
    destruct (decide (b = a)) as [-> | Hne].
    + rewrite list_lookup_insert_eq by exact Ha. rewrite Hs. simpl.
      rewrite (decide_True (P := a ∈ a :: rest)) by apply list_elem_of_here.
      now destruct (decide (a ∈ rest)).
    + rewrite list_lookup_insert_ne by congruence.
      destruct (decide (b ∈ rest)) as [Hin | Hout].
      * now rewrite (decide_True (P := b ∈ a :: rest)) by now apply list_elem_of_further.
      * rewrite (decide_False (P := b ∈ a :: rest)); [reflexivity |].
        rewrite elem_of_cons. intuition.
Qed.

(** The loop fails as soon as there is an entry and no provider. *)
Lemma recreateEach_no_provider m a rest h :
  gameSaveProvider m = None → recreateEach m (a :: rest) h = Undefined.
Proof.
  intros Hp. cbn [recreateEach]. destruct (h !! a) as [s |]; [| reflexivity].
  now rewrite (recreate_without_provider m s Hp).
Qed.

(** The order in which the entries are visited does not matter. *)
Lemma recreateEach_length m addrs : ∀ h h',
  recreateEach m addrs h = Returns h' → length h' = length h.
Proof.
  induction addrs as [| a rest IH]; intros h h'; cbn [recreateEach].
  - now intros [= <-].
  - destruct (h !! a) as [s |]; [| discriminate].
    destruct (recreate m s) as [s' | |]; simpl; try discriminate.
    intros Hrun. rewrite (IH _ _ Hrun). apply length_insert.
Qed.

Lemma recreateEach_swap m a b rest h :
  recreateEach m (a :: b :: rest) h = recreateEach m (b :: a :: rest) h.
Proof.
  destruct (gameSaveProvider m) as [p |] eqn:Hp;
    [| now rewrite !recreateEach_no_provider].
  cbn [recreateEach].
  destruct (decide (a = b)) as [-> | Hne]; [reflexivity |].
  destruct (h !! a) as [sa |] eqn:Ha, (h !! b) as [sb |] eqn:Hb;
    rewrite ?(recreate_with_provider m p _ Hp); simpl;
    rewrite ?list_lookup_insert_ne by congruence; rewrite ?Ha, ?Hb;
    rewrite ?(recreate_with_provider m p _ Hp); simpl; try reflexivity.
  now rewrite list_insert_insert_ne by congruence.
Qed.

Lemma recreateEach_Permutation m l1 l2 :
  l1 ≡ₚ l2 → ∀ h, recreateEach m l1 h = recreateEach m l2 h.
Proof.
  induction 1 as [| a l1 l2 _ IH | a b l | l1 l2 l3 _ IH1 _ IH2]; intros h.
  - reflexivity.
  - cbn [recreateEach]. destruct (h !! a) as [s |]; [| reflexivity].
    destruct (recreate m s); simpl; auto.
  - apply recreateEach_swap.
  - now rewrite IH1.
Qed.

(** [getConnectedStorage] stores the provider before it raises the
    status, so the manager it returns is never connected without a
    provider; the reconnection keeps that, and keeps the registry
    sound. *)
Lemma getConnectedStorage_ready result m m' :
  getConnectedStorage result m = Returns m' → providerReady m'.
Proof.
  unfold getConnectedStorage. destruct (xboxLiveContext m); [| discriminate].
  destruct (decide _); intros [= <-] Hc; [now eexists | discriminate Hc].
Qed.

Lemma recreateCloudSaveContainer_keeps result w w' :
  recreateCloudSaveContainer result w = Returns w' →
  saveStorage (manager w') = saveStorage (manager w)
  ∧ length (heap w') = length (heap w)
  ∧ (providerReady (manager w) → providerReady (manager w'))
  ∧ (registrySound w → registrySound w').
Proof.
  unfold recreateCloudSaveContainer.
  destruct (decide (status (manager w) = Connected)); [| now intros [= <-]].
  destruct (getConnectedStorage _ _) as [m2 | |] eqn:Hget; simpl; try discriminate.
  destruct (recreateEach _ _ _) as [h | |] eqn:Hrun; simpl; try discriminate.
  intros [= <-]. simpl.
  pose proof (recreateEach_length _ _ _ _ Hrun) as Hlen.
  pose proof (getConnectedStorage_ready _ _ _ Hget) as Hready.
  assert (Hreg : saveStorage m2 = saveStorage (manager w)).
  { unfold getConnectedStorage in Hget. destruct (xboxLiveContext _); [| discriminate].
    destruct (decide _); injection Hget as <-; reflexivity. }
  split; [exact Hreg |]. split; [exact Hlen |]. split; [auto |].
  intros [Hbound Hinj]. split; simpl; rewrite Hreg, ?Hlen; auto.
Qed.

(** C3 (amended).  Called while the status is Connected,
    [recreateCloudSaveContainer] drops the storage provider and asks for
    connected storage again; when that request succeeds, the manager is
    connected to the new provider and every object in the registry gets
    a new container handle made by it, while the registry itself and
    all other objects stay as they were.  Called while the status is
    not Connected, it changes nothing. *)
Theorem C3_containers_recreated_on_reconnect
    (result : GameSaveProviderGetResult) (w : World) :
  (status (manager w) ≠ Connected →
     recreateCloudSaveContainer result w = Returns w)
  ∧ (status (manager w) = Connected →
     is_Some (xboxLiveContext (manager w)) →
     getStatusOf result = Ok →
     (∀ name a, saveStorage (manager w) !! name = Some a → (a < length (heap w))%nat) →
     ∃ w', recreateCloudSaveContainer result w = Returns w'
           ∧ manager w' = withStatus (withProvider (manager w) (Some (getValueOf result)))
                                     Connected
           ∧ length (heap w') = length (heap w)
           ∧ (∀ name a, saveStorage (manager w) !! name = Some a →
                ∃ s, heap w !! a = Some s
                     ∧ heap w' !! a = Some (recreatedFrom (getValueOf result) s))
           ∧ (∀ b, (∀ name, saveStorage (manager w) !! name ≠ Some b) →
                heap w' !! b = heap w !! b)
           ∧ allRecreated w w').
Proof.
  split.
  - intros Hst. unfold recreateCloudSaveContainer.
    destruct (decide (status (manager w) = Connected)); [contradiction | reflexivity].
  - intros Hst [ctx Hctx] Hok Hbound. unfold recreateCloudSaveContainer.
    destruct (decide (status (manager w) = Connected)); [| contradiction].
    unfold getConnectedStorage. simpl. rewrite Hctx.
    destruct (decide (getStatusOf result = Ok)); [| contradiction]. simpl.
    set (m2 := withStatus (withProvider (withStatus (withProvider (manager w) None)
                 Disconnected) (Some (getValueOf result))) Connected).
    assert (Hm2 : m2 = withStatus (withProvider (manager w) (Some (getValueOf result)))
                                  Connected) by reflexivity.
    assert (Hrange : ∀ a, a ∈ (map_to_list (saveStorage (manager w))).*2 →
                          ∃ name, saveStorage (manager w) !! name = Some a).
    { intros a Hin. apply list_elem_of_fmap in Hin as ([name a'] & -> & Hin).
      exists name. now apply elem_of_map_to_list in Hin. }
    destruct (recreateEach_spec m2 (getValueOf result)
                (map_to_list (saveStorage (manager w))).*2 eq_refl (heap w))
      as (h' & Hrun & Hlen & Hget).
    { intros a Hin. destruct (Hrange a Hin) as [name Hname]. eauto. }
    rewrite Hrun. simpl. exists (mkWorld m2 h'). simpl.
    assert (Hreg : ∀ name a, saveStorage (manager w) !! name = Some a →
              ∃ s, heap w !! a = Some s
                   ∧ h' !! a = Some (recreatedFrom (getValueOf result) s)).
    { intros name a Hname.
      destruct (lookup_lt_is_Some_2 (heap w) a (Hbound name a Hname)) as [s Hs].
      exists s. split; [exact Hs |]. rewrite Hget, Hs.
      rewrite decide_True; [reflexivity |].
      apply list_elem_of_fmap. exists (name, a). split; [reflexivity |].
      now apply elem_of_map_to_list. }
    split; [reflexivity |]. split; [exact Hm2 |]. split; [exact Hlen |].
    split; [exact Hreg |]. split.
    + intros b Hfree. rewrite Hget. rewrite decide_False; [reflexivity |].
      intros Hin. destruct (Hrange b Hin) as [name Hname]. exact (Hfree name Hname).
    + exists (getValueOf result). split; [reflexivity | exact Hreg].
Qed.

End Reconnect.

Lemma C3_witness :
  (status (manager (mkWorld Sim.offline [])) ≠ Connected
   ∧ recreateCloudSaveContainer Sim.granted (mkWorld Sim.offline [])
     = Returns (mkWorld Sim.offline []))
  ∧ (status (manager Sim.saved) = Connected
     ∧ is_Some (xboxLiveContext (manager Sim.saved))
     ∧ getStatusOf Sim.granted = Ok
     ∧ (∀ name a, saveStorage (manager Sim.saved) !! name = Some a →
                  (a < length (heap Sim.saved))%nat)
     ∧ ∃ w', recreateCloudSaveContainer Sim.granted Sim.saved = Returns w'
             ∧ allRecreated Sim.saved w').
Proof.
  split.
  - assert (Hoff : status (manager (mkWorld Sim.offline [])) ≠ Connected)
      by discriminate.
    split; [exact Hoff |].
    exact (proj1 (C3_containers_recreated_on_reconnect Sim.granted
                    (mkWorld Sim.offline [])) Hoff).
  - assert (Hon : status (manager Sim.saved) = Connected) by reflexivity.
    assert (Hctx : is_Some (xboxLiveContext (manager Sim.saved)))
      by (eexists; reflexivity).
    assert (Hok : getStatusOf Sim.granted = Ok) by reflexivity.
    assert (Hbound : ∀ name a, saveStorage (manager Sim.saved) !! name = Some a →
                               (a < length (heap Sim.saved))%nat).
    { intros name a. simpl. intros Hl.
      apply lookup_singleton_Some in Hl as [_ <-]. simpl. lia. }
    split; [exact Hon |]. split; [exact Hctx |]. split; [exact Hok |].
    split; [exact Hbound |].
    destruct (proj2 (C3_containers_recreated_on_reconnect Sim.granted Sim.saved)
                Hon Hctx Hok Hbound) as (w' & Hrun & _ & _ & _ & _ & Hall).
    exists w'. split; [exact Hrun | exact Hall].
Defined.

(** C3, without the proviso that the request succeeds, fails on a
    refused request: with the status Connected and a container
    registered, a refusal leaves no provider, and the loop over the
    registry then goes through the empty [Maybe]; no world results in
    which the containers have been recreated. *)
Lemma C3_counterexample :
  status (manager Sim.saved) = Connected
  ∧ recreateCloudSaveContainer Sim.refused Sim.saved = Undefined
  ∧ ¬ ∃ w', recreateCloudSaveContainer Sim.refused Sim.saved = Returns w'
            ∧ allRecreated Sim.saved w'.
Proof.
  split; [reflexivity |].
  assert (Hrun : recreateCloudSaveContainer Sim.refused Sim.saved = Undefined)
    by (vm_compute; reflexivity).
  split; [exact Hrun |].
  intros (w' & Hret & _). rewrite Hrun in Hret. discriminate Hret.
Qed.

Section Achievements.

Context `{plat : Platform}.

Lemma foldl_recordAchievement_lookup items : ∀ cache id,
  foldl recordAchievement cache items !! id
  = match last (filter (λ a, ach_id a = id) items) with
    | Some a => Some (isAchieved a)
    | None => cache !! id
    end.
Proof.
  induction items as [| a items IH]; intros cache id; [reflexivity |].
  cbn [foldl]. rewrite IH, filter_cons. unfold recordAchievement at 1.
  destruct (decide (ach_id a = id)) as [<- | Hne].
  - rewrite last_cons. destruct (last _); [reflexivity | apply lookup_insert_eq].
  - destruct (last _); [reflexivity | now apply lookup_insert_ne].
Qed.

Lemma foldl_recordAchievement_app cache l1 l2 :
  foldl recordAchievement cache (l1 ++ l2)
  = foldl recordAchievement (foldl recordAchievement cache l1) l2.
Proof. apply foldl_app. Qed.

(** Every achievement that was seen has an entry, and the entry is the
    state of an achievement with that id. *)
Lemma foldl_recordAchievement_covers cache items a :
  a ∈ items →
  ∃ a', a' ∈ items ∧ ach_id a' = ach_id a
        ∧ foldl recordAchievement cache items !! ach_id a = Some (isAchieved a').
Proof.
  intros Hin. rewrite foldl_recordAchievement_lookup.
  assert (Hf : a ∈ filter (λ x, ach_id x = ach_id a) items)
    by (apply list_elem_of_filter; auto).
  destruct (last (filter (λ x, ach_id x = ach_id a) items)) as [a' |] eqn:Hlast.
  - apply last_Some_elem_of in Hlast. apply list_elem_of_filter in Hlast as [Hid Hin'].
    exists a'. auto.
  - apply last_None in Hlast. rewrite Hlast in Hf. now apply not_elem_of_nil in Hf.
Qed.

Lemma achievementsRetrieved_spec result : ∀ m,
  is_Some (xboxUser m) →
  ∃ lg, achievementsRetrieved result m
        = Returns (withAchievementsStatus
                     (withAchievementStatus m
                        (foldl recordAchievement (achievementStatus m) (received result)))
                     (if complete result then Ready else Uninitialized),
                   lg).
Proof.
  induction result as [value msg | items | items next IH | items];
    intros m [u Hu]; cbn [achievementsRetrieved received complete].
  - rewrite Hu. eexists. destruct m; reflexivity.
  - eexists. reflexivity.
  - destruct (IH (recordPage items m)) as [lg Hlg]; [now exists u |].
    rewrite Hlg. simpl. eexists. now rewrite foldl_recordAchievement_app.
  - simpl. rewrite Hu. eexists. reflexivity.
Qed.

(** C7.  [retrieveUserAchievementsState] first sets the status flag to
    Retrieving and empties the cache.  Its continuation then records an
    unlocked/locked flag for every achievement of every page it
    receives, following the pages until there is no next one; it sets
    the flag to Ready exactly when all pages arrived without an error,
    and back to Uninitialized when a result reports an error or
    fetching a page throws. *)
Theorem C7_cache_filled_page_by_page (m : XBLManager) (result : achievements_result) :
  is_Some (xboxUser m) →
  is_Some (xboxLiveContext m) →
  ∃ m1 rq m2 lg,
    retrieveUserAchievementsState m = Returns (m1, rq)
    ∧ achievementsStatus m1 = Retrieving
    ∧ achievementStatus m1 = ∅
    ∧ achievementsRetrieved result m1 = Returns (m2, lg)
    ∧ achievementStatus m2 = foldl recordAchievement ∅ (received result)
    ∧ (∀ a, a ∈ received result →
         ∃ a', a' ∈ received result ∧ ach_id a' = ach_id a
               ∧ achievementStatus m2 !! ach_id a = Some (isAchieved a'))
    ∧ (∀ id, (∀ a, a ∈ received result → ach_id a ≠ id) →
         achievementStatus m2 !! id = None)
    ∧ (achievementsStatus m2 = Ready ↔ complete result = true)
    ∧ (achievementsStatus m2 = Uninitialized ↔ complete result = false).
Proof.
  intros [u Hu] [ctx Hctx].
  set (m1 := withAchievementStatus (withAchievementsStatus m Retrieving) ∅).
  destruct (achievementsRetrieved_spec result m1) as [lg Hlg]; [now exists u |].
  eexists m1, _, _, lg.
  split; [unfold retrieveUserAchievementsState; simpl; now rewrite Hctx, Hu |].
  split; [reflexivity |]. split; [reflexivity |]. split; [exact Hlg |].
  simpl. split; [reflexivity |]. split; [| split; [| split]].
  - intros a Hin. now apply foldl_recordAchievement_covers.
  - intros id Hfree. rewrite foldl_recordAchievement_lookup.
    destruct (last (filter (λ a, ach_id a = id) (received result))) as [a |] eqn:Hlast;
      [| apply lookup_empty].
    apply last_Some_elem_of, list_elem_of_filter in Hlast as [Hid Hin].
    now destruct (Hfree a Hin).
  - destruct (complete result); split; congruence.
  - destruct (complete result); split; congruence.
Qed.

End Achievements.

Lemma C7_witness :
  is_Some (xboxUser Sim.online)
  ∧ is_Some (xboxLiveContext Sim.online)
  ∧ ∃ m1 rq m2 lg,
      retrieveUserAchievementsState Sim.online = Returns (m1, rq)
      ∧ achievementsRetrieved Sim.twoPages m1 = Returns (m2, lg)
      ∧ achievementStatus m2 = foldl recordAchievement ∅ (received Sim.twoPages)
      ∧ (achievementsStatus m2 = Ready ↔ complete Sim.twoPages = true).
Proof.
  assert (Hu : is_Some (xboxUser Sim.online)) by (eexists; reflexivity).
  assert (Hc : is_Some (xboxLiveContext Sim.online)) by (eexists; reflexivity).
  split; [exact Hu |]. split; [exact Hc |].
  destruct (C7_cache_filled_page_by_page Sim.online Sim.twoPages Hu Hc)
    as (m1 & rq & m2 & lg & H1 & _ & _ & H2 & H3 & _ & _ & H4 & _).
  exists m1, rq, m2, lg. auto.
Defined.

Section Waiting.

Context `{plat : Platform}.

(** The busy-wait ends at the first instant at which its condition
    fails, provided the fuel reaches that far. *)
Lemma spin_exits world deadline n : ∀ fuel k,
  (k ≤ n)%nat → ¬ waiting world deadline n → (n - k < fuel)%nat →
  ∃ j, (k ≤ j ≤ n)%nat
       ∧ (∀ i, (k ≤ i < j)%nat → waiting world deadline i)
       ∧ ¬ waiting world deadline j
       ∧ spin fuel world k deadline = Some j.
Proof.
  induction fuel as [| fuel IH]; intros k Hk Hn Hfuel; [lia |].
  cbn [spin]. fold (waiting world deadline k).
  destruct (decide (waiting world deadline k)) as [Hw | Hw].
  - assert (k ≠ n) by (intros ->; contradiction).
    destruct (IH (S k)) as (j & Hj & Hbefore & Hstop & Hrun); [lia | exact Hn | lia |].
    exists j. split; [lia |]. split; [| split; [exact Hstop | exact Hrun]].
    intros i Hi. destruct (decide (i = k)) as [-> | Hne]; [exact Hw |].
    apply Hbefore. lia.
  - exists k. split; [lia |]. split; [intros i Hi; lia |]. split; [exact Hw | reflexivity].
Qed.

(** C6.  [isAchievementUnlocked] returns false, whatever the default,
    when the achievements status is Uninitialized.  When the status is
    Ready it returns the cached flag of the id if the cache has the id,
    and the default otherwise.  When the status is Retrieving it waits
    until the status changes or 5000 ms have passed on the tick
    counter, and returns false if the status is still Retrieving
    then. *)
Theorem C6_achievement_query_follows_status
    (world : Timeline) (achievementId : string) (defaultValue : bool) :
  let m := seen (world 0%nat) in
  let deadline := wrap64 (ticks (world 0%nat) + 5000) in
  (achievementsStatus m = Uninitialized →
     ∀ fuel, isAchievementUnlocked world fuel achievementId defaultValue
             = Some (false, [tooEarly]))
  ∧ (achievementsStatus m = Ready →
     ∀ fuel, isAchievementUnlocked world fuel achievementId defaultValue
             = Some (match achievementStatus m !! to_string_t achievementId with
                     | Some unlocked => unlocked
                     | None => defaultValue
                     end, []))
  ∧ (achievementsStatus m = Retrieving →
     ∀ n, (1 ≤ n)%nat →
          achievementsStatus (seen (world n)) ≠ Retrieving ∨ deadline ≤ ticks (world n) →
     ∃ j, (1 ≤ j ≤ n)%nat
          ∧ (∀ i, (1 ≤ i < j)%nat → waiting world deadline i)
          ∧ ¬ waiting world deadline j
          ∧ ∀ fuel, (n ≤ fuel)%nat →
              let m' := seen (world (S j)) in
              (achievementsStatus m' = Retrieving →
                 isAchievementUnlocked world fuel achievementId defaultValue
                 = Some (false, [tooSlow]))
              ∧ (achievementsStatus m' ≠ Retrieving →
                 isAchievementUnlocked world fuel achievementId defaultValue
                 = Some (match achievementStatus m' !! to_string_t achievementId with
                         | Some unlocked => unlocked
                         | None => defaultValue
                         end, []))).
Proof.
  intros m deadline. unfold isAchievementUnlocked. fold m. fold deadline.
  split; [| split].
  - intros Hst fuel. rewrite decide_True by exact Hst. reflexivity.
  - intros Hst fuel.
    rewrite decide_False by (rewrite Hst; discriminate).
    rewrite decide_False by (rewrite Hst; discriminate). reflexivity.
  - intros Hst n Hn Hend.
    assert (Hstop : ¬ waiting world deadline n).
    { intros [Hr Ht]. destruct Hend as [Hend | Hend]; [contradiction | lia]. }
    destruct (spin_exits world deadline n n 1%nat Hn Hstop) as (j & Hj & Hbefore & Hnot & _);
      [lia |].
    exists j. split; [exact Hj |]. split; [exact Hbefore |]. split; [exact Hnot |].
    intros fuel Hfuel. set (m' := seen (world (S j))).
    destruct (spin_exits world deadline n fuel 1%nat Hn Hstop)
      as (j' & Hj' & Hbefore' & Hnot' & Hrun); [lia |].
    assert (j' = j) as ->.
    { destruct (Nat.lt_trichotomy j' j) as [Hlt | [Heq | Hgt]]; [| exact Heq |].
      - destruct Hnot'. apply Hbefore. lia.
      - destruct Hnot. apply Hbefore'. lia. }
    rewrite decide_False by (rewrite Hst; discriminate).
    rewrite decide_True by exact Hst. rewrite Hrun. fold m'. unfold cached.
    split; intros Hm'.
    + now rewrite decide_True by exact Hm'.
    + now rewrite decide_False by exact Hm'.
Qed.

End Waiting.

Lemma C6_witness :
  (achievementsStatus (seen (Sim.stalled 0%nat)) = Retrieving
   ∧ (1 ≤ 5)%nat
   ∧ (achievementsStatus (seen (Sim.stalled 5%nat)) ≠ Retrieving
      ∨ wrap64 (ticks (Sim.stalled 0%nat) + 5000) ≤ ticks (Sim.stalled 5%nat))
   ∧ (5 ≤ 8)%nat
   ∧ isAchievementUnlocked Sim.stalled 8 "1" true = Some (false, [tooSlow]))
  ∧ (achievementsStatus (seen (Sim.served 0%nat)) = Retrieving
     ∧ isAchievementUnlocked Sim.served 8 "1" false = Some (true, [])).
Proof.
  split.
  - assert (H0 : achievementsStatus (seen (Sim.stalled 0%nat)) = Retrieving)
      by reflexivity.
    assert (H1 : (1 ≤ 5)%nat) by lia.
    assert (H2 : achievementsStatus (seen (Sim.stalled 5%nat)) ≠ Retrieving
                 ∨ wrap64 (ticks (Sim.stalled 0%nat) + 5000) ≤ ticks (Sim.stalled 5%nat))
      by (right; vm_compute; discriminate).
    assert (H3 : (5 ≤ 8)%nat) by lia.
    repeat (split; [assumption |]).
    destruct (proj2 (proj2 (C6_achievement_query_follows_status Sim.stalled "1" true))
                H0 5%nat H1 H2) as (j & _ & _ & _ & Hrun).
    exact (proj1 (Hrun 8%nat H3) eq_refl).
  - split; reflexivity.
Defined.

Section Serialisation.

Context `{plat : Platform}.

Variables (s : XBLSaveData) (k : GameSaveContainer) (cl : Cloud) (t : Z).
Variables (wpath : string) (wdata : Bytes) (rpath : string).

Hypothesis handle_there : gameSaveContainer s = Some k.

Local Abbreviation stored := (afterSubmit s wpath wdata cl).
Local Abbreviation Inv := (Inv s k cl t wpath wdata rpath).

Lemma Inv_start : Inv (inFlight s cl t).
Proof.
  constructor; simpl; try reflexivity; try exact handle_there; try lia.
  - intros Hin. now apply not_elem_of_nil in Hin.
  - apply not_elem_of_nil.
Qed.

Lemma readBlob_handle s1 s2 path c :
  gameSaveContainer s1 = gameSaveContainer s2 →
  readBlob s1 path c = readBlob s2 path c.
Proof. intros Heq. unfold readBlob. now rewrite Heq. Qed.

Lemma readBlob_returns s0 c path cl0 :
  gameSaveContainer s0 = Some c → ∃ bytes lg, readBlob s0 path cl0 = Returns (bytes, lg).
Proof.
  intros Hh. unfold readBlob. rewrite Hh.
  destruct (decide _); [destruct (_ !! _) |]; eauto.
Qed.

Lemma readBlob_quiet s0 path c bytes lg :
  readBlob s0 path c = Returns (bytes, lg) → tooLong ∉ lg.
Proof.
  unfold readBlob. destruct (gameSaveContainer s0); [| discriminate].
  destruct (decide _).
  - destruct (_ !! _); intros [= <- <-]; apply not_elem_of_nil.
  - intros [= <- <-]. rewrite list_elem_of_singleton. discriminate.
Qed.

Lemma submitBlob_quiet s0 path data c c' lg :
  submitBlob s0 path data c = Returns (c', lg) → tooLong ∉ lg.
Proof.
  unfold submitBlob. destruct (gameSaveContainer s0); [| discriminate].
  intros [= <- <-]. destruct (decide _); [apply not_elem_of_nil |].
  rewrite list_elem_of_singleton. discriminate.
Qed.

Lemma warned_app (lg lg' : list LogEntry) :
  tooLong ∉ lg' → (tooLong ∈ lg ++ lg' ↔ tooLong ∈ lg).
Proof. intros Hq. rewrite elem_of_app. tauto. Qed.

Lemma Inv_tick ms c c' : Inv c → tick ms c = Some c' → Inv c'.
Proof.
  intros [Hh Hf Hc Hn Hw Hr]. unfold tick.
  destruct (decide _) as [[Hms _] |]; [| discriminate]. intros [= <-].
  constructor; simpl; auto; [lia | |].
  - intros Hin. destruct (Hw Hin) as (t0 & ? & ? & ?). exists t0. repeat split; auto; lia.
  - destruct (reader c); auto.
    destruct Hr as (? & ? & Hlate). repeat split; auto.
    intros Hs. specialize (Hlate Hs). lia.
Qed.

Lemma Inv_writer c c' : Inv c → writerStep wpath wdata c = Some c' → Inv c'.
Proof.
  intros [Hh Hf Hc Hn Hw Hr]. unfold writerStep.
  destruct (writer c) eqn:Hpc; [| | discriminate].
  - destruct (submitBlob (obj c) wpath wdata (cloud c)) as [[c1 lg] | |] eqn:Hsub;
      try discriminate.
    intros [= <-]. pose proof (submitBlob_quiet _ _ _ _ _ _ Hsub) as Hq.
    unfold submitBlob in Hsub. rewrite Hh, Hc in Hsub. injection Hsub as <- _.
    constructor; simpl; auto.
    + unfold afterSubmit. now rewrite handle_there.
    + rewrite (warned_app _ _ Hq). exact Hw.
    + destruct (reader c); rewrite ?(warned_app _ _ Hq); auto; try discriminate.
      * intros Hno. specialize (Hr Hno). discriminate.
      * intros Hno. destruct (Hr Hno). discriminate.
  - intros [= <-]. constructor; simpl; auto.
    destruct (reader c); auto.
    + destruct Hr as (? & ? & _). repeat split; auto. discriminate.
    + intros Hno. destruct (Hr Hno). discriminate.
Qed.

Lemma Inv_reader c c' : Inv c → readerStep rpath c = Some c' → Inv c'.
Proof.
  intros [Hh Hf Hc Hn Hw Hr]. unfold readerStep, readerAt.
  destruct (reader c) eqn:Hpc.
  - (* RTest *)
    intros [= <-]. constructor; simpl; auto.
    destruct (isSaving (obj c)) eqn:Hs; [exact Hr |].
    intros _. destruct (writer c); try discriminate; reflexivity.
  - (* RDeadline *)
    intros [= <-]. constructor; simpl; auto.
    + intros Hin. contradiction.
    + split; [exact Hr |]. exists (now c). auto.
  - (* RSpinFlag *)
    intros [= <-]. destruct Hr as [Hno Ht0]. constructor; simpl; auto.
    destruct (isSaving (obj c)) eqn:Hs; [auto |].
    repeat split; auto. discriminate.
  - (* RSpinClock *)
    intros [= <-]. destruct Hr as [Hno Ht0]. constructor; simpl; auto.
    destruct (decide (now c < timeout c)); [auto |].
    repeat split; auto. intros _. lia.
  - (* RRecheck *)
    intros [= <-]. destruct Hr as (Hno & (t0 & Ht0 & Hto) & Hlate).
    destruct (isSaving (obj c)) eqn:Hs; constructor; simpl; rewrite ?Hs; auto.
    + intros _. exists t0. auto.
    + intros Hnot. destruct Hnot. apply elem_of_app. right. apply list_elem_of_here.
    + intros _. destruct (writer c); try discriminate; reflexivity.
  - (* RFetch *)
    destruct (readBlob (obj c) rpath (cloud c)) as [[bytes lg] | |] eqn:Hread;
      try discriminate.
    intros [= <-]. pose proof (readBlob_quiet _ _ _ _ _ Hread) as Hq.
    constructor; simpl; auto.
    + rewrite (warned_app _ _ Hq). exact Hw.
    + rewrite (warned_app _ _ Hq). intros Hno. specialize (Hr Hno).
      split; [exact Hr |]. exists lg.
      rewrite <- Hread, Hc, Hr. apply readBlob_handle. now rewrite Hh.
  - discriminate.
Qed.

Lemma Inv_run sched : ∀ c c',
  Inv c → run wpath wdata rpath sched c = Some c' → Inv c'.
Proof.
  induction sched as [| a sched IH]; intros c c' Hinv; cbn [run].
  - now intros [= <-].
  - destruct (act wpath wdata rpath a c) as [c1 |] eqn:Hact; [| discriminate].
    apply IH. destruct a; simpl in Hact.
    + exact (Inv_tick _ _ _ Hinv Hact).
    + exact (Inv_writer _ _ Hinv Hact).
    + exact (Inv_reader _ _ Hinv Hact).
Qed.

End Serialisation.

(** ** Any number of writes *)

Section Pooled.

Context `{plat : Platform}.

Variables (m : XBLManager) (s : XBLSaveData) (k : GameSaveContainer).
Variables (cl : Cloud) (t : Z) (path : string) (data : Bytes) (rpath : string).

Hypothesis handle_there : gameSaveContainer s = Some k.

Local Abbreviation PoolInv := (PoolInv s k cl t path data rpath).

(** A call of [setData] on a container that has its handle, when it
    returns, has raised the flag and queued the job for its arguments;
    the handle is the one it found. *)
Lemma setData_queues s0 pth dat commit s' pth' dat' :
  gameSaveContainer s0 = Some k →
  setData m s0 pth dat commit = Returns (s', SetDataJob pth' dat') →
  s' = setSaving s0 true ∧ pth' = pth ∧ dat' = dat.
Proof.
  intros Hh. unfold setData, whenReady, isReady, updateContainer.
  destruct (decide (getStatus m = Connected)); simpl.
  - rewrite Hh. simpl. rewrite Hh. simpl. intros [= <- <- <-]. auto.
  - discriminate.
Qed.

Lemma insert_alone {A} (i : nat) (x y j : A) (l : list A) :
  l !! i = Some j → <[i := x]> l = [y] → l = [j] ∧ y = x.
Proof.
  destruct l as [| a [| b l]]; destruct i as [| i]; simpl; try discriminate.
  - intros [= <-] [= <-]. auto.
  - destruct i; discriminate.
Qed.

Lemma finished_later p p' i j pc :
  jobs p !! i = Some j → jobPc j ≠ WDone →
  jobs p' = <[i := atPc j pc]> (jobs p) →
  finished p → finished p'.
Proof.
  intros Hi Hpc Hjobs (j0 & Hin & Hdone).
  apply list_elem_of_lookup in Hin as [i0 Hi0].
  assert (Hne : i ≠ i0) by (intros ->; congruence).
  exists j0. split; [| exact Hdone]. rewrite Hjobs.
  apply list_elem_of_lookup. exists i0. now rewrite list_lookup_insert_ne.
Qed.

Lemma finished_here p p' i j :
  jobs p !! i = Some j →
  jobs p' = <[i := atPc j WDone]> (jobs p) →
  finished p'.
Proof.
  intros Hi Hjobs. exists (atPc j WDone). split; [| reflexivity].
  rewrite Hjobs. apply list_elem_of_lookup. exists i.
  apply list_lookup_insert_eq. now apply lookup_lt_Some in Hi.
Qed.

Lemma PoolInv_start : PoolInv (writeInFlight s cl t path data).
Proof.
  constructor; simpl; try exact handle_there; try discriminate; try lia.
  - intros j [= <-]. auto.
  - intros Hin. now apply not_elem_of_nil in Hin.
  - apply not_elem_of_nil.
Qed.

Lemma PoolInv_elapse ms p p' : PoolInv p → elapse ms p = Some p' → PoolInv p'.
Proof.
  intros [Hh Hq Hf Ha Hn Hw Hr]. unfold elapse.
  destruct (decide _) as [[Hms _] |]; [| discriminate]. intros [= <-].
  assert (Hset : deadlineSet t p →
                 deadlineSet t (mkPool (shared p) (store p) (clock p + ms) (journal p)
                                       (jobs p) (reading p) (limit p))).
  { intros (t0 & ? & ?). exists t0. simpl. split; [lia | assumption]. }
  constructor; simpl; auto; [lia | |].
  - intros Hin. destruct (Hw Hin) as [? [? | ?]]; split; auto. left. lia.
  - destruct (reading p); auto.
    + destruct Hr. auto.
    + destruct Hr. auto.
    + destruct Hr as (? & ? & Hlate). repeat split; auto.
      intros Hs. destruct (Hlate Hs); [left; lia | now right].
Qed.

Lemma PoolInv_job i p p' : PoolInv p → jobStep i p = Some p' → PoolInv p'.
Proof.
  intros [Hh Hq Hf Ha Hn Hw Hr]. unfold jobStep.
  destruct (jobs p !! i) as [j |] eqn:Hi; [| discriminate].
  destruct (jobPc j) eqn:Hpc; [| | discriminate].
  - (* SubmitUpdatesAsync *)
    destruct (submitBlob (shared p) (jobPath j) (jobData j) (store p))
      as [[c1 lg] | |] eqn:Hsub; try discriminate.
    intros [= <-]. pose proof (submitBlob_quiet _ _ _ _ _ _ Hsub) as Hq'.
    assert (Hfin : finished p →
                   finished (mkPool (shared p) c1 (clock p) (journal p ++ lg)
                                    (<[i := atPc j WClear]> (jobs p))
                                    (reading p) (limit p))).
    { apply (finished_later _ _ i j WClear); [exact Hi | congruence | reflexivity]. }
    assert (Hset : deadlineSet t p →
                   deadlineSet t (mkPool (shared p) c1 (clock p) (journal p ++ lg)
                                         (<[i := atPc j WClear]> (jobs p))
                                         (reading p) (limit p))).
    { intros (t0 & ? & ?). now exists t0. }
    constructor; simpl; auto.
    + intros Hnil. apply (f_equal length) in Hnil. rewrite length_insert in Hnil.
      destruct (jobs p); [contradiction | discriminate].
    + intros j' Hone. destruct (insert_alone _ _ _ _ _ Hi Hone) as [Hjobs ->].
      destruct (Ha j Hjobs) as (Hp & Hd & Hs & Hst). rewrite Hpc in Hs, Hst.
      simpl. repeat split; auto.
      unfold submitBlob in Hsub. rewrite Hh, Hst, Hp, Hd in Hsub.
      injection Hsub as <- _. unfold afterSubmit. now rewrite handle_there.
    + rewrite (warned_app _ _ Hq'), length_insert. intros Hin.
      destruct (Hw Hin). auto.
    + rewrite length_insert.
      destruct (reading p); rewrite ?(warned_app _ _ Hq'); auto.
      intros Hno. destruct (Hr Hno) as [Hfd Hread]. split; [auto |].
        intros j' Hone. destruct (insert_alone _ _ _ _ _ Hi Hone) as [Hjobs _].
        exact (Hread j Hjobs).
  - (* isSaving = false *)
    intros [= <-].
    assert (Hfin : finished (mkPool (setSaving (shared p) false) (store p) (clock p)
                                    (journal p) (<[i := atPc j WDone]> (jobs p))
                                    (reading p) (limit p))).
    { apply (finished_here p _ i j); [exact Hi | reflexivity]. }
    assert (Hset : deadlineSet t p →
                   deadlineSet t (mkPool (setSaving (shared p) false) (store p) (clock p)
                                         (journal p) (<[i := atPc j WDone]> (jobs p))
                                         (reading p) (limit p))).
    { intros (t0 & ? & ?). now exists t0. }
    constructor; simpl; auto.
    + intros Hnil. apply (f_equal length) in Hnil. rewrite length_insert in Hnil.
      destruct (jobs p); [contradiction | discriminate].
    + intros j' Hone. destruct (insert_alone _ _ _ _ _ Hi Hone) as [Hjobs ->].
      destruct (Ha j Hjobs) as (Hp & Hd & Hs & Hst). rewrite Hpc in Hst.
      simpl. auto.
    + rewrite length_insert. intros Hin. destruct (Hw Hin). auto.
    + rewrite length_insert. destruct (reading p); auto.
      * destruct Hr as (? & ? & ?). repeat split; auto. discriminate.
      * intros Hno. destruct (Hr Hno) as [_ Hread]. split; [exact Hfin |].
        intros j' Hone. destruct (insert_alone _ _ _ _ _ Hi Hone) as [Hjobs _].
        exact (Hread j Hjobs).
Qed.

Lemma PoolInv_read p p' : PoolInv p → readStep rpath p = Some p' → PoolInv p'.
Proof.
  intros [Hh Hq Hf Ha Hn Hw Hr]. unfold readStep, readingAt.
  destruct (reading p) eqn:Hpc.
  - (* if (isSaving) *)
    intros [= <-]. constructor; simpl; auto.
    destruct (isSaving (shared p)) eqn:Hs; [exact Hr |].
    intros _. now apply Hf.
  - (* timeout = GetTickCount64() + 3000 *)
    intros [= <-]. constructor; simpl; auto.
    + intros Hin. contradiction.
    + split; [exact Hr |]. exists (clock p). simpl. split; [lia | reflexivity].
  - (* while (isSaving ... *)
    intros [= <-]. destruct Hr as [Hno Ht0]. constructor; simpl; auto.
    destruct (isSaving (shared p)) eqn:Hs; [auto |].
    repeat split; auto. discriminate.
  - (* ... && GetTickCount64() < timeout) *)
    intros [= <-]. destruct Hr as [Hno Ht0]. constructor; simpl; auto.
    destruct (decide (clock p < limit p)); [auto |].
    repeat split; auto. intros _. left. lia.
  - (* if (isSaving) logWarning *)
    intros [= <-]. destruct Hr as (Hno & Ht0 & Hlate).
    destruct (isSaving (shared p)) eqn:Hs; constructor; simpl; rewrite ?Hs; auto.
    intros Hnot. destruct Hnot. apply elem_of_app. right. apply list_elem_of_here.
  - (* GetAsync *)
    destruct (readBlob (shared p) rpath (store p)) as [[bytes lg] | |] eqn:Hread;
      try discriminate.
    intros [= <-]. pose proof (readBlob_quiet _ _ _ _ _ Hread) as Hq'.
    constructor; simpl; auto.
    + rewrite (warned_app _ _ Hq'). exact Hw.
    + rewrite (warned_app _ _ Hq'). intros Hno. specialize (Hr Hno).
      split; [exact Hr |]. intros j Hone. exists lg.
      destruct (Ha j Hone) as (_ & _ & Hs & Hst).
      destruct Hr as (j0 & Hin & Hdone). rewrite Hone in Hin.
      apply list_elem_of_singleton in Hin as ->. rewrite Hdone in Hst.
      rewrite <- Hread, Hst. apply readBlob_handle. now rewrite Hh.
  - discriminate.
Qed.

Lemma PoolInv_call pth dat commit p p' :
  PoolInv p → callSetData m pth dat commit p = Some p' → PoolInv p'.
Proof.
  intros [Hh Hq Hf Ha Hn Hw Hr]. unfold callSetData.
  destruct (setData m (shared p) pth dat commit) as [[s' [| | pth' dat' |]] | |] eqn:Hset;
    try discriminate.
  intros [= <-]. destruct (setData_queues _ _ _ _ _ _ _ Hh Hset) as (-> & -> & ->).
  assert (Hlen : (2 ≤ length (jobs p ++ [mkJob pth dat WSubmit]))%nat).
  { rewrite length_app. simpl. destruct (jobs p); [contradiction | simpl; lia]. }
  assert (Hfin : finished p →
                 finished (mkPool (setSaving (shared p) true) (store p) (clock p)
                                  (journal p) (jobs p ++ [mkJob pth dat WSubmit])
                                  (reading p) (limit p))).
  { intros (j & Hin & Hdone). exists j. split; [| exact Hdone].
    apply elem_of_app. now left. }
  assert (Hdl : deadlineSet t p →
                deadlineSet t (mkPool (setSaving (shared p) true) (store p) (clock p)
                                      (journal p) (jobs p ++ [mkJob pth dat WSubmit])
                                      (reading p) (limit p))).
  { intros (t0 & ? & ?). now exists t0. }
  assert (Hmany : ∀ j, jobs p ++ [mkJob pth dat WSubmit] ≠ [j]).
  { intros j Hone. apply (f_equal length) in Hone. simpl in Hone. lia. }
  constructor; simpl; auto.
  - intros Hnil. now apply app_nil in Hnil as [_ ?].
  - discriminate.
  - intros j Hone. now destruct (Hmany j).
  - intros Hin. destruct (Hw Hin). auto.
  - destruct (reading p); auto.
    + destruct Hr as (? & ? & ?). repeat split; auto.
    + intros Hno. destruct (Hr Hno) as [Hfd _]. split; [auto |].
      intros j Hone. now destruct (Hmany j).
Qed.

Lemma PoolInv_play moves : ∀ p p',
  PoolInv p → play m rpath moves p = Some p' → PoolInv p'.
Proof.
  induction moves as [| a moves IH]; intros p p' Hinv; cbn [play].
  - now intros [= <-].
  - destruct (move m rpath a p) as [p1 |] eqn:Hmove; [| discriminate].
    apply IH. destruct a; cbn [move] in Hmove.
    + exact (PoolInv_elapse _ _ _ Hinv Hmove).
    + exact (PoolInv_job _ _ _ Hinv Hmove).
    + exact (PoolInv_read _ _ Hinv Hmove).
    + exact (PoolInv_call _ _ _ _ _ Hinv Hmove).
Qed.

Lemma ends_after n extra p p1 :
  readStep rpath p = Some p1 →
  shared p1 = shared p → store p1 = store p → journal p1 = journal p →
  endsWithin m rpath n extra p1 → endsWithin m rpath (S n) extra p.
Proof.
  intros Hstep Hsh Hst Hj (n' & p' & bytes & lg & Hn & Hplay & Hdone & Hread & Hlog).
  exists (S n'), p', bytes, lg. split; [lia |]. split; [| split; [exact Hdone |]].
  - cbn [replicate play move]. now rewrite Hstep.
  - rewrite <- Hsh, <- Hst, <- Hj. auto.
Qed.

Lemma ends_weaken n n' extra p :
  (n ≤ n')%nat → endsWithin m rpath n extra p → endsWithin m rpath n' extra p.
Proof.
  intros Hle (n0 & p' & bytes & lg & Hn & Hrest).
  exists n0, p', bytes, lg. split; [lia | exact Hrest].
Qed.

Lemma ends_fetch p :
  gameSaveContainer (shared p) = Some k → reading p = RFetch → endsWithin m rpath 1 [] p.
Proof.
  intros Hh Hpc.
  destruct (readBlob_returns (shared p) k rpath (store p) Hh) as (bytes & lg & Hread).
  exists 1%nat, (mkPool (shared p) (store p) (clock p) (journal p ++ lg)
                        (jobs p) (RDone bytes) (limit p)), bytes, lg.
  split; [lia |]. split; [| split; [reflexivity | split; [exact Hread | reflexivity]]].
  cbn [replicate play move]. unfold readStep. now rewrite Hpc, Hread.
Qed.

Lemma ends_recheck p :
  gameSaveContainer (shared p) = Some k → reading p = RRecheck →
  endsWithin m rpath 2 (if isSaving (shared p) then [tooLong] else []) p.
Proof.
  intros Hh Hpc.
  destruct (readBlob_returns (shared p) k rpath (store p) Hh) as (bytes & lg & Hread).
  exists 2%nat,
    (mkPool (shared p) (store p) (clock p)
            ((if isSaving (shared p) then journal p ++ [tooLong] else journal p) ++ lg)
            (jobs p) (RDone bytes) (limit p)), bytes, lg.
  split; [lia |]. split; [| split; [reflexivity | split; [exact Hread |]]].
  - cbn [replicate play move]. unfold readStep at 1. rewrite Hpc.
    unfold readStep. cbn [reading shared store]. now rewrite Hread.
  - cbn [journal]. destruct (isSaving (shared p)); [| reflexivity].
    now rewrite <- app_assoc.
Qed.

Lemma ends_clock p :
  gameSaveContainer (shared p) = Some k → reading p = RSpinClock →
  limit p ≤ clock p →
  endsWithin m rpath 3 (if isSaving (shared p) then [tooLong] else []) p.
Proof.
  intros Hh Hpc Hlate.
  apply (ends_after _ _ _ (readingAt p RRecheck)); try reflexivity.
  - unfold readStep. rewrite Hpc. now rewrite decide_False by lia.
  - now apply (ends_recheck (readingAt p RRecheck)).
Qed.

Lemma ends_flag p :
  gameSaveContainer (shared p) = Some k → reading p = RSpinFlag →
  isSaving (shared p) = false ∨ limit p ≤ clock p →
  endsWithin m rpath 4 (if isSaving (shared p) then [tooLong] else []) p.
Proof.
  intros Hh Hpc Hgo.
  apply (ends_after _ _ _
           (readingAt p (if isSaving (shared p) then RSpinClock else RRecheck)));
    try reflexivity.
  - unfold readStep. now rewrite Hpc.
  - destruct (isSaving (shared p)) eqn:Hs.
    + destruct Hgo as [| Hlate]; [discriminate |].
      pose proof (ends_clock (readingAt p RSpinClock) Hh eq_refl Hlate) as Hends.
      cbn [readingAt shared] in Hends. now rewrite Hs in Hends.
    + pose proof (ends_recheck (readingAt p RRecheck) Hh eq_refl) as Hends.
      cbn [readingAt shared] in Hends. rewrite Hs in Hends.
      apply (ends_weaken 2); [lia | exact Hends].
Qed.

(** Once the flag is down or the deadline has passed, the reader leaves
    the loop and reads, in at most four steps of its own; it logs the
    warning on the way when it still finds the flag up. *)
Lemma spin_ends p :
  gameSaveContainer (shared p) = Some k →
  reading p = RSpinFlag ∨ reading p = RSpinClock →
  isSaving (shared p) = false ∨ limit p ≤ clock p →
  endsWithin m rpath 4 (if isSaving (shared p) then [tooLong] else []) p.
Proof.
  intros Hh [Hpc | Hpc] Hgo; [now apply ends_flag |].
  destruct (decide (clock p < limit p)) as [Hearly | Hlate].
  - destruct Hgo as [Hs | Hlate]; [| lia].
    apply (ends_after _ _ _ (readingAt p RSpinFlag)); try reflexivity.
    + unfold readStep. rewrite Hpc. now rewrite decide_True by lia.
    + rewrite Hs.
      apply (ends_after 2 [] (readingAt p RSpinFlag) (readingAt p RRecheck));
        try reflexivity.
      * unfold readStep. cbn [readingAt reading shared]. now rewrite Hs.
      * pose proof (ends_recheck (readingAt p RRecheck) Hh eq_refl) as Hends.
        cbn [readingAt shared] in Hends. now rewrite Hs in Hends.
  - apply (ends_weaken 3); [lia |]. apply ends_clock; [exact Hh | exact Hpc | lia].
Qed.


(** The one-write machine is the pool with one job: its runs are runs
    of the pool, move for move. *)
Lemma act_in_pool a c c' :
  act path data rpath a c = Some c' →
  move m rpath (asMove a) (asPool path data c) = Some (asPool path data c').
Proof.
  destruct a; cbn [act asMove move].
  - unfold tick, elapse. cbn [asPool clock]. destruct (decide _); [| discriminate].
    now intros [= <-].
  - unfold writerStep, jobStep. cbn [asPool jobs lookup list_lookup jobPc jobPath jobData].
    destruct (writer c); [| | discriminate].
    + cbn [shared store]. destruct (submitBlob _ _ _ _) as [[c1 lg] | |]; try discriminate.
      now intros [= <-].
    + now intros [= <-].
  - unfold readerStep, readStep. cbn [asPool reading shared store].
    destruct (reader c); try discriminate; try (now intros [= <-]).
    destruct (readBlob _ _ _) as [[bytes lg] | |]; try discriminate.
    now intros [= <-].
Qed.

Lemma run_in_pool sched : ∀ c c',
  run path data rpath sched c = Some c' →
  play m rpath (asMove <$> sched) (asPool path data c) = Some (asPool path data c').
Proof.
  induction sched as [| a sched IH]; intros c c'; cbn [run].
  - now intros [= <-].
  - destruct (act path data rpath a c) as [c1 |] eqn:Hact; [| discriminate].
    intros Hrun. rewrite fmap_cons. cbn [play].
    rewrite (act_in_pool _ _ _ Hact). now apply IH.
Qed.

Lemma inFlight_in_pool :
  asPool path data (inFlight s cl t) = writeInFlight s cl t path data.
Proof. reflexivity. Qed.

End Pooled.

Lemma patient_run :
  play Sim.online "blob" Sim.patient
       (writeInFlight Sim.slot Sim.empty 1000 "blob" Sim.payload)
  = Some Sim.waited.
Proof. vm_compute. reflexivity. Qed.

Lemma impatient_run :
  play Sim.online "blob" Sim.impatient
       (writeInFlight Sim.slot Sim.empty 1000 "blob" Sim.payload)
  = Some Sim.gaveUp.
Proof. vm_compute. reflexivity. Qed.

Lemma overtaken_run :
  play Sim.online "blob" Sim.overtaken
       (writeInFlight Sim.slot Sim.empty 1000 "blob" Sim.payload)
  = Some Sim.released.
Proof. vm_compute. reflexivity. Qed.

Lemma raisedAgain_run :
  play Sim.online "blob" Sim.raisedAgain
       (writeInFlight Sim.slot Sim.empty 1000 "blob" Sim.payload)
  = Some Sim.warnedEarly.
Proof. vm_compute. reflexivity. Qed.



(** With a second write, the warning can come before the deadline: on
    the schedule [Sim.raisedAgain] the reader leaves its loop because
    the flag is down, the second [setData] raises it again, and the
    test after the loop logs the warning, at tick 1000 with the deadline
    at 4000. *)
Example warning_before_the_deadline :
  ∃ p, play Sim.online "blob" Sim.raisedAgain
            (writeInFlight Sim.slot Sim.empty 1000 "blob" Sim.payload) = Some p
       ∧ journal p = [tooLong] ∧ clock p = 1000 ∧ limit p = 4000.
Proof.
  exists Sim.warnedEarly. split; [exact raisedAgain_run |]. repeat split.
Qed.

(** ** The percentage

    Conversions round: 2^24 + 1 is not a [float], and neither is
    99999999. *)

Example float_of_int_exact : float_of_int 16777216 = inject_Z 16777216.
Proof. reflexivity. Qed.

Example float_of_int_rounds_down : float_of_int 16777217 = inject_Z 16777216.
Proof. reflexivity. Qed.

Example float_of_int_rounds_up : float_of_int 99999999 = inject_Z 100000000.
Proof. reflexivity. Qed.

Example progressPercent_third : progressPercent 1 3 = Some 33.
Proof. reflexivity. Qed.

Example progressPercent_negative : progressPercent (-1) 3 = Some (-34).
Proof. reflexivity. Qed.

Example progressPercent_zero_divisor : progressPercent 7 0 = None.
Proof. reflexivity. Qed.

Example progressPercent_overshoot :
  progressPercent 100999999 100000000 = Some 101
  ∧ exactPercent 100999999 100000000 = 100.
Proof. split; reflexivity. Qed.

Lemma roundEven_floor_le q : Qfloor q ≤ roundEven q.
Proof.
  unfold roundEven. destruct (Qcompare _ _); [destruct (Z.even _) | |]; lia.
Qed.

Lemma round32_one (x : Q) : (x == 1)%Q → round32 x = 1%Q.
Proof.
  intros Hx. unfold round32.
  rewrite (Qcompare_comp x 1%Q Hx 0%Q 0%Q (Qeq_refl 0%Q)). change ((1 ?= 0)%Q) with Gt. cbv iota.
  assert (Hnum : Qnum x = Zpos (Qden x)).
  { unfold Qeq in Hx. simpl in Hx. lia. }
  assert (Hlog : ilog2 x = 0).
  { unfold ilog2. rewrite Hnum, Z.sub_diag. change (Qpower 2 0) with 1%Q.
    rewrite (proj2 (Qle_bool_iff 1%Q x)); [reflexivity |]. rewrite Hx. apply Qle_refl. }
  unfold roundPos. rewrite Hlog. change (Qpower 2 (0 - 23)) with (1 # 8388608)%Q.
  assert (Hscaled : (x / (1 # 8388608) == inject_Z 8388608)%Q).
  { rewrite Hx. reflexivity. }
  assert (Hfloor : Qfloor (x / (1 # 8388608)) = 8388608)
    by (rewrite Hscaled; apply Qfloor_Z).
  assert (Hcmp : (x / (1 # 8388608) - inject_Z 8388608 ?= 1 # 2)%Q = Lt)
    by (rewrite Hscaled; reflexivity).
  unfold roundEven. cbv zeta. rewrite Hfloor, Hcmp. reflexivity.
Qed.

Lemma float_of_int_pos n : 0 < n → (0 < float_of_int n)%Q.
Proof.
  intros Hn. unfold float_of_int, round32.
  assert (Hq : (0 < inject_Z n)%Q) by (unfold Qlt; simpl; lia).
  rewrite (proj1 (Qgt_alt _ _) Hq).
  assert (He : ilog2 (inject_Z n) = Z.log2 n).
  { unfold ilog2. simpl. rewrite Z.sub_0_r.
    rewrite (proj2 (Qle_bool_iff _ _)); [reflexivity |].
    rewrite <- (Zpower_Qpower 2 (Z.log2 n)) by apply Z.log2_nonneg.
    rewrite <- Zle_Qle. apply Z.log2_spec. exact Hn. }
  unfold roundPos. rewrite He.
  set (u := Qpower 2 (Z.log2 n - 23)).
  assert (Hu : (0 < u)%Q) by (apply Qpower_0_lt; reflexivity).
  assert (Hle : (u <= inject_Z n)%Q).
  { apply Qle_trans with (Qpower 2 (Z.log2 n)).
    - apply Qpower_le_compat_l; [lia | discriminate].
    - rewrite <- (Zpower_Qpower 2 (Z.log2 n)) by apply Z.log2_nonneg.
      rewrite <- Zle_Qle. apply Z.log2_spec. exact Hn. }
  assert (Hone : 1 ≤ roundEven (inject_Z n / u)).
  { etransitivity; [| apply roundEven_floor_le].
    change 1 with (Qfloor 1). apply Qfloor_resp_le.
    apply Qle_shift_div_l; [exact Hu |]. now rewrite Qmult_1_l. }
  rewrite Qred_correct. apply Qmult_lt_0_compat; [| exact Hu].
  unfold Qlt. simpl. lia.
Qed.

(** Full progress is reported as full: whenever the
    progress equals a positive maximum, the percentage is 100. *)
Lemma progressPercent_full n : 0 < n → progressPercent n n = Some 100.
Proof.
  intros Hn. unfold progressPercent.
  pose proof (float_of_int_pos n Hn) as Hpos.
  destruct (Qeq_bool (float_of_int n) 0) eqn:Hz.
  - apply Qeq_bool_eq in Hz. rewrite Hz in Hpos. discriminate Hpos.
  - rewrite (round32_one (float_of_int n / float_of_int n)).
    + reflexivity.
    + apply Qmult_inv_r. intros Hz'. rewrite Hz' in Hpos. discriminate Hpos.
Qed.

Section Progress.

Context `{plat : Platform}.

(** C10 (amended).  While the user handle or the live-services context
    is null, [setAchievementProgress] sends nothing, changes nothing
    and reports nothing.  When both are there, it sends the percentage
    it computes in single precision; when the service has answered, the
    cached flag of the id is set to true if the update succeeded and
    that percentage is 100, and the cache is left alone otherwise. *)
Theorem C10_progress_update_follows_session
    (achievementId : string) (currentProgress maximumValue : Z) (m : XBLManager) :
  (xboxUser m = None ∨ xboxLiveContext m = None →
     setAchievementProgress achievementId currentProgress maximumValue m = Returns None)
  ∧ (∀ u progress,
       xboxUser m = Some u → is_Some (xboxLiveContext m) →
       progressPercent currentProgress maximumValue = Some progress →
       setAchievementProgress achievementId currentProgress maximumValue m
       = Returns (Some {| up_user := xbox_user_id u;
                          up_id := to_string_t achievementId;
                          up_progress := progress |})
       ∧ ∀ (m' : XBLManager) (result : xbox_live_result unit),
           (progress = 100 → ∀ done, result = result_ok done →
              achievementUpdated achievementId progress result m'
              = (withAchievementStatus m'
                   (<[to_string_t achievementId := true]> (achievementStatus m')), []))
           ∧ (progress ≠ 100 → ∀ done, result = result_ok done →
              achievementUpdated achievementId progress result m' = (m', []))
           ∧ (∀ value msg, result = result_err value msg →
              fst (achievementUpdated achievementId progress result m') = m')).
Proof.
  split.
  - intros Hnull. unfold setAchievementProgress.
    destruct (xboxUser m), (xboxLiveContext m); destruct Hnull; congruence.
  - intros u progress Hu [ctx Hctx] Hp. split.
    + unfold setAchievementProgress. now rewrite Hu, Hctx, Hp.
    + intros m' result. unfold achievementUpdated. split; [| split].
      * intros -> done ->. reflexivity.
      * intros Hne done ->. now rewrite decide_False by exact Hne.
      * intros value msg ->. reflexivity.
Qed.

End Progress.

Lemma C10_witness :
  (xboxUser Sim.offline = None ∨ xboxLiveContext Sim.offline = None)
  ∧ setAchievementProgress "medal" 1 1 Sim.offline = Returns None
  ∧ xboxUser Sim.online = Some Sim.player
  ∧ is_Some (xboxLiveContext Sim.online)
  ∧ progressPercent 3 3 = Some 100
  ∧ setAchievementProgress "medal" 3 3 Sim.online
    = Returns (Some {| up_user := xbox_user_id Sim.player;
                       up_id := to_string_t "medal";
                       up_progress := 100 |}).
Proof.
  assert (Hnull : xboxUser Sim.offline = None ∨ xboxLiveContext Sim.offline = None)
    by (left; reflexivity).
  assert (Hu : xboxUser Sim.online = Some Sim.player) by reflexivity.
  assert (Hc : is_Some (xboxLiveContext Sim.online)) by (eexists; reflexivity).
  assert (Hp : progressPercent 3 3 = Some 100) by (vm_compute; reflexivity).
  split; [exact Hnull |].
  split; [exact (proj1 (C10_progress_update_follows_session "medal" 1 1 Sim.offline)
                   Hnull) |].
  split; [exact Hu |]. split; [exact Hc |]. split; [exact Hp |].
  exact (proj1 (proj2 (C10_progress_update_follows_session "medal" 3 3 Sim.online)
                  Sim.player 100 Hu Hc Hp)).
Defined.

(** C10, with the percentage taken exactly, fails on large numbers.
    With 99999999 out of 100000000 the exact percentage is 99, but both
    numbers convert to the same [float], the code computes 100, and a
    successful update sets the cached flag. *)
Lemma C10_counterexample :
  exactPercent 99999999 100000000 = 99
  ∧ setAchievementProgress "medal" 99999999 100000000 Sim.online
    = Returns (Some {| up_user := xbox_user_id Sim.player;
                       up_id := to_string_t "medal";
                       up_progress := 100 |})
  ∧ achievementStatus
      (fst (achievementUpdated "medal" 100 (result_ok ()) Sim.online))
    !! to_string_t "medal" = Some true.
Proof.
  split; [reflexivity |]. split; [vm_compute; reflexivity |].
  simpl. apply lookup_insert_eq.
Qed.

(** ** The model at work on the simulated platform *)

Example pages_fill_the_cache :
  ∃ m lg, achievementsRetrieved Sim.twoPages Sim.retrieving = Returns (m, lg)
          ∧ achievementsStatus m = Ready
          ∧ achievementStatus m !! Sim.narrowToWide "1" = Some true
          ∧ achievementStatus m !! Sim.narrowToWide "2" = Some false
          ∧ achievementStatus m !! Sim.narrowToWide "3" = Some false
          ∧ length lg = 3%nat.
Proof. eexists _, _. split; [reflexivity |]. repeat split. Qed.

Example broken_page_resets_the_status :
  ∃ m lg, achievementsRetrieved Sim.brokenPages Sim.retrieving = Returns (m, lg)
          ∧ achievementsStatus m = Uninitialized
          ∧ achievementStatus m !! Sim.narrowToWide "1" = Some true.
Proof. eexists _, _. split; [reflexivity |]. repeat split. Qed.

Example privileges_become_capabilities :
  ∃ data,
    tokenReceived (plat := Sim.platform)
      (result_ok {| tk_privileges := Sim.narrowToWide "254 188 247";
                    tk_gamertag := Sim.narrowToWide "Ada";
                    tk_xbox_user_id := Sim.narrowToWide "2533274";
                    tk_token := Sim.narrowToWide "XBL3.0" |})
    = (AuthToken data (mkCapabilities true true), [])
    ∧ data !! "gamertag"%string = Some "Ada"%string
    ∧ data !! "userId"%string = Some "2533274"%string
    ∧ data !! "token"%string = Some "XBL3.0"%string.
Proof. eexists. split; [reflexivity |]. repeat split. Qed.

Example registry_run :
  ∃ w, getSaveContainers ["a"; ""; "a"; "save"]%string (emptyWorld Sim.online)
       = Returns ([0; 1; 0; 2]%nat, w)
       ∧ containerName <$> heap w = ["a"; "save"; "save"]%string.
Proof. eexists. split; reflexivity. Qed.

Example served_in_time :
  isAchievementUnlocked Sim.served 8 "1" false = Some (true, [])
  ∧ isAchievementUnlocked Sim.served 8 "2" false = Some (false, [])
  ∧ isAchievementUnlocked Sim.served 8 "2" true = Some (true, []).
Proof. repeat split. Qed.

Example out_of_fuel :
  isAchievementUnlocked Sim.stalled 3 "1" true = None.
Proof. reflexivity. Qed.

Example high_bytes_widen :
  to_string_t (String (Ascii.ascii_of_nat 233) "A") = [65513; 65].
Proof. reflexivity. Qed.

(** * Further properties *)

Section Lifecycle.

Context `{plat : Platform}.

(** X1.  A readiness test leaves the object in a state that later tests
    do not change: once a handle is there it is kept for as long as the
    manager is seen connected, whatever provider the manager has by
    then; and an object seen while not connected stays without a handle
    for as long as the manager is seen not connected. *)
Theorem X1_readiness_is_stable (m m' : XBLManager) (s s1 : XBLSaveData) (ready : bool) :
  isReady m s = Returns (ready, s1) →
  (status m = Connected ↔ status m' = Connected) →
  (ready = true ↔ status m = Connected)
  ∧ isReady m' s1 = Returns (ready, s1).
Proof.
  intros Hr Hsame. destruct (decide (status m = Connected)) as [Hc | Hc].
  - assert (Hc' : status m' = Connected) by tauto.
    destruct (established m s) as [c |] eqn:He.
    + rewrite (isReady_online m s c Hc He) in Hr. injection Hr as <- <-.
      split; [tauto |].
      now rewrite (isReady_online m' (setContainer s (Some c)) c Hc' eq_refl).
    + exfalso. unfold established in He.
      destruct (gameSaveContainer s) eqn:Hh; [discriminate |].
      destruct (gameSaveProvider m) eqn:Hp; [discriminate |].
      unfold isReady, updateContainer, getStatus, createFromProvider, getProvider in Hr.
      rewrite decide_True, Hh, Hp in Hr by exact Hc. discriminate Hr.
  - assert (Hc' : status m' ≠ Connected) by tauto.
    rewrite (isReady_offline m s Hc) in Hr. injection Hr as <- <-.
    split; [split; [discriminate | contradiction] |].
    now rewrite (isReady_offline m' _ Hc').
Qed.

(** X2.  A readiness test made while the manager is not connected drops
    the handle, and the next test made while it is connected makes a
    new one from the provider the manager has then: across a
    disconnection that was seen, the object ends as [recreate] would
    leave it. *)
Theorem X2_seen_disconnection_renews_handle
    (off on : XBLManager) (p : GameSaveProvider) (s : XBLSaveData) :
  status off ≠ Connected →
  status on = Connected →
  gameSaveProvider on = Some p →
  ∃ s0, isReady off s = Returns (false, s0)
        ∧ gameSaveContainer s0 = None
        ∧ isReady on s0 = Returns (true, recreatedFrom p s)
        ∧ recreate on s = Returns (recreatedFrom p s).
Proof.
  intros Hoff Hon Hp. exists (setContainer s None).
  split; [now apply isReady_offline |]. split; [reflexivity |]. split.
  - rewrite (isReady_online on (setContainer s None)
               (CreateContainer p (getUTF16 (containerName s))) Hon);
      [reflexivity |]. unfold established. simpl. now rewrite Hp.
  - unfold recreate, createFromProvider, getProvider. now rewrite Hp.
Qed.

(** X3.  The registry is keyed by the name as given, the object by the
    name as normalized: the empty name and "save" are two entries and
    two objects, but the objects are equal in every field, so both
    work on the same container of the store. *)
Theorem X3_empty_name_shares_the_save_container (w : World) :
  registrySound w →
  providerReady (manager w) →
  saveStorage (manager w) !! ""%string = None →
  saveStorage (manager w) !! "save"%string = None →
  ∃ a b w1 w2 s,
    getSaveContainer "" w = Returns (a, w1)
    ∧ getSaveContainer "save" w1 = Returns (b, w2)
    ∧ a ≠ b
    ∧ heap w2 !! a = Some s
    ∧ heap w2 !! b = Some s
    ∧ containerName s = "save"%string.
Proof.
  intros Hsound Hready Hnone1 Hnone2.
  destruct (getSaveContainer_fresh "" w Hready Hnone1) as (s & Hs & Hg1).
  set (w1 := mkWorld (withSaveStorage (manager w)
                        (<[""%string := length (heap w)]> (saveStorage (manager w))))
                     (heap w ++ [s])) in *.
  assert (Hnone2' : saveStorage (manager w1) !! "save"%string = None).
  { simpl. rewrite lookup_insert_ne by discriminate. exact Hnone2. }
  destruct (getSaveContainer_fresh "save" w1 Hready Hnone2') as (s' & Hs' & Hg2).
  assert (s' = s) as ->.
  { change (newSaveData (manager w) "save" = Returns s') in Hs'.
    unfold newSaveData in Hs, Hs'. change (normalizeName "") with "save"%string in Hs.
    change (normalizeName "save") with "save"%string in Hs'. congruence. }
  eexists _, _, _, _, s. split; [exact Hg1 |]. split; [exact Hg2 |].
  simpl. rewrite length_app. simpl. split; [lia |]. split; [| split].
  - rewrite lookup_app_l by (rewrite length_app; simpl; lia).
    rewrite lookup_app_r by lia. now rewrite Nat.sub_diag.
  - rewrite lookup_app_r by (rewrite length_app; simpl; lia).
    rewrite length_app. simpl. now replace (_ - _)%nat with 0%nat by lia.
  - unfold newSaveData in Hs. apply updateContainer_name in Hs. exact Hs.
Qed.

End Lifecycle.

Lemma X1_witness :
  isReady Sim.online (Sim.unopened "x") = Returns (true, mkSaveData "x" (Some (Sim.handle 1 "x")) false)
  ∧ (status Sim.online = Connected ↔ status Sim.retrieving = Connected)
  ∧ isReady Sim.retrieving (mkSaveData "x" (Some (Sim.handle 1 "x")) false)
    = Returns (true, mkSaveData "x" (Some (Sim.handle 1 "x")) false).
Proof.
  assert (Hr : isReady Sim.online (Sim.unopened "x")
               = Returns (true, mkSaveData "x" (Some (Sim.handle 1 "x")) false))
    by reflexivity.
  assert (Hs : status Sim.online = Connected ↔ status Sim.retrieving = Connected)
    by (split; reflexivity).
  split; [exact Hr |]. split; [exact Hs |].
  exact (proj2 (X1_readiness_is_stable Sim.online Sim.retrieving _ _ _ Hr Hs)).
Defined.

Lemma X2_witness :
  status Sim.offline ≠ Connected
  ∧ status Sim.online = Connected
  ∧ gameSaveProvider Sim.online = Some 1%nat
  ∧ ∃ s0, isReady Sim.offline Sim.slot = Returns (false, s0)
          ∧ isReady Sim.online s0
            = Returns (true, recreatedFrom (plat := Sim.platform) 1%nat Sim.slot).
Proof.
  assert (H1 : status Sim.offline ≠ Connected) by discriminate.
  assert (H2 : status Sim.online = Connected) by reflexivity.
  assert (H3 : gameSaveProvider Sim.online = Some 1%nat) by reflexivity.
  split; [exact H1 |]. split; [exact H2 |]. split; [exact H3 |].
  destruct (X2_seen_disconnection_renews_handle Sim.offline Sim.online 1%nat Sim.slot
              H1 H2 H3) as (s0 & Ha & _ & Hb & _).
  exists s0. split; [exact Ha | exact Hb].
Defined.

Lemma X3_witness :
  registrySound (emptyWorld Sim.online)
  ∧ providerReady (manager (emptyWorld Sim.online))
  ∧ saveStorage (manager (emptyWorld Sim.online)) !! ""%string = None
  ∧ saveStorage (manager (emptyWorld Sim.online)) !! "save"%string = None
  ∧ ∃ a b w1 w2 s,
      getSaveContainer "" (emptyWorld Sim.online) = Returns (a, w1)
      ∧ getSaveContainer "save" w1 = Returns (b, w2)
      ∧ a ≠ b
      ∧ heap w2 !! a = Some s
      ∧ heap w2 !! b = Some s
      ∧ containerName s = "save"%string.
Proof.
  assert (H1 : registrySound (emptyWorld Sim.online)) by apply emptyWorld_sound.
  assert (H2 : providerReady (manager (emptyWorld Sim.online)))
    by (intros _; eexists; reflexivity).
  assert (H3 : saveStorage (manager (emptyWorld Sim.online)) !! ""%string = None)
    by reflexivity.
  assert (H4 : saveStorage (manager (emptyWorld Sim.online)) !! "save"%string = None)
    by reflexivity.
  split; [exact H1 |]. split; [exact H2 |]. split; [exact H3 |]. split; [exact H4 |].
  exact (X3_empty_name_shares_the_save_container (emptyWorld Sim.online) H1 H2 H3 H4).
Defined.

Section Store.

Context `{plat : Platform}.

Lemma submit_then_read s c path data cl :
  gameSaveContainer s = Some c →
  keepsUpdates →
  fst (SubmitUpdatesAsync cl c [(getUTF16 path, data)] []) = Ok →
  submitBlob s path data cl = Returns (afterSubmit s path data cl, [])
  ∧ readBlob s path (afterSubmit s path data cl) = Returns (data, []).
Proof.
  intros Hh Hkeeps Hok. destruct (Hkeeps cl c (getUTF16 path) data Hok) as [Hst Hget].
  unfold submitBlob, readBlob, afterSubmit. rewrite Hh.
  rewrite decide_True by exact Hok. split; [reflexivity |].
  rewrite decide_True by exact Hst. now rewrite Hget.
Qed.

(** X4.  On a store that keeps what it accepts, a blob written by the
    job of [setData] and accepted is what the job of [getData] reads
    back under the same path, and neither job logs anything; on a store
    that forgets what it deletes, after an accepted [removeData] job
    the read finds no bytes. *)
Theorem X4_written_blob_is_read_back
    (s : XBLSaveData) (c : GameSaveContainer) (path : string) (data : Bytes) (cl : Cloud) :
  gameSaveContainer s = Some c →
  (keepsUpdates →
   fst (SubmitUpdatesAsync cl c [(getUTF16 path, data)] []) = Ok →
   ∃ cl', submitBlob s path data cl = Returns (cl', [])
          ∧ readBlob s path cl' = Returns (data, []))
  ∧ (forgetsDeleted →
     fst (SubmitUpdatesAsync cl c [] [getUTF16 path]) = Ok →
     ∃ cl', deleteBlob s path cl = Returns (cl', [])
            ∧ readBlob s path cl' = Returns ([], [])).
Proof.
  intros Hh. split.
  - intros Hkeeps Hok. exists (afterSubmit s path data cl).
    now apply (submit_then_read s c).
  - intros Hforgets Hok. destruct (Hforgets cl c (getUTF16 path) Hok) as [Hst Hget].
    eexists. unfold deleteBlob, readBlob. rewrite Hh.
    rewrite decide_True by exact Hok. split; [reflexivity |].
    rewrite decide_True by exact Hst. now rewrite Hget.
Qed.

(** X5.  The job of [getData] never throws on a missing key or a failed
    request: with a handle in place it always returns.  It returns
    bytes other than the empty sequence only when the store answered Ok
    and holds exactly those bytes under the key, and it logs an error
    exactly when the store did not answer Ok. *)
Theorem X5_read_returns_what_the_store_holds
    (s : XBLSaveData) (c : GameSaveContainer) (path : string) (cl : Cloud) :
  gameSaveContainer s = Some c →
  ∃ bytes lg,
    readBlob s path cl = Returns (bytes, lg)
    ∧ (bytes ≠ [] →
       fst (GetAsync cl c [getUTF16 path]) = Ok
       ∧ snd (GetAsync cl c [getUTF16 path]) !! getUTF16 path = Some bytes)
    ∧ (lg = [] ↔ fst (GetAsync cl c [getUTF16 path]) = Ok)
    ∧ (snd (GetAsync cl c [getUTF16 path]) !! getUTF16 path = None → bytes = []).
Proof.
  intros Hh. unfold readBlob. rewrite Hh.
  destruct (decide (fst (GetAsync cl c [getUTF16 path]) = Ok)) as [Hok | Hno].
  - destruct (snd (GetAsync cl c [getUTF16 path]) !! getUTF16 path) as [b |] eqn:Hb.
    + exists b, []. repeat split; auto; discriminate.
    + exists [], []. repeat split; auto; congruence.
  - eexists [], _. split; [reflexivity |]. repeat split; try congruence.
Qed.

End Store.

Section Jobs.

Context `{plat : Platform}.

Variables (wpath : string) (wdata : Bytes) (rpath : string).

Local Abbreviation run' := (run wpath wdata rpath).

Lemma run_app sched1 : ∀ sched2 c,
  run' (sched1 ++ sched2) c
  = match run' sched1 c with
    | Some c' => run' sched2 c'
    | None => None
    end.
Proof.
  induction sched1 as [| a sched1 IH]; intros sched2 c; [reflexivity |].
  cbn [app run]. destruct (act wpath wdata rpath a c); [apply IH | reflexivity].
Qed.

(** X6.  The write job finishes in two steps whether or not the store
    accepts the update: it drops [isSaving] in either case, logs an
    error exactly when the update was not accepted, and touches neither
    the clock nor the reader. *)
Theorem X6_write_job_always_drops_the_flag (c : Config) (k : GameSaveContainer) :
  gameSaveContainer (obj c) = Some k →
  writer c = WSubmit →
  let answer := SubmitUpdatesAsync (cloud c) k [(getUTF16 wpath, wdata)] [] in
  ∃ c', run' [WriterStep; WriterStep] c = Some c'
        ∧ writer c' = WDone
        ∧ isSaving (obj c') = false
        ∧ gameSaveContainer (obj c') = Some k
        ∧ cloud c' = snd answer
        ∧ (fst answer = Ok → logged c' = logged c)
        ∧ (fst answer ≠ Ok →
           logged c' = logged c ++ [logError [Str "Error saving Blob '"; Str wpath;
                                              Str "': "; Status (fst answer)]])
        ∧ now c' = now c ∧ reader c' = reader c ∧ timeout c' = timeout c
        ∧ run' [WriterStep; WriterStep; WriterStep] c = None.
Proof.
  intros Hh Hpc answer.
  set (lg := if decide (fst answer = Ok) then []
             else [logError [Str "Error saving Blob '"; Str wpath;
                             Str "': "; Status (fst answer)]]).
  set (c1 := mkConfig (obj c) (snd answer) (now c) (logged c ++ lg)
                      WClear (reader c) (timeout c)).
  set (c2 := mkConfig (setSaving (obj c) false) (snd answer) (now c) (logged c ++ lg)
                      WDone (reader c) (timeout c)).
  assert (H1 : writerStep wpath wdata c = Some c1).
  { unfold writerStep. rewrite Hpc. unfold submitBlob. now rewrite Hh. }
  assert (H2 : writerStep wpath wdata c1 = Some c2) by reflexivity.
  assert (H3 : writerStep wpath wdata c2 = None) by reflexivity.
  exists c2. cbn [run act]. rewrite H1, H2, H3.
  split; [reflexivity |]. simpl. repeat split; auto.
  - intros Hok. unfold lg. rewrite decide_True by exact Hok. apply app_nil_r.
  - intros Hno. unfold lg. now rewrite decide_False by exact Hno.
Qed.

End Jobs.

Section ReadYourWrite.

Context `{plat : Platform}.

Variables (s : XBLSaveData) (k : GameSaveContainer) (cl : Cloud) (t : Z).

Hypothesis handle_there : gameSaveContainer s = Some k.


Variables (wpath : string) (wdata : Bytes) (rpath : string).

Local Abbreviation run' := (run wpath wdata rpath).
Local Abbreviation finishes c :=
  (∃ sched c' bytes,
     Forall (λ a, a ≠ WriterStep) sched
     ∧ run' sched c = Some c' ∧ reader c' = RDone bytes).

Lemma finishes_after a c c1 :
  a ≠ WriterStep → act wpath wdata rpath a c = Some c1 → finishes c1 → finishes c.
Proof.
  intros Ha Hact (sched & c' & bytes & Hall & Hrun & Hdone).
  exists (a :: sched), c', bytes. split; [now constructor |].
  cbn [run]. now rewrite Hact.
Qed.

Lemma finishes_from_fetch c :
  gameSaveContainer (obj c) = Some k → reader c = RFetch → finishes c.
Proof.
  intros Hh Hpc.
  destruct (readBlob_returns (obj c) k rpath (cloud c) Hh) as (bytes & lg & Hread).
  eapply (finishes_after ReaderStep); [discriminate | |].
  - cbn [act]. unfold readerStep. now rewrite Hpc, Hread.
  - eexists [], _, bytes. split; [constructor |]. split; reflexivity.
Qed.

Lemma finishes_from_recheck c :
  gameSaveContainer (obj c) = Some k → reader c = RRecheck → finishes c.
Proof.
  intros Hh Hpc. eapply (finishes_after ReaderStep); [discriminate | |].
  - cbn [act]. unfold readerStep. now rewrite Hpc.
  - now apply finishes_from_fetch.
Qed.

Lemma finishes_from_clock c :
  gameSaveContainer (obj c) = Some k → timeout c < 2 ^ 64 →
  reader c = RSpinClock → finishes c.
Proof.
  intros Hh Hto Hpc. destruct (decide (now c < timeout c)) as [Hearly | Hlate].
  - eapply (finishes_after (Tick (timeout c - now c))); [discriminate | |].
    + cbn [act]. unfold tick. rewrite decide_True by lia. reflexivity.
    + eapply (finishes_after ReaderStep); [discriminate | |].
      * cbn [act]. unfold readerStep. cbn [reader]. rewrite Hpc. reflexivity.
      * apply finishes_from_recheck; [exact Hh |]. unfold readerAt. cbn.
        rewrite decide_False by lia. reflexivity.
  - eapply (finishes_after ReaderStep); [discriminate | |].
    + cbn [act]. unfold readerStep. now rewrite Hpc.
    + apply finishes_from_recheck; [exact Hh |]. unfold readerAt. cbn.
      now rewrite decide_False by exact Hlate.
Qed.

Lemma finishes_from_flag c :
  gameSaveContainer (obj c) = Some k → timeout c < 2 ^ 64 →
  reader c = RSpinFlag → finishes c.
Proof.
  intros Hh Hto Hpc. eapply (finishes_after ReaderStep); [discriminate | |].
  - cbn [act]. unfold readerStep. now rewrite Hpc.
  - unfold readerAt. destruct (isSaving (obj c)).
    + now apply finishes_from_clock.
    + now apply finishes_from_recheck.
Qed.

Lemma finishes_from_deadline c :
  gameSaveContainer (obj c) = Some k → reader c = RDeadline → finishes c.
Proof.
  intros Hh Hpc. eapply (finishes_after ReaderStep); [discriminate | |].
  - cbn [act]. unfold readerStep. now rewrite Hpc.
  - apply finishes_from_flag; [exact Hh | | reflexivity].
    cbn. unfold wrap64. apply Z.mod_pos_bound. reflexivity.
Qed.

Lemma finishes_from_test c :
  gameSaveContainer (obj c) = Some k → reader c = RTest → finishes c.
Proof.
  intros Hh Hpc. eapply (finishes_after ReaderStep); [discriminate | |].
  - cbn [act]. unfold readerStep. now rewrite Hpc.
  - unfold readerAt. destruct (isSaving (obj c)).
    + now apply finishes_from_deadline.
    + now apply finishes_from_fetch.
Qed.

(** X8.  The read job cannot be held up for good: from every
    configuration that the two jobs can reach, steps of the reader and
    the passing of time alone bring the read to its end, whether or not
    the write job ever runs again. *)
Theorem X8_read_job_can_always_finish (sched0 : list Action) (c : Config) :
  run' sched0 (inFlight s cl t) = Some c →
  ∃ sched c' bytes,
    Forall (λ a, a ≠ WriterStep) sched
    ∧ run' (sched0 ++ sched) (inFlight s cl t) = Some c'
    ∧ reader c' = RDone bytes
    ∧ writer c' = writer c.
Proof.
  intros Hrun.
  pose proof (Inv_run s k cl t wpath wdata rpath handle_there sched0 _ _
                (Inv_start s k cl t wpath wdata rpath handle_there) Hrun) as Hinv.
  pose proof (inv_handle _ _ _ _ _ _ _ _ Hinv) as Hh.
  pose proof (inv_reader _ _ _ _ _ _ _ _ Hinv) as Hr.
  assert (Hfin : finishes c).
  { destruct (reader c) eqn:Hpc.
    - now apply finishes_from_test.
    - now apply finishes_from_deadline.
    - destruct Hr as (_ & t0 & _ & Hto). apply finishes_from_flag; auto.
      rewrite Hto. apply Z.mod_pos_bound. reflexivity.
    - destruct Hr as (_ & t0 & _ & Hto). apply finishes_from_clock; auto.
      rewrite Hto. apply Z.mod_pos_bound. reflexivity.
    - now apply finishes_from_recheck.
    - now apply finishes_from_fetch.
    - exists [], c, result. split; [constructor |]. split; [reflexivity | exact Hpc]. }
  destruct Hfin as (sched & c' & bytes & Hall & Hmore & Hdone).
  exists sched, c', bytes. split; [exact Hall |].
  rewrite run_app, Hrun. split; [exact Hmore |]. split; [exact Hdone |].
  clear - Hall Hmore. revert c Hmore.
  induction Hall as [| a sched Ha _ IH]; intros c; cbn [run].
  - now intros [= <-].
  - destruct (act wpath wdata rpath a c) as [c1 |] eqn:Hact; [| discriminate].
    intros Hmore. rewrite (IH c1 Hmore). destruct a; cbn [act] in Hact.
    + unfold tick in Hact. destruct (decide _); [| discriminate].
      now injection Hact as <-.
    + contradiction.
    + unfold readerStep, readerAt in Hact.
      destruct (reader c); try discriminate; try (now injection Hact as <-).
      destruct (readBlob _ _ _) as [[? ?] | |]; try discriminate.
      now injection Hact as <-.
Qed.

End ReadYourWrite.

(** The simulated store keeps what it accepts and forgets what it
    deletes. *)
Lemma Sim_store_kept (st : gmap (wstring * wstring) Bytes)
    (k : wstring * wstring) (key : wstring) (data : Bytes) :
  match <[k := data]> st !! k with
  | Some b => <[key := b]> (∅ : gmap wstring Bytes)
  | None => ∅
  end !! key = Some data.
Proof. rewrite lookup_insert_eq. apply lookup_insert_eq. Qed.

Lemma Sim_store_gone (st : gmap (wstring * wstring) Bytes)
    (k : wstring * wstring) (key : wstring) :
  match delete k st !! k with
  | Some b => <[key := b]> (∅ : gmap wstring Bytes)
  | None => ∅
  end !! key = None.
Proof. rewrite lookup_delete_eq. apply lookup_empty. Qed.

Lemma Sim_keepsUpdates : keepsUpdates (plat := Sim.platform).
Proof.
  intros cl c key data r _. split; [reflexivity |].
  exact (Sim_store_kept cl (c.2, key) key data).
Qed.

Lemma Sim_forgetsDeleted : forgetsDeleted (plat := Sim.platform).
Proof.
  intros cl c key r _. split; [reflexivity |].
  exact (Sim_store_gone cl (c.2, key) key).
Qed.

Lemma X4_witness :
  gameSaveContainer Sim.slot = Some (Sim.handle 1 "save")
  ∧ keepsUpdates (plat := Sim.platform)
  ∧ fst (SubmitUpdatesAsync (Platform := Sim.platform) Sim.empty (Sim.handle 1 "save")
           [(Sim.narrowToWide "blob", Sim.payload)] []) = Ok
  ∧ ∃ cl', submitBlob Sim.slot "blob" Sim.payload Sim.empty = Returns (cl', [])
           ∧ readBlob Sim.slot "blob" cl' = Returns (Sim.payload, []).
Proof.
  assert (Hh : gameSaveContainer Sim.slot = Some (Sim.handle 1 "save")) by reflexivity.
  assert (Hok : fst (SubmitUpdatesAsync (Platform := Sim.platform) Sim.empty
                       (Sim.handle 1 "save") [(Sim.narrowToWide "blob", Sim.payload)] []) = Ok)
    by reflexivity.
  split; [exact Hh |]. split; [exact Sim_keepsUpdates |]. split; [exact Hok |].
  exact (proj1 (X4_written_blob_is_read_back Sim.slot (Sim.handle 1 "save") "blob"
                  Sim.payload Sim.empty Hh) Sim_keepsUpdates Hok).
Defined.

Lemma X5_witness :
  gameSaveContainer Sim.slot = Some (Sim.handle 1 "save")
  ∧ ∃ bytes lg, readBlob Sim.slot "blob" Sim.empty = Returns (bytes, lg)
                ∧ (lg = [] ↔ fst (GetAsync (Platform := Sim.platform) Sim.empty
                                    (Sim.handle 1 "save") [Sim.narrowToWide "blob"]) = Ok).
Proof.
  assert (Hh : gameSaveContainer Sim.slot = Some (Sim.handle 1 "save")) by reflexivity.
  split; [exact Hh |].
  destruct (X5_read_returns_what_the_store_holds Sim.slot (Sim.handle 1 "save") "blob"
              Sim.empty Hh) as (bytes & lg & Hread & _ & Hlog & _).
  exists bytes, lg. split; [exact Hread | exact Hlog].
Defined.

Lemma X6_witness :
  gameSaveContainer (obj (inFlight Sim.slot Sim.empty 1000)) = Some (Sim.handle 1 "save")
  ∧ writer (inFlight Sim.slot Sim.empty 1000) = WSubmit
  ∧ ∃ c', run "blob" Sim.payload "blob" [WriterStep; WriterStep]
            (inFlight Sim.slot Sim.empty 1000) = Some c'
          ∧ writer c' = WDone
          ∧ isSaving (obj c') = false.
Proof.
  assert (Hh : gameSaveContainer (obj (inFlight Sim.slot Sim.empty 1000))
               = Some (Sim.handle 1 "save")) by reflexivity.
  assert (Hpc : writer (inFlight Sim.slot Sim.empty 1000) = WSubmit) by reflexivity.
  split; [exact Hh |]. split; [exact Hpc |].
  destruct (X6_write_job_always_drops_the_flag "blob" Sim.payload "blob"
              (inFlight Sim.slot Sim.empty 1000) (Sim.handle 1 "save") Hh Hpc)
    as (c' & Hrun & Hw & Hs & _).
  exists c'. split; [exact Hrun |]. split; [exact Hw | exact Hs].
Defined.


Lemma X8_witness :
  gameSaveContainer Sim.slot = Some (Sim.handle 1 "save")
  ∧ run "blob" Sim.payload "blob" [] (inFlight Sim.slot Sim.empty 1000)
    = Some (inFlight Sim.slot Sim.empty 1000)
  ∧ ∃ sched c' bytes,
      Forall (λ a, a ≠ WriterStep) sched
      ∧ run "blob" Sim.payload "blob" ([] ++ sched) (inFlight Sim.slot Sim.empty 1000)
        = Some c'
      ∧ reader c' = RDone bytes
      ∧ writer c' = writer (inFlight Sim.slot Sim.empty 1000).
Proof.
  assert (Hh : gameSaveContainer Sim.slot = Some (Sim.handle 1 "save")) by reflexivity.
  assert (Hrun : run "blob" Sim.payload "blob" [] (inFlight Sim.slot Sim.empty 1000)
                 = Some (inFlight Sim.slot Sim.empty 1000)) by reflexivity.
  split; [exact Hh |]. split; [exact Hrun |].
  exact (X8_read_job_can_always_finish Sim.slot (Sim.handle 1 "save") Sim.empty 1000
           Hh "blob" Sim.payload "blob" [] _ Hrun).
Defined.

Section ReconnectMore.

Context `{plat : Platform}.

Lemma recreate_keeps m s s' :
  recreate m s = Returns s' →
  containerName s' = containerName s ∧ isSaving s' = isSaving s
  ∧ ∃ p, gameSaveProvider m = Some p ∧ s' = recreatedFrom p s.
Proof.
  unfold recreate, createFromProvider, getProvider.
  destruct (gameSaveProvider m) as [p |]; simpl; [| discriminate].
  intros [= <-]. repeat split. now exists p.
Qed.

Lemma recreateEach_keeps m addrs : ∀ h h',
  recreateEach m addrs h = Returns h' →
  ∀ a s', h' !! a = Some s' →
    ∃ s, h !! a = Some s
         ∧ containerName s' = containerName s ∧ isSaving s' = isSaving s
         ∧ (s' = s ∨ ∃ p, gameSaveProvider m = Some p ∧ s' = recreatedFrom p s).
Proof.
  induction addrs as [| b rest IH]; intros h h'; cbn [recreateEach].
  - intros [= <-] a s' Hs'. exists s'. auto.
  - destruct (h !! b) as [sb |] eqn:Hb; [| discriminate].
    destruct (recreate m sb) as [sb' | |] eqn:Hrec; simpl; try discriminate.
    intros Hrun a s' Hs'.
    destruct (recreate_keeps m sb sb' Hrec) as (Hn & Hi & p & Hp & ->).
    destruct (IH _ _ Hrun a s' Hs') as (s1 & Hs1 & Hn1 & Hi1 & Hor).
    destruct (decide (a = b)) as [-> | Hne].
    + rewrite list_lookup_insert_eq in Hs1 by (eapply lookup_lt_Some; eauto).
      injection Hs1 as <-. exists sb. split; [exact Hb |].
      split; [congruence |]. split; [congruence |]. right. exists p. split; [exact Hp |].
      destruct Hor as [-> | (p' & Hp' & ->)]; [reflexivity |].
      rewrite Hp in Hp'. now injection Hp' as <-.
    + rewrite list_lookup_insert_ne in Hs1 by congruence. exists s1. auto.
Qed.

(** X9.  When the request for connected storage is refused during a
    reconnection, the manager ends Disconnected and without a provider
    if no container is registered; if one is, the loop over the
    registry goes through the empty [Maybe] and the call has no defined
    outcome. *)
Theorem X9_refused_reconnection (result : GameSaveProviderGetResult) (w : World) :
  status (manager w) = Connected →
  is_Some (xboxLiveContext (manager w)) →
  getStatusOf result ≠ Ok →
  (saveStorage (manager w) = ∅ →
     recreateCloudSaveContainer result w
     = Returns (mkWorld (withStatus (withProvider (manager w) None) Disconnected) (heap w)))
  ∧ (saveStorage (manager w) ≠ ∅ →
     recreateCloudSaveContainer result w = Undefined).
Proof.
  intros Hst [ctx Hctx] Hno. unfold recreateCloudSaveContainer.
  rewrite decide_True by exact Hst. unfold getConnectedStorage. simpl. rewrite Hctx.
  rewrite decide_False by exact Hno. simpl. split.
  - intros ->. rewrite map_to_list_empty. reflexivity.
  - intros Hne. destruct (map_to_list (saveStorage (manager w))) as [| [n a] rest] eqn:Hl.
    + apply map_to_list_empty_iff in Hl. contradiction.
    + rewrite fmap_cons. now rewrite recreateEach_no_provider.
Qed.

(** X10.  A reconnection that returns leaves the registry, the session
    handles and the achievement cache alone, keeps the heap at its
    size, and keeps the container name and the [isSaving] flag of every
    object: only handles, provider and status change. *)
Theorem X10_reconnection_changes_handles_only
    (result : GameSaveProviderGetResult) (w w' : World) :
  recreateCloudSaveContainer result w = Returns w' →
  saveStorage (manager w') = saveStorage (manager w)
  ∧ xboxUser (manager w') = xboxUser (manager w)
  ∧ xboxLiveContext (manager w') = xboxLiveContext (manager w)
  ∧ achievementsStatus (manager w') = achievementsStatus (manager w)
  ∧ achievementStatus (manager w') = achievementStatus (manager w)
  ∧ length (heap w') = length (heap w)
  ∧ ∀ a s', heap w' !! a = Some s' →
      ∃ s, heap w !! a = Some s
           ∧ containerName s' = containerName s
           ∧ isSaving s' = isSaving s.
Proof.
  unfold recreateCloudSaveContainer.
  destruct (decide (status (manager w) = Connected)).
  - destruct (getConnectedStorage _ _) as [m2 | |] eqn:Hget; simpl; try discriminate.
    destruct (recreateEach _ _ _) as [h | |] eqn:Hrun; simpl; try discriminate.
    intros [= <-]. simpl.
    assert (Hm2 : saveStorage m2 = saveStorage (manager w)
                  ∧ xboxUser m2 = xboxUser (manager w)
                  ∧ xboxLiveContext m2 = xboxLiveContext (manager w)
                  ∧ achievementsStatus m2 = achievementsStatus (manager w)
                  ∧ achievementStatus m2 = achievementStatus (manager w)).
    { unfold getConnectedStorage in Hget. simpl in Hget.
      destruct (xboxLiveContext (manager w)) eqn:Hctx; [| discriminate].
      destruct (decide _); injection Hget as <-; repeat split; simpl; auto. }
    destruct Hm2 as (H1 & H2 & H3 & H4 & H5).
    repeat (split; [assumption |]).
    split; [exact (recreateEach_length _ _ _ _ Hrun) |].
    intros a s' Hs'.
    destruct (recreateEach_keeps _ _ _ _ Hrun a s' Hs') as (s & Hs & Hn & Hi & _).
    exists s. auto.
  - intros [= <-]. repeat split. intros a s' Hs'. exists s'. auto.
Qed.

Lemma recreateCloudSaveContainer_granted result w :
  status (manager w) = Connected →
  is_Some (xboxLiveContext (manager w)) →
  getStatusOf result = Ok →
  (∀ name a, saveStorage (manager w) !! name = Some a → (a < length (heap w))%nat) →
  ∃ h, recreateCloudSaveContainer result w
       = Returns (mkWorld (withStatus (withProvider (manager w) (Some (getValueOf result)))
                                      Connected) h)
       ∧ ∀ name a, saveStorage (manager w) !! name = Some a →
           ∃ s, heap w !! a = Some s ∧ h !! a = Some (recreatedFrom (getValueOf result) s).
Proof.
  intros Hst [ctx Hctx] Hok Hbound. unfold recreateCloudSaveContainer.
  rewrite decide_True by exact Hst. unfold getConnectedStorage. simpl. rewrite Hctx.
  rewrite decide_True by exact Hok. simpl.
  set (m2 := withStatus (withProvider (withStatus (withProvider (manager w) None)
               Disconnected) (Some (getValueOf result))) Connected).
  destruct (recreateEach_spec m2 (getValueOf result)
              (map_to_list (saveStorage (manager w))).*2 eq_refl (heap w))
    as (h & Hrun & _ & Hget).
  { intros a Hin. apply list_elem_of_fmap in Hin as ([name a'] & -> & Hin).
    apply elem_of_map_to_list in Hin. eauto. }
  exists h. rewrite Hrun. split; [reflexivity |].
  intros name a Hname.
  destruct (lookup_lt_is_Some_2 (heap w) a (Hbound name a Hname)) as [s Hs].
  exists s. split; [exact Hs |]. rewrite Hget, Hs.
  rewrite decide_True; [reflexivity |].
  apply list_elem_of_fmap. exists (name, a). split; [reflexivity |].
  now apply elem_of_map_to_list.
Qed.

(** X11.  After a reconnection that was granted, every registered
    container is ready at once: its readiness test answers true and
    leaves the object, with its new handle, as it is, so none of the
    four save operations throws. *)
Theorem X11_registered_containers_ready_after_reconnection
    (result : GameSaveProviderGetResult) (w : World) :
  status (manager w) = Connected →
  is_Some (xboxLiveContext (manager w)) →
  getStatusOf result = Ok →
  (∀ name a, saveStorage (manager w) !! name = Some a → (a < length (heap w))%nat) →
  ∃ w', recreateCloudSaveContainer result w = Returns w'
        ∧ ∀ name a, saveStorage (manager w') !! name = Some a →
            ∃ s', heap w' !! a = Some s'
                  ∧ isReady (manager w') s' = Returns (true, s')
                  ∧ ∀ path, getData (manager w') s' path = Returns (s', GetDataJob path).
Proof.
  intros Hst Hctx Hok Hbound.
  destruct (recreateCloudSaveContainer_granted result w Hst Hctx Hok Hbound)
    as (h & Hrun & Hreg).
  eexists. split; [exact Hrun |]. simpl. intros name a Hname.
  destruct (Hreg name a Hname) as (s & Hs & Hh).
  exists (recreatedFrom (getValueOf result) s). split; [exact Hh |].
  assert (Hr : isReady (withStatus (withProvider (manager w) (Some (getValueOf result)))
                          Connected) (recreatedFrom (getValueOf result) s)
               = Returns (true, recreatedFrom (getValueOf result) s)).
  { rewrite (isReady_online _ (recreatedFrom (getValueOf result) s)
               (CreateContainer (getValueOf result) (getUTF16 (containerName s))));
      reflexivity. }
  split; [exact Hr |]. intros path. unfold getData, whenReady. now rewrite Hr.
Qed.

(** X12.  The loop over the registry gives the same heap, or fails
    alike, in whatever order the entries are visited. *)
Theorem X12_recreation_order_is_immaterial
    (m : XBLManager) (l1 l2 : list nat) (h : list XBLSaveData) :
  l1 ≡ₚ l2 → recreateEach m l1 h = recreateEach m l2 h.
Proof. intros Hp. now apply recreateEach_Permutation. Qed.

End ReconnectMore.

Lemma X9_witness :
  status (manager Sim.saved) = Connected
  ∧ is_Some (xboxLiveContext (manager Sim.saved))
  ∧ getStatusOf Sim.refused ≠ Ok
  ∧ saveStorage (manager Sim.saved) ≠ ∅
  ∧ recreateCloudSaveContainer Sim.refused Sim.saved = Undefined.
Proof.
  assert (H1 : status (manager Sim.saved) = Connected) by reflexivity.
  assert (H2 : is_Some (xboxLiveContext (manager Sim.saved))) by (eexists; reflexivity).
  assert (H3 : getStatusOf Sim.refused ≠ Ok) by discriminate.
  assert (H4 : saveStorage (manager Sim.saved) ≠ ∅).
  { simpl. intros He. apply (f_equal (λ m : gmap string nat, m !! "slot"%string)) in He.
    rewrite lookup_singleton_eq, lookup_empty in He. discriminate He. }
  repeat (split; [assumption |]).
  exact (proj2 (X9_refused_reconnection Sim.refused Sim.saved H1 H2 H3) H4).
Defined.

Lemma X10_witness :
  ∃ w', recreateCloudSaveContainer Sim.granted Sim.saved = Returns w'
        ∧ saveStorage (manager w') = saveStorage (manager Sim.saved)
        ∧ length (heap w') = length (heap Sim.saved).
Proof.
  destruct (recreateCloudSaveContainer_granted Sim.granted Sim.saved) as (h & Hrun & _);
    [reflexivity | eexists; reflexivity | reflexivity | |].
  - intros name a. simpl. intros Hl.
    apply lookup_singleton_Some in Hl as [_ <-]. simpl. lia.
  - eexists. split; [exact Hrun |].
    destruct (X10_reconnection_changes_handles_only Sim.granted Sim.saved _ Hrun)
      as (H1 & _ & _ & _ & _ & H2 & _).
    split; [exact H1 | exact H2].
Defined.

Lemma X11_witness :
  status (manager Sim.saved) = Connected
  ∧ is_Some (xboxLiveContext (manager Sim.saved))
  ∧ getStatusOf Sim.granted = Ok
  ∧ (∀ name a, saveStorage (manager Sim.saved) !! name = Some a →
               (a < length (heap Sim.saved))%nat)
  ∧ ∃ w', recreateCloudSaveContainer Sim.granted Sim.saved = Returns w'
          ∧ ∀ name a, saveStorage (manager w') !! name = Some a →
              ∃ s', heap w' !! a = Some s'
                    ∧ isReady (manager w') s' = Returns (true, s').
Proof.
  assert (H1 : status (manager Sim.saved) = Connected) by reflexivity.
  assert (H2 : is_Some (xboxLiveContext (manager Sim.saved))) by (eexists; reflexivity).
  assert (H3 : getStatusOf Sim.granted = Ok) by reflexivity.
  assert (H4 : ∀ name a, saveStorage (manager Sim.saved) !! name = Some a →
                         (a < length (heap Sim.saved))%nat).
  { intros name a. simpl. intros Hl.
    apply lookup_singleton_Some in Hl as [_ <-]. simpl. lia. }
  repeat (split; [assumption |]).
  destruct (X11_registered_containers_ready_after_reconnection Sim.granted Sim.saved
              H1 H2 H3 H4) as (w' & Hrun & Hall).
  exists w'. split; [exact Hrun |]. intros name a Hname.
  destruct (Hall name a Hname) as (s' & Hs' & Hr & _). exists s'. auto.
Defined.

Lemma X12_witness :
  [0; 1]%nat ≡ₚ [1; 0]%nat
  ∧ recreateEach Sim.online [0; 1]%nat [Sim.slot; Sim.unopened "x"]
    = recreateEach Sim.online [1; 0]%nat [Sim.slot; Sim.unopened "x"].
Proof.
  assert (Hp : [0; 1]%nat ≡ₚ [1; 0]%nat) by apply perm_swap.
  split; [exact Hp |].
  exact (X12_recreation_order_is_immaterial Sim.online _ _ _ Hp).
Defined.

Section SigningIn.

Context `{plat : Platform}.

(** The manager as [onLoggedIn] leaves it, and the request it sends. *)
Local Abbreviation contextOf a :=
  {| user := account a; scid := appScid a; title_id := appTitle a |}.

Local Abbreviation requestOf a :=
  {| ar_user := xbox_user_id (account a); ar_title := appTitle a;
     ar_skip := 0; ar_max := 0 |}.

Local Abbreviation welcomed a m :=
  (withAchievementStatus
     (withAchievementsStatus
        (withContext (withUser m (Some (account a))) (Some (contextOf a)))
        Retrieving) ∅).

Lemma onLoggedIn_spec a m :
  onLoggedIn a m
  = Returns (if decide (getStatusOf (storage a) = Ok)
             then withStatus (withProvider (welcomed a m) (Some (getValueOf (storage a))))
                             Connected
             else withStatus (welcomed a m) Disconnected,
             [SignOutHandlerAdded; AchievementsRequested (requestOf a)]).
Proof.
  unfold onLoggedIn, retrieveUserAchievementsState, getConnectedStorage. simpl.
  now destruct (decide _).
Qed.

Lemma signIn_loggedIn a m :
  loggedIn a →
  signIn a m = onLoggedIn a (withUser (withStatus m Connecting) (Some (blank a))).
Proof.
  unfold signIn, signedInSilently, signedInInteractively.
  intros [-> | [-> ->]]; reflexivity.
Qed.

(** X13.  [signIn] with an answer to the silent request other than
    "interaction required".  The call returns.  The manager ends
    Connected exactly when the silent sign-in succeeded and connected
    storage was granted, and Disconnected otherwise.  After a success
    it holds the signed-in user, a new context and the granted
    provider, its cache is empty with the status Retrieving, the
    sign-out handler has been added and the achievements requested.
    After a failure the user handle is the new, blank one, while the
    context and the provider of an earlier session are still there. *)
Theorem X13_silent_sign_in (a : SignInAnswers) (m : XBLManager) :
  silently a ≠ result_ok user_interaction_required →
  ∃ m' effects,
    signIn a m = Returns (m', effects)
    ∧ saveStorage m' = saveStorage m
    ∧ (status m' = Connected ↔
       silently a = result_ok success ∧ getStatusOf (storage a) = Ok)
    ∧ (status m' ≠ Connected → status m' = Disconnected)
    ∧ (silently a = result_ok success →
       xboxUser m' = Some (account a)
       ∧ xboxLiveContext m' = Some (contextOf a)
       ∧ achievementsStatus m' = Retrieving
       ∧ achievementStatus m' = ∅
       ∧ effects = [SignOutHandlerAdded; AchievementsRequested (requestOf a)]
       ∧ (status m' = Connected → gameSaveProvider m' = Some (getValueOf (storage a))))
    ∧ (silently a ≠ result_ok success →
       xboxUser m' = Some (blank a)
       ∧ xboxLiveContext m' = xboxLiveContext m
       ∧ gameSaveProvider m' = gameSaveProvider m
       ∧ achievementsStatus m' = achievementsStatus m
       ∧ achievementStatus m' = achievementStatus m).
Proof.
  intros Hsilent. unfold signIn, signedInSilently.
  destruct (silently a) as [[| |] | value msg] eqn:Hs; try contradiction.
  - rewrite onLoggedIn_spec.
    destruct (decide (getStatusOf (storage a) = Ok)) as [Hok | Hno];
      eexists _, _; (split; [reflexivity |]); simpl; repeat split;
      try tauto; try congruence; try (intros []; congruence).
  - eexists _, _. split; [reflexivity |]. simpl. repeat split; try congruence.
    intros []. congruence.
  - eexists _, _. split; [reflexivity |]. simpl. repeat split; try congruence.
    intros []. congruence.
Qed.

(** X14.  [signIn] when the silent request asks for interaction.  The
    interactive request decides: on success the manager ends as after a
    silent success, Connected exactly when connected storage was
    granted; on any other status it ends Disconnected; on an error the
    error is logged and the status stays Connecting. *)
Theorem X14_interactive_sign_in (a : SignInAnswers) (m : XBLManager) :
  silently a = result_ok user_interaction_required →
  ∃ m' effects,
    signIn a m = Returns (m', effects)
    ∧ (status m' = Connected ↔
       interactively a = result_ok success ∧ getStatusOf (storage a) = Ok)
    ∧ (status m' = Connecting ↔ ∃ value msg, interactively a = result_err value msg)
    ∧ (interactively a = result_ok success →
       xboxUser m' = Some (account a)
       ∧ xboxLiveContext m' = Some (contextOf a)
       ∧ achievementsStatus m' = Retrieving
       ∧ achievementStatus m' = ∅
       ∧ effects = [SignOutHandlerAdded; AchievementsRequested (requestOf a)])
    ∧ (∀ value msg, interactively a = result_err value msg →
       m' = withUser (withStatus m Connecting) (Some (blank a))
       ∧ effects = [Logged (logError [Str "Error signing in to Xbox live: "; Str msg])]).
Proof.
  intros Hs. unfold signIn, signedInSilently, signedInInteractively. rewrite Hs. simpl.
  destruct (interactively a) as [[| |] | value msg] eqn:Hi.
  - rewrite onLoggedIn_spec.
    destruct (decide (getStatusOf (storage a) = Ok)) as [Hok | Hno];
      eexists _, _; (split; [reflexivity |]); simpl; repeat split;
      try tauto; try congruence; try discriminate;
      try (intros []; congruence); try (intros (? & ? & ?); congruence).
  - eexists _, _. split; [reflexivity |]. simpl. repeat split;
      try congruence; try discriminate;
      try (intros []; congruence); try (intros (? & ? & ?); congruence).
  - eexists _, _. split; [reflexivity |]. simpl. repeat split;
      try congruence; try discriminate;
      try (intros []; congruence); try (intros (? & ? & ?); congruence).
  - eexists _, _. split; [reflexivity |]. simpl. repeat split;
      try congruence; try discriminate; try (intros []; congruence); eauto.
Qed.

(** X15.  A session from sign-in to sign-out.  After a sign-in that
    succeeded the player name is the gamertag of the account; once the
    sign-out handler has run the player name is empty, every save
    operation throws, a token request resolves to Error at once and an
    achievement query answers false, while the registry is the one the
    manager had before. *)
Theorem X15_session_opens_and_closes (a : SignInAnswers) (m : XBLManager) :
  loggedIn a →
  ∃ m1 effects,
    signIn a m = Returns (m1, effects)
    ∧ In SignOutHandlerAdded effects
    ∧ getPlayerName m1 = fromUTF16 (gamertag (account a))
    ∧ getPlayerName (signOutCompleted m1) = ""%string
    ∧ saveStorage (signOutCompleted m1) = saveStorage m
    ∧ (∀ s path data commit,
         getData (signOutCompleted m1) s path = Throws notReady
         ∧ setData (signOutCompleted m1) s path data commit = Throws notReady
         ∧ removeData (signOutCompleted m1) s path = Throws notReady
         ∧ enumerate (signOutCompleted m1) s path = Throws notReady)
    ∧ (∀ parameters,
         getAuthToken parameters (signOutCompleted m1) = Returns (Resolved AuthTokenError))
    ∧ (∀ world fuel achievementId defaultValue,
         seen (world 0%nat) = signOutCompleted m1 →
         isAchievementUnlocked world fuel achievementId defaultValue
         = Some (false, [tooEarly])).
Proof.
  intros Hin. rewrite (signIn_loggedIn a m Hin), onLoggedIn_spec.
  eexists _, _. split; [reflexivity |]. split; [now left |]. split.
  - unfold getPlayerName. now destruct (decide _).
  - split; [reflexivity |]. split; [now destruct (decide _) |].
    split; [intros; repeat split |]. split; [reflexivity |].
    intros world fuel achievementId defaultValue Hseen.
    unfold isAchievementUnlocked. rewrite Hseen. reflexivity.
Qed.

End SigningIn.

Lemma X13_witness :
  silently Sim.welcome ≠ result_ok user_interaction_required
  ∧ ∃ m' effects,
      signIn Sim.welcome Sim.offline = Returns (m', effects)
      ∧ (status m' = Connected ↔
         silently Sim.welcome = result_ok success
         ∧ getStatusOf (storage Sim.welcome) = Ok).
Proof.
  assert (H1 : silently Sim.welcome ≠ result_ok user_interaction_required)
    by discriminate.
  split; [exact H1 |].
  destruct (X13_silent_sign_in Sim.welcome Sim.offline H1) as (m' & effects & Hr & _ & Hc & _).
  exists m', effects. split; [exact Hr | exact Hc].
Defined.

Lemma X14_witness :
  silently Sim.turnedAway = result_ok user_interaction_required
  ∧ ∃ m' effects,
      signIn Sim.turnedAway Sim.offline = Returns (m', effects)
      ∧ (status m' = Connecting ↔
         ∃ value msg, interactively Sim.turnedAway = result_err value msg).
Proof.
  assert (H1 : silently Sim.turnedAway = result_ok user_interaction_required)
    by reflexivity.
  split; [exact H1 |].
  destruct (X14_interactive_sign_in Sim.turnedAway Sim.offline H1)
    as (m' & effects & Hr & _ & Hc & _).
  exists m', effects. split; [exact Hr | exact Hc].
Defined.

Lemma X15_witness :
  loggedIn Sim.welcome
  ∧ ∃ m1 effects,
      signIn Sim.welcome Sim.offline = Returns (m1, effects)
      ∧ getPlayerName m1 = "Ada"%string
      ∧ getPlayerName (signOutCompleted m1) = ""%string.
Proof.
  assert (H1 : loggedIn Sim.welcome) by (left; reflexivity).
  split; [exact H1 |].
  destruct (X15_session_opens_and_closes Sim.welcome Sim.offline H1)
    as (m1 & effects & Hr & _ & Hn & Hn' & _).
  exists m1, effects. split; [exact Hr |]. split; [exact Hn | exact Hn'].
Defined.

Section Invariants.

Context `{plat : Platform}.

Lemma sameConnection_wellFormed m m' h :
  sameConnection m m' → wellFormed (mkWorld m h) → wellFormed (mkWorld m' h).
Proof.
  intros (Hu & Hc & Hp & Hs & Hr) ([Hbound Hinj] & Hready & Hsession & Hown).
  unfold wellFormed, registrySound, providerReady, sessionReady in *. simpl in *.
  rewrite Hu, Hc, Hp, Hs, Hr. auto.
Qed.

Lemma wellFormed_manager m' w :
  wellFormed w → saveStorage m' = saveStorage (manager w) →
  providerReady m' → sessionReady m' → wellFormed (mkWorld m' (heap w)).
Proof.
  intros ([Hbound Hinj] & _ & _ & Hown) Hreg Hr Hs.
  split; [split; simpl; rewrite Hreg; assumption |]. auto.
Qed.

Lemma achievementsRetrieved_frame result : ∀ m r,
  achievementsRetrieved result m = Returns r → sameConnection m (fst r).
Proof.
  induction result as [value msg | items | items next IH | items];
    intros m r; cbn [achievementsRetrieved].
  - destruct (xboxUser m); [| discriminate]. intros [= <-]. repeat split.
  - intros [= <-]. repeat split.
  - destruct (achievementsRetrieved next (recordPage items m)) as [r' | |] eqn:Hn;
      simpl; try discriminate.
    intros [= <-]. exact (IH _ _ Hn).
  - simpl. destruct (xboxUser m); [| discriminate]. intros [= <-]. repeat split.
Qed.

Lemma signIn_frame a m r :
  signIn a m = Returns r →
  saveStorage (fst r) = saveStorage m
  ∧ providerReady (fst r) ∧ sessionReady (fst r).
Proof.
  unfold signIn, signedInSilently, signedInInteractively. simpl.
  destruct (silently a) as [[| |] | ? ?]; try destruct (interactively a) as [[| |] | ? ?];
    rewrite ?onLoggedIn_spec; try destruct (decide _);
    intros [= <-]; simpl; (split; [reflexivity |]);
    split; intros Hc; try discriminate Hc; eauto.
Qed.

Lemma updateContainer_own m s s' :
  updateContainer m s = Returns s' →
  containerName s' = containerName s
  ∧ ((∀ c, gameSaveContainer s = Some c →
           ∃ p, c = CreateContainer p (getUTF16 (containerName s))) →
     ∀ c, gameSaveContainer s' = Some c →
          ∃ p, c = CreateContainer p (getUTF16 (containerName s'))).
Proof.
  unfold updateContainer, createFromProvider, getProvider.
  destruct (decide _).
  - destruct (gameSaveContainer s) as [c0 |] eqn:Hh.
    + intros [= <-]. split; [reflexivity |]. intros Hown c Hc. apply Hown. congruence.
    + destruct (gameSaveProvider m) as [p |]; simpl; [| discriminate].
      intros [= <-]. split; [reflexivity |]. intros _ c [= <-]. now exists p.
  - intros [= <-]. split; [reflexivity |]. intros _ c Hc. discriminate Hc.
Qed.

Lemma normalizeName_nonempty name : normalizeName name ≠ ""%string.
Proof. unfold normalizeName. destruct (decide _); [discriminate | assumption]. Qed.

Lemma perform_wellFormed e w w' :
  wellFormed w → perform e w = Returns w' →
  wellFormed w'
  ∧ ∀ n a, saveStorage (manager w) !! n = Some a → saveStorage (manager w') !! n = Some a.
Proof.
  intros Hwf. pose proof Hwf as (Hsound & Hready & Hsession & Hown).
  destruct e as [a | | result | name | name | result | id progress result |];
    cbn [perform].
  - (* SignIn *)
    destruct (signIn a (manager w)) as [r | |] eqn:Hs; simpl; try discriminate.
    intros [= <-]. destruct (signIn_frame _ _ _ Hs) as (Hreg & Hr & Hse).
    split; [| simpl; now rewrite Hreg].
    now apply wellFormed_manager.
  - (* SignOut *)
    intros [= <-]. split; [| auto].
    apply wellFormed_manager; [exact Hwf | reflexivity | |];
      intros Hc; discriminate Hc.
  - (* Reconnect *)
    intros Hrun.
    destruct (recreateCloudSaveContainer_keeps _ _ _ Hrun) as (Hreg & Hlen & Hr & Hs).
    split; [| now rewrite Hreg].
    split; [auto |]. split; [auto |]. split.
    + unfold recreateCloudSaveContainer in Hrun.
      destruct (decide (status (manager w) = Connected)) as [Hc | Hc];
        [| now injection Hrun as <-].
      destruct (Hsession Hc) as [Hu Hx].
      destruct (getConnectedStorage _ _) as [m2 | |] eqn:Hget; simpl in Hrun;
        try discriminate.
      destruct (recreateEach _ _ _) as [h | |]; simpl in Hrun; try discriminate.
      injection Hrun as <-. simpl. unfold getConnectedStorage in Hget. simpl in Hget.
      destruct (xboxLiveContext (manager w)) eqn:Hctx; [| discriminate].
      destruct (decide _); injection Hget as <-; intros Hc'; simpl in *;
        [rewrite Hctx; auto | discriminate].
    + unfold recreateCloudSaveContainer in Hrun.
      destruct (decide (status (manager w) = Connected)); [| now injection Hrun as <-].
      destruct (getConnectedStorage _ _) as [m2 | |]; simpl in Hrun; try discriminate.
      destruct (recreateEach _ _ _) as [h | |] eqn:Heach; simpl in Hrun; try discriminate.
      injection Hrun as <-. intros a s' Hs'. simpl in Hs'.
      destruct (recreateEach_keeps _ _ _ _ Heach a s' Hs') as (s & Hs0 & Hn & _ & Hor).
      destruct (Hown a s Hs0) as [Hne Hh]. rewrite Hn. split; [exact Hne |].
      destruct Hor as [-> | (p & _ & ->)]; [exact Hh |].
      intros c [= <-]. now exists p.
  - (* GetContainer *)
    destruct (getSaveContainer name w) as [[a w1] | |] eqn:Hg; simpl; try discriminate.
    intros [= <-]. destruct (getSaveContainer_sound _ _ _ _ Hsound Hg) as (Hs1 & Hkeep & _).
    split; [| exact Hkeep]. unfold getSaveContainer in Hg.
    destruct (saveStorage (manager w) !! name); [now injection Hg as _ <- |].
    destruct (newSaveData (manager w) name) as [s | |] eqn:Hnew; simpl in Hg;
      try discriminate.
    injection Hg as _ <-. split; [exact Hs1 |]. split; [exact Hready |].
    split; [exact Hsession |]. intros b s' Hs'. simpl in Hs'.
    apply lookup_app_Some in Hs' as [Hs' | [_ Hs']]; [now apply (Hown b) |].
    apply list_lookup_singleton_Some in Hs' as [_ <-].
    unfold newSaveData in Hnew. destruct (updateContainer_own _ _ _ Hnew) as [Hn Hh].
    rewrite Hn. simpl. split; [apply normalizeName_nonempty |].
    rewrite Hn in Hh. apply Hh. intros c Hc. discriminate Hc.
  - (* Touch *)
    unfold touch. destruct (saveStorage (manager w) !! name) as [a |];
      [| intros [= <-]; auto].
    destruct (heap w !! a) as [s |] eqn:Hs; [| discriminate].
    destruct (isReady (manager w) s) as [[ready s1] | |] eqn:Hr; simpl; try discriminate.
    intros [= <-]. split; [| auto].
    split; [split; simpl; [rewrite length_insert |]; apply Hsound |].
    split; [exact Hready |]. split; [exact Hsession |].
    intros b s' Hs'. simpl in Hs'.
    destruct (decide (b = a)) as [-> | Hne].
    + rewrite list_lookup_insert_eq in Hs' by (eapply lookup_lt_Some; eauto).
      injection Hs' as <-. unfold isReady in Hr.
      destruct (updateContainer (manager w) s) as [s2 | |] eqn:Hu; simpl in Hr;
        try discriminate.
      injection Hr as _ <-. destruct (updateContainer_own _ _ _ Hu) as [Hn Hh].
      destruct (Hown a s Hs) as [Hne Hc]. rewrite Hn. split; [exact Hne |].
      rewrite Hn in Hh. now apply Hh.
    + rewrite list_lookup_insert_ne in Hs' by congruence. now apply (Hown b).
  - (* AchievementsArrive *)
    destruct (achievementsRetrieved result (manager w)) as [r | |] eqn:Ha; simpl;
      try discriminate.
    intros [= <-]. pose proof (achievementsRetrieved_frame _ _ _ Ha) as Hf.
    split; [| simpl; destruct Hf as (_ & _ & _ & _ & ->); auto].
    apply (sameConnection_wellFormed (manager w)); [exact Hf | now destruct w].
  - (* ProgressAnswered *)
    intros [= <-].
    assert (Hf : sameConnection (manager w)
                   (fst (achievementUpdated id progress result (manager w)))).
    { unfold achievementUpdated. destruct result; [destruct (decide _) |]; repeat split. }
    split; [| simpl; destruct Hf as (_ & _ & _ & _ & ->); auto].
    apply (sameConnection_wellFormed (manager w)); [exact Hf | now destruct w].
  - (* DeInit *)
    intros [= <-]. split; [| auto].
    apply (sameConnection_wellFormed (manager w)); [repeat split | now destruct w].
Qed.


(** A manager that does not start out connected, with nothing
    registered, is well-formed. *)
Lemma emptyWorld_wellFormed m : status m ≠ Connected → wellFormed (emptyWorld m).
Proof.
  intros Hst. split; [apply emptyWorld_sound |].
  split; [intros Hc; contradiction |]. split; [intros Hc; contradiction |].
  intros a s Hs. discriminate Hs.
Qed.


End Invariants.

Lemma session_run :
  performAll Sim.session (emptyWorld Sim.offline) = Returns Sim.afterSession.
Proof. vm_compute. reflexivity. Qed.



Section AchievementsMore.

Context `{plat : Platform}.

Lemma widen_inj c1 c2 : widen c1 = widen c2 → c1 = c2.
Proof.
  unfold widen. intros Heq.
  pose proof (Ascii.N_ascii_bounded c1) as H1.
  pose proof (Ascii.N_ascii_bounded c2) as H2.
  assert (Hn : Ascii.N_of_ascii c1 = Ascii.N_of_ascii c2).
  { destruct (decide (Z.of_N (Ascii.N_of_ascii c1) < 128)),
             (decide (Z.of_N (Ascii.N_of_ascii c2) < 128)); lia. }
  rewrite <- (Ascii.ascii_N_embedding c1), <- (Ascii.ascii_N_embedding c2).
  now rewrite Hn.
Qed.

Lemma to_string_t_inj s1 s2 : to_string_t s1 = to_string_t s2 → s1 = s2.
Proof.
  unfold to_string_t. intros Heq.
  rewrite <- (String.string_of_list_ascii_of_string s1),
          <- (String.string_of_list_ascii_of_string s2).
  f_equal. revert Heq.
  generalize (String.list_ascii_of_string s1) (String.list_ascii_of_string s2).
  induction l as [| c1 l1 IH]; intros [| c2 l2]; simpl; try discriminate; [reflexivity |].
  intros [= Hc Hl]. f_equal; [now apply widen_inj | now apply IH].
Qed.

(** X18.  Achievement ids do not collide in the cache: different ids
    have different keys, so an update that unlocks one achievement
    makes every later lookup of it answer true, whatever the default,
    and leaves the answer for every other id as it was. *)
Theorem X18_unlocking_touches_one_id
    (m : XBLManager) (achievementId other : string) (defaultValue : bool) :
  other ≠ achievementId →
  let m' := fst (achievementUpdated achievementId 100 (result_ok ()) m) in
  to_string_t other ≠ to_string_t achievementId
  ∧ cached m' achievementId defaultValue = true
  ∧ cached m' other defaultValue = cached m other defaultValue.
Proof.
  intros Hne m'.
  assert (Hk : to_string_t other ≠ to_string_t achievementId)
    by (intros Heq; apply Hne; now apply to_string_t_inj).
  split; [exact Hk |]. unfold m', cached, achievementUpdated. simpl. split.
  - now rewrite lookup_insert_eq.
  - rewrite lookup_insert_ne by congruence. reflexivity.
Qed.

(** X19.  Reporting a progress equal to a positive maximum unlocks the
    achievement: while signed in, [setAchievementProgress] sends a
    percentage of 100; when the service accepts it the flag is cached,
    and from then on, with the status Ready, [isAchievementUnlocked]
    answers true for that id whatever the default. *)
Theorem X19_full_progress_unlocks
    (m : XBLManager) (u : xbox_live_user) (achievementId : string) (n : Z) :
  0 < n →
  xboxUser m = Some u →
  is_Some (xboxLiveContext m) →
  setAchievementProgress achievementId n n m
  = Returns (Some {| up_user := xbox_user_id u;
                     up_id := to_string_t achievementId;
                     up_progress := 100 |})
  ∧ ∀ (m1 : XBLManager) (world : Timeline) (fuel : nat) (defaultValue : bool),
      achievementsStatus m1 = Ready →
      seen (world 0%nat) = fst (achievementUpdated achievementId 100 (result_ok ()) m1) →
      isAchievementUnlocked world fuel achievementId defaultValue = Some (true, []).
Proof.
  intros Hn Hu [ctx Hctx]. split.
  - unfold setAchievementProgress. now rewrite Hu, Hctx, (progressPercent_full n Hn).
  - intros m1 world fuel defaultValue Hst Hseen.
    unfold isAchievementUnlocked. rewrite Hseen. simpl. rewrite Hst. simpl.
    unfold cached. simpl. now rewrite lookup_insert_eq.
Qed.

(** X20.  When the pages name an achievement more than once, the cache
    ends with the state of its last occurrence; an id that the pages do
    not name keeps the entry it had when the continuation started. *)
Theorem X20_last_occurrence_wins (m : XBLManager) (result : achievements_result) :
  is_Some (xboxUser m) →
  ∃ m' lg,
    achievementsRetrieved result m = Returns (m', lg)
    ∧ ∀ id, achievementStatus m' !! id
            = match last (filter (λ a, ach_id a = id) (received result)) with
              | Some a => Some (isAchieved a)
              | None => achievementStatus m !! id
              end.
Proof.
  intros Hu. destruct (achievementsRetrieved_spec result m Hu) as [lg Hlg].
  eexists _, lg. split; [exact Hlg |]. intros id. simpl.
  apply foldl_recordAchievement_lookup.
Qed.

Lemma achievementsRetrieved_signed_out result : ∀ m,
  xboxUser m = None →
  achievementsRetrieved result m
  = if complete result
    then Returns (withAchievementsStatus
                    (withAchievementStatus m
                       (foldl recordAchievement (achievementStatus m) (received result)))
                    Ready,
                  achievementInfo <$> received result)
    else Undefined.
Proof.
  induction result as [value msg | items | items next IH | items];
    intros m Hu; cbn [achievementsRetrieved received complete].
  - now rewrite Hu.
  - reflexivity.
  - rewrite (IH (recordPage items m)) by exact Hu.
    destruct (complete next); [| reflexivity]. simpl.
    now rewrite foldl_recordAchievement_app, fmap_app.
  - simpl. now rewrite Hu.
Qed.

(** X21.  The continuation of the retrieval does not look at the
    session.  If the user signed out while the pages were on their way
    and all pages arrive, the cache is filled and the status set to
    Ready on a manager that is Disconnected and has no user; if a page
    reports an error or throws, the error message is built from the
    null user handle and the continuation has no defined outcome. *)
Theorem X21_pages_after_sign_out (m : XBLManager) (result : achievements_result) :
  (complete result = true →
   ∃ m' lg,
     achievementsRetrieved result (signOutCompleted m) = Returns (m', lg)
     ∧ achievementsStatus m' = Ready
     ∧ achievementStatus m' = foldl recordAchievement ∅ (received result)
     ∧ xboxUser m' = None
     ∧ status m' = Disconnected)
  ∧ (complete result = false →
     achievementsRetrieved result (signOutCompleted m) = Undefined).
Proof.
  rewrite (achievementsRetrieved_signed_out result (signOutCompleted m) eq_refl).
  split; intros ->; [| reflexivity].
  eexists _, _. split; [reflexivity |]. repeat split.
Qed.

(** X22.  [deInit], which the destructor calls, touches nothing but the
    achievement fields, and after it every achievement query answers
    false with a warning, whatever was cached and whatever the
    default. *)
Theorem X22_deInit_closes_the_cache
    (m : XBLManager) (world : Timeline) (fuel : nat)
    (achievementId : string) (defaultValue : bool) :
  seen (world 0%nat) = deInit m →
  isAchievementUnlocked world fuel achievementId defaultValue = Some (false, [tooEarly])
  ∧ sameConnection m (deInit m)
  ∧ achievementStatus (deInit m) = ∅
  ∧ deInit (deInit m) = deInit m.
Proof.
  intros Hseen. unfold isAchievementUnlocked. rewrite Hseen. repeat split.
Qed.

(** X23.  The authorisation token carries exactly three entries, the
    gamertag, the user id and the token, each under its own key. *)
Theorem X23_token_has_three_entries (gamerTag userId token : string) :
  XboxLiveAuthorisationToken gamerTag userId token !! "gamertag"%string = Some gamerTag
  ∧ XboxLiveAuthorisationToken gamerTag userId token !! "userId"%string = Some userId
  ∧ XboxLiveAuthorisationToken gamerTag userId token !! "token"%string = Some token
  ∧ dom (XboxLiveAuthorisationToken gamerTag userId token)
    = {[ "gamertag"%string; "userId"%string; "token"%string ]}.
Proof.
  unfold XboxLiveAuthorisationToken. split; [| split; [| split]].
  - rewrite lookup_insert_ne by discriminate. rewrite lookup_insert_ne by discriminate.
    apply lookup_insert_eq.
  - rewrite lookup_insert_ne by discriminate. apply lookup_insert_eq.
  - apply lookup_insert_eq.
  - rewrite !dom_insert_L, dom_empty_L. set_solver.
Qed.

End AchievementsMore.

Lemma X18_witness :
  "silver"%string ≠ "gold"%string
  ∧ cached (fst (achievementUpdated "gold" 100 (result_ok ()) Sim.online)) "gold" false
    = true
  ∧ cached (fst (achievementUpdated "gold" 100 (result_ok ()) Sim.online)) "silver" false
    = cached Sim.online "silver" false.
Proof.
  assert (H1 : "silver"%string ≠ "gold"%string) by discriminate.
  split; [exact H1 |].
  exact (proj2 (X18_unlocking_touches_one_id Sim.online "gold" "silver" false H1)).
Defined.

Lemma X19_witness :
  0 < 5
  ∧ xboxUser Sim.online = Some Sim.player
  ∧ is_Some (xboxLiveContext Sim.online)
  ∧ setAchievementProgress "gold" 5 5 Sim.online
    = Returns (Some {| up_user := xbox_user_id Sim.player;
                       up_id := to_string_t "gold";
                       up_progress := 100 |}).
Proof.
  assert (H1 : 0 < 5) by lia.
  assert (H2 : xboxUser Sim.online = Some Sim.player) by reflexivity.
  assert (H3 : is_Some (xboxLiveContext Sim.online)) by (eexists; reflexivity).
  repeat (split; [assumption |]).
  exact (proj1 (X19_full_progress_unlocks Sim.online Sim.player "gold" 5 H1 H2 H3)).
Defined.

Lemma X20_witness :
  is_Some (xboxUser Sim.retrieving)
  ∧ ∃ m' lg,
      achievementsRetrieved Sim.twoPages Sim.retrieving = Returns (m', lg)
      ∧ ∀ id, achievementStatus m' !! id
              = match last (filter (λ a, ach_id a = id) (received Sim.twoPages)) with
                | Some a => Some (isAchieved a)
                | None => achievementStatus Sim.retrieving !! id
                end.
Proof.
  assert (H1 : is_Some (xboxUser Sim.retrieving)) by (eexists; reflexivity).
  split; [exact H1 |].
  exact (X20_last_occurrence_wins Sim.retrieving Sim.twoPages H1).
Defined.

Lemma X21_witness :
  complete Sim.twoPages = true
  ∧ complete Sim.brokenPages = false
  ∧ (∃ m' lg, achievementsRetrieved Sim.twoPages (signOutCompleted Sim.online)
              = Returns (m', lg)
              ∧ achievementsStatus m' = Ready)
  ∧ achievementsRetrieved Sim.brokenPages (signOutCompleted Sim.online) = Undefined.
Proof.
  assert (H1 : complete Sim.twoPages = true) by reflexivity.
  assert (H2 : complete Sim.brokenPages = false) by reflexivity.
  split; [exact H1 |]. split; [exact H2 |]. split.
  - destruct (proj1 (X21_pages_after_sign_out Sim.online Sim.twoPages) H1)
      as (m' & lg & Hr & Hs & _).
    exists m', lg. split; [exact Hr | exact Hs].
  - exact (proj2 (X21_pages_after_sign_out Sim.online Sim.brokenPages) H2).
Defined.

Lemma X22_witness :
  seen ((λ _, {| seen := deInit Sim.retrieved; ticks := 0 |}) 0%nat) = deInit Sim.retrieved
  ∧ isAchievementUnlocked (λ _, {| seen := deInit Sim.retrieved; ticks := 0 |}) 0 "1" true
    = Some (false, [tooEarly]).
Proof.
  assert (H1 : seen ((λ _ : nat, {| seen := deInit Sim.retrieved; ticks := 0 |}) 0%nat)
               = deInit Sim.retrieved) by reflexivity.
  split; [exact H1 |].
  exact (proj1 (X22_deInit_closes_the_cache Sim.retrieved
                  (λ _, {| seen := deInit Sim.retrieved; ticks := 0 |}) 0 "1" true H1)).
Defined.
